(** * The commerce pipeline of mtc-platform: carts, orders, payments,
      digital downloads and stock

    A shallow embedding of the services of the e-commerce plugin
    (cart-service, order-service, payment-service,
    digital-download-service, store-service, product-service), of the
    download route, and the properties their specification states about
    them, followed by further properties read off the code.

    Conventions of the embedding.
    - A D1 table is the list of its rows in insertion order.  [INSERT]
      appends a row, [UPDATE ... WHERE id = ?] rewrites every row with
      that id, [DELETE ... WHERE p] drops the rows satisfying [p], and
      [.first()] is the first matching row.
    - A method of a service is a computation in the monad [Js.M]: it
      threads the state of the service and either returns a value or
      throws.  The state reached when an exception escapes is kept: the
      statements already run are not rolled back.
    - [Date.now()] and the generated identifiers
      ([prefix_${Date.now()}_${random}], the download token) come from
      the environment; they are arguments of the methods.  The clock is
      read once per request and is in seconds.
    - The numbers the cart service computes with (prices, quantities,
      rates, totals) are IEEE-754 binary64 values ([PrimFloat.float]),
      each operation rounded as JavaScript rounds it.  The amounts the
      order, payment and store services only store and hand back are
      rationals ([Q]); timestamps, counters and stock are integers ([Z]).
    - A [mapRowTo...] function renames the columns of a row one by one,
      so one record stands for the row and for the object built from
      it; a JSON column is kept as its text, the settings of a store
      as the object the text denotes. *)

From Stdlib Require Import ZArith QArith List String Bool Lia Permutation.
From Stdlib Require PrimFloat SpecFloat FloatOps.
From stdpp Require Import base gmap strings.
Import ListNotations.

Close Scope Q_scope.
Local Open Scope Z_scope.

(** * JavaScript values, exceptions and the service monad *)

Module Js.

(** What a [throw] carries: an [Error] object with its message, or any
    other value. *)
Inductive Thrown : Type :=
| JsError (message : string)
| JsValue (payload : string).

(** [error instanceof Error ? error.message : 'Unknown error'] *)
Definition message_of (error : Thrown) : string :=
  match error with
  | JsError message => message
  | JsValue _ => "Unknown error"
  end.

(** A computation over a state [S]: the outcome and the state left. *)
Definition M (S A : Type) : Type := S -> (Thrown + A) * S.

Definition ret {S A} (a : A) : M S A := fun s => (inr a, s).

Definition bind {S A B} (m : M S A) (k : A -> M S B) : M S B :=
  fun s =>
    match m s with
    | (inl e, s') => (inl e, s')
    | (inr a, s') => k a s'
    end.

Definition throw {S A} (e : Thrown) : M S A := fun s => (inl e, s).

(** [try { body } catch (error) { handler }] *)
Definition try_catch {S A} (body : M S A) (handler : Thrown -> M S A) : M S A :=
  fun s =>
    match body s with
    | (inl e, s') => handler e s'
    | (inr a, s') => (inr a, s')
    end.

Definition gets {S A} (f : S -> A) : M S A := fun s => (inr (f s), s).

Definition modify {S} (f : S -> S) : M S unit := fun s => (inr tt, f s).

(** Truthiness of the values the services test with [!x], [x && ...],
    [x || d] and [x ? a : b]. *)
Definition truthy_string (o : option string) : bool :=
  match o with
  | Some s => negb (String.eqb s "")
  | None => false
  end.

Definition truthy_Z (o : option Z) : bool :=
  match o with
  | Some z => negb (z =? 0)
  | None => false
  end.

(** [x || null] when a value is bound to a statement. *)
Definition or_null_string (o : option string) : option string :=
  if truthy_string o then o else None.

Definition or_null_Z (o : option Z) : option Z :=
  if truthy_Z o then o else None.

(** SQL helpers shared by the services. *)
Section Sql.
Context {Row : Type}.

Definition sql_insert (r : Row) (table : list Row) : list Row :=
  table ++ [r].

Definition sql_update (where_ : Row -> bool) (set : Row -> Row)
    (table : list Row) : list Row :=
  map (fun r => if where_ r then set r else r) table.

Definition sql_delete (where_ : Row -> bool) (table : list Row) : list Row :=
  List.filter (fun r => negb (where_ r)) table.

Definition sql_first (where_ : Row -> bool) (table : list Row) : option Row :=
  find where_ table.

Definition sql_all (where_ : Row -> bool) (table : list Row) : list Row :=
  List.filter where_ table.

(** [ORDER BY key ASC]: a stable insertion sort, rows with equal keys
    keep their table order. *)
Fixpoint insert_by (key : Row -> Z) (r : Row) (sorted : list Row) : list Row :=
  match sorted with
  | [] => [r]
  | r' :: rest =>
      if key r <=? key r' then r :: r' :: rest
      else r' :: insert_by key r rest
  end.

Definition sql_order_by (key : Row -> Z) (rows : list Row) : list Row :=
  fold_right (insert_by key) [] rows.
End Sql.

End Js.

Declare Scope js_scope.
Delimit Scope js_scope with js.
Notation "x <- c1 ;; c2" := (Js.bind c1 (fun x => c2))
(at level 100, c1 at next level, right associativity) : js_scope.
Notation "c1 ;; c2" := (Js.bind c1 (fun _ => c2))
(at level 100, right associativity) : js_scope.

(** * Cart service *)

Module Cart.
Import Js PrimFloat.

(** The numbers of the cart service are JavaScript numbers, that is
    IEEE-754 binary64 values: [float], with [+], [-], [*], [/] and [<=?]
    rounding and comparing as JavaScript's do. *)

(** A row of [carts]. *)
Record Cart := mkCart {
  id : string;
  storeId : string;
  userId : option string;
  sessionId : option string;
  totalPrice : float;
  totalTax : float;
  totalShipping : float;
  couponCode : option string;
  couponDiscount : float;
  expiresAt : option Z;
  createdAt : Z;
  updatedAt : Z
}.

(** A row of [cart_items]. *)
Record CartItem := mkCartItem {
  itemId : string;
  cartId : string;
  productId : string;
  variantId : option string;
  quantity : float;
  price : float;
  itemCreatedAt : Z
}.

(** A row of [stores], as far as the cart service reads it
    ([SELECT tax_rate FROM stores WHERE id = ?]). *)
Record Store := mkStore {
  store_id : string;
  tax_rate : option float
}.

Record CreateCartInput := mkCreateCartInput {
  input_storeId : string;
  input_userId : option string;
  input_sessionId : option string
}.

Record AddCartItemInput := mkAddCartItemInput {
  input_productId : string;
  input_variantId : option string;
  input_quantity : float;
  input_price : float
}.

Record DB := mkDB {
  carts : list Cart;
  cart_items : list CartItem;
  stores : list Store
}.

Definition with_carts (f : list Cart -> list Cart) (db : DB) : DB :=
  mkDB (f (carts db)) (cart_items db) (stores db).

Definition with_cart_items (f : list CartItem -> list CartItem) (db : DB) : DB :=
  mkDB (carts db) (f (cart_items db)) (stores db).

Definition has_id (i : string) (c : Cart) : bool := String.eqb (id c) i.
Definition item_has_id (i : string) (it : CartItem) : bool := String.eqb (itemId it) i.
Definition item_in_cart (c : string) (it : CartItem) : bool := String.eqb (cartId it) c.
Definition store_has_id (i : string) (s : Store) : bool := String.eqb (store_id s) i.

(** Truthiness of a number: 0, -0 and NaN are falsy. *)
Definition truthy_number (x : float) : bool :=
  negb ((x =? 0)%float || is_nan x).

(** [x || 0] on a number read from a row: NULL and a falsy number
    give 0. *)
Definition or_zero (o : option float) : float :=
  match o with
  | Some r => if truthy_number r then r else 0%float
  | None => 0%float
  end.

(** [createCart]: zeroed totals, expiry 30 days from now. *)
Definition createCart (input : CreateCartInput) (newId : string) (now : Z)
  : M DB Cart :=
  (let expires := now + 30 * 24 * 60 * 60 in
   let cart :=
     mkCart newId (input_storeId input) (input_userId input)
       (input_sessionId input) 0%float 0%float 0%float None 0%float
       (Some expires) now now in
   let row :=
     mkCart (id cart) (storeId cart) (or_null_string (userId cart))
       (or_null_string (sessionId cart)) (totalPrice cart) (totalTax cart)
       (totalShipping cart) None (couponDiscount cart) (expiresAt cart)
       (createdAt cart) (updatedAt cart) in
   modify (with_carts (sql_insert row)) ;;
   ret cart)%js.

(** [SELECT * FROM carts WHERE id = ?] *)
Definition getCart (i : string) : M DB (option Cart) :=
  gets (fun db => sql_first (has_id i) (carts db)).

(** [SELECT * FROM cart_items WHERE cart_id = ? ORDER BY created_at ASC] *)
Definition getItems (c : string) : M DB (list CartItem) :=
  gets (fun db => sql_order_by itemCreatedAt (sql_all (item_in_cart c) (cart_items db))).

Definition set_totals (total tax : float) (now : Z) (c : Cart) : Cart :=
  mkCart (id c) (storeId c) (userId c) (sessionId c) total tax
    (totalShipping c) (couponCode c) (couponDiscount c) (expiresAt c)
    (createdAt c) now.

(** The loop [for (const item of items) subtotal += item.price * item.quantity],
    from [let subtotal = 0]: a sum of doubles taken from left to right,
    each product and each sum rounded. *)
Definition subtotal_loop (items : list CartItem) : float :=
  fold_left (fun subtotal item => (subtotal + price item * quantity item)%float)
    items 0%float.

(** [recalculateCart] *)
Definition recalculateCart (c : string) (now : Z) : M DB unit :=
  (cart <- getCart c ;;
   match cart with
   | None => throw (JsError ("Cart not found: " +:+ c))
   | Some cart =>
       items <- getItems c ;;
       let subtotal := subtotal_loop items in
       storeResult <- gets (fun db => sql_first (store_has_id (storeId cart)) (stores db)) ;;
       let taxRate :=
         or_zero (match storeResult with Some s => tax_rate s | None => None end) in
       let tax := (subtotal * (taxRate / 100))%float in
       let total :=
         (subtotal + tax + totalShipping cart - couponDiscount cart)%float in
       modify (with_carts (sql_update (has_id c) (set_totals total tax now)))
   end)%js.

(** [addItem] *)
Definition addItem (c : string) (input : AddCartItemInput) (newId : string)
    (now : Z) : M DB CartItem :=
  (let item :=
     mkCartItem newId c (input_productId input) (input_variantId input)
       (input_quantity input) (input_price input) now in
   let row :=
     mkCartItem (itemId item) (cartId item) (productId item)
       (or_null_string (variantId item)) (quantity item) (price item)
       (itemCreatedAt item) in
   modify (with_cart_items (sql_insert row)) ;;
   recalculateCart c now ;;
   ret item)%js.

Definition set_quantity (q : float) (it : CartItem) : CartItem :=
  mkCartItem (itemId it) (cartId it) (productId it) (variantId it) q (price it)
    (itemCreatedAt it).

(** [removeItem] *)
Definition removeItem (i : string) (now : Z) : M DB unit :=
  (item <- gets (fun db => sql_first (item_has_id i) (cart_items db)) ;;
   match item with
   | None => throw (JsError ("Cart item not found: " +:+ i))
   | Some item =>
       modify (with_cart_items (sql_delete (item_has_id i))) ;;
       recalculateCart (cartId item) now
   end)%js.

(** [updateItem] *)
Definition updateItem (i : string) (q : float) (now : Z) : M DB unit :=
  (item <- gets (fun db => sql_first (item_has_id i) (cart_items db)) ;;
   match item with
   | None => throw (JsError ("Cart item not found: " +:+ i))
   | Some item =>
       if (q <=? 0)%float then removeItem i now
       else
         modify (with_cart_items (sql_update (item_has_id i) (set_quantity q))) ;;
         recalculateCart (cartId item) now
   end)%js.

Definition set_coupon (code : option string) (discount : float) (now : Z)
    (c : Cart)
  : Cart :=
  mkCart (id c) (storeId c) (userId c) (sessionId c) (totalPrice c) (totalTax c)
    (totalShipping c) code discount (expiresAt c) (createdAt c) now.

Definition set_shipping (cost : float) (now : Z) (c : Cart) : Cart :=
  mkCart (id c) (storeId c) (userId c) (sessionId c) (totalPrice c) (totalTax c)
    cost (couponCode c) (couponDiscount c) (expiresAt c) (createdAt c) now.

(** [clearCart]: the items go and the totals are reset without a recompute. *)
Definition clearCart (c : string) (now : Z) : M DB unit :=
  (modify (with_cart_items (sql_delete (item_in_cart c))) ;;
   modify (with_carts (sql_update (has_id c)
     (fun r => mkCart (id r) (storeId r) (userId r) (sessionId r) 0%float
                 0%float 0%float (couponCode r) 0%float (expiresAt r)
                 (createdAt r) now))))%js.

(** [applyCoupon] *)
Definition applyCoupon (c code : string) (discount : float) (now : Z)
  : M DB unit :=
  (modify (with_carts (sql_update (has_id c) (set_coupon (Some code) discount now))) ;;
   recalculateCart c now)%js.

(** [removeCoupon] *)
Definition removeCoupon (c : string) (now : Z) : M DB unit :=
  (modify (with_carts (sql_update (has_id c) (set_coupon None 0%float now))) ;;
   recalculateCart c now)%js.

(** [setShipping] *)
Definition setShipping (c : string) (shippingCost : float) (now : Z)
  : M DB unit :=
  (modify (with_carts (sql_update (has_id c) (set_shipping shippingCost now))) ;;
   recalculateCart c now)%js.

(** [expires_at < ?]; a NULL [expires_at] compares to nothing. *)
Definition expired (now : Z) (c : Cart) : bool :=
  match expiresAt c with
  | Some t => t <? now
  | None => false
  end.

(** Modelled from the spec: the declaration of the [cart_items] table,
    which is not among the sources.  The spec has the cart own its items
    (cascade-delete on cart expiry), that is a foreign key
    [cart_id REFERENCES carts(id) ON DELETE CASCADE]. *)
Definition cart_items_on_delete_cascade : bool := true.

(** [DELETE FROM carts WHERE p], with the effect the foreign key of
    [cart_items] gives it: under [cascade] the items that reference a
    deleted cart are deleted with it. *)
Definition sql_delete_carts (cascade : bool) (p : Cart -> bool) (db : DB) : DB :=
  let deleted := map id (sql_all p (carts db)) in
  mkDB (sql_delete p (carts db))
    (if cascade
     then sql_delete (fun it => existsb (String.eqb (cartId it)) deleted)
            (cart_items db)
     else cart_items db)
    (stores db).

(** [deleteExpiredCarts] *)
Definition deleteExpiredCarts (cascade : bool) (now : Z) : M DB unit :=
  modify (sql_delete_carts cascade (expired now)).

(** A cart is past its expiry at [now]. *)
Definition Expired (now : Z) (c : Cart) : Prop :=
  exists t, expiresAt c = Some t /\ t < now.

(** The requests that change what the totals depend on. *)
Inductive Op : Type :=
| AddItem (c : string) (input : AddCartItemInput) (newId : string)
| UpdateItem (i : string) (q : float)
| RemoveItem (i : string)
| ApplyCoupon (c code : string) (discount : float)
| RemoveCoupon (c : string)
| SetShipping (c : string) (shippingCost : float).

Definition run_op (op : Op) (now : Z) : M DB unit :=
  match op with
  | AddItem c input newId => (addItem c input newId now ;; ret tt)%js
  | UpdateItem i q => updateItem i q now
  | RemoveItem i => removeItem i now
  | ApplyCoupon c code discount => applyCoupon c code discount now
  | RemoveCoupon c => removeCoupon c now
  | SetShipping c shippingCost => setShipping c shippingCost now
  end.

(** Requests served one after the other; a request that throws leaves
    the state it reached and the next one is served from there. *)
Fixpoint run_ops (ops : list (Op * Z)) (db : DB) : DB :=
  match ops with
  | [] => db
  | (op, now) :: rest => run_ops rest (snd (run_op op now db))
  end.

(** The cart a request recomputes: the one it names, or the one that
    holds the item it names. *)
Definition recomputed_cart (op : Op) (db : DB) : option string :=
  match op with
  | AddItem c _ _ | ApplyCoupon c _ _ | RemoveCoupon c | SetShipping c _ => Some c
  | UpdateItem i _ | RemoveItem i =>
      option_map cartId (sql_first (item_has_id i) (cart_items db))
  end.

(** The tax rate of the store a cart belongs to, when the store is there
    and has one. *)
Definition store_tax_rate (db : DB) (cart : Cart) : option float :=
  match sql_first (store_has_id (storeId cart)) (stores db) with
  | Some s => tax_rate s
  | None => None
  end.

(** The subtotal of a cart: the sum of price × quantity over the items
    the cart has in the table, taken in the order of their creation as
    the loop takes it. *)
Definition subtotal_from_items (c : string) (db : DB) : float :=
  subtotal_loop
    (sql_order_by itemCreatedAt (sql_all (item_in_cart c) (cart_items db))).

(** The identity between the persisted totals of a cart row and the
    state they are derived from, for a tax rate in percent: the stored
    numbers are the doubles these expressions evaluate to. *)
Definition totals_identity (rate : float) (db : DB) (cart : Cart) : Prop :=
  totalTax cart
    = (subtotal_from_items (id cart) db * (rate / 100))%float /\
  totalPrice cart
    = (subtotal_from_items (id cart) db + totalTax cart + totalShipping cart
       - couponDiscount cart)%float.

(** The tax on an empty cart is 0 at this rate. *)
Definition taxes_nothing (rate : option float) : Prop :=
  (0 * (or_zero rate / 100))%float = 0%float.

(** The rational a finite double stands for, in lowest terms. *)
Definition exact (x : float) : option Q :=
  match FloatOps.Prim2SF x with
  | SpecFloat.S754_zero _ => Some 0%Q
  | SpecFloat.S754_finite negative m e =>
      let magnitude :=
        (inject_Z (Z.pos m)
         * (if 0 <=? e then inject_Z (2 ^ e) else / inject_Z (2 ^ (- e))))%Q in
      Some (Qred (if negative then (- magnitude)%Q else magnitude))
  | _ => None
  end.

(** Every cart row carries the totals derived from the tables. *)
Definition consistent (db : DB) : Prop :=
  forall cart, In cart (carts db) ->
    totals_identity (or_zero (store_tax_rate db cart)) db cart.

(** The ids of the carts, and those of the items, are pairwise distinct. *)
Definition unique_ids (db : DB) : Prop :=
  List.NoDup (map id (carts db)) /\ List.NoDup (map itemId (cart_items db)).

(** [db1] differs from [db] at most in the row of cart [c] and in the
    items of cart [c]. *)
Definition differs_only_at (c : string) (db db1 : DB) : Prop :=
  stores db1 = stores db /\
  map id (carts db1) = map id (carts db) /\
  (forall cart, In cart (carts db1) -> id cart <> c -> In cart (carts db)) /\
  (forall c', c' <> c ->
     sql_all (item_in_cart c') (cart_items db1)
     = sql_all (item_in_cart c') (cart_items db)).

(** The id generated for the item of an [AddItem] request is new. *)
Definition fresh_item_id (op : Op) (db : DB) : Prop :=
  match op with
  | AddItem _ _ newId => forall it, In it (cart_items db) -> itemId it <> newId
  | _ => True
  end.

Fixpoint fresh_item_ids (ops : list (Op * Z)) (db : DB) : Prop :=
  match ops with
  | [] => True
  | (op, now) :: rest =>
      fresh_item_id op db /\ fresh_item_ids rest (snd (run_op op now db))
  end.

(** The cart lifecycle scenario of the specification: a store taxing at
    10%, an empty cart, then two items at 2 × 10.00 and 1 × 5.00,
    shipping at 5.00 and a coupon worth 3.00. *)
Definition scenario_db : DB :=
  snd (createCart (mkCreateCartInput "store_1" None (Some "session_1"))
         "cart_1" 100
         (mkDB [] [] [mkStore "store_1" (Some 10%float)])).

Definition scenario_ops : list (Op * Z) :=
  [ (AddItem "cart_1" (mkAddCartItemInput "P1" None 2%float 10%float) "item_1",
     101);
    (AddItem "cart_1" (mkAddCartItemInput "P2" None 1%float 5%float) "item_2",
     102);
    (SetShipping "cart_1" 5%float, 103) ].

Definition scenario_last : Op := ApplyCoupon "cart_1" "SAVE3" 3%float.

Definition scenario_final : DB :=
  snd (run_op scenario_last 104 (run_ops scenario_ops scenario_db)).

(** A store taxing at 7%, an empty cart in it, and the request that
    adds one item at 1 × 100. *)
Definition rounding_db : DB :=
  snd (createCart (mkCreateCartInput "store_7" None (Some "session_7"))
         "cart_7" 100
         (mkDB [] [] [mkStore "store_7" (Some 7%float)])).

Definition rounding_op : Op :=
  AddItem "cart_7" (mkAddCartItemInput "P1" None 1%float 100%float) "item_7".

(** Two carts, one past its expiry at time 1000 and one not, with an
    item each. *)
Definition sweep_db : DB :=
  mkDB
    [ mkCart "cart_old" "store_1" None (Some "s1") 11%float 1%float 0%float
        None 0%float (Some 500) 10 10;
      mkCart "cart_new" "store_1" None (Some "s2") 22%float 2%float 0%float
        None 0%float (Some 5000) 20 20 ]
    [ mkCartItem "item_old" "cart_old" "P1" None 1%float 10%float 11;
      mkCartItem "item_new" "cart_new" "P2" None 2%float 10%float 21 ]
    [ mkStore "store_1" (Some 10%float) ].

(** ** The carts of a user or of a session *)

(** [column = ?] on a nullable text column: NULL equals nothing. *)
Definition column_is (value : string) (column : option string) : bool :=
  match column with
  | Some v => String.eqb v value
  | None => false
  end.

(** [expires_at > ?]; a NULL [expires_at] compares to nothing. *)
Definition live_at (now : Z) (c : Cart) : bool :=
  match expiresAt c with
  | Some t => now <? t
  | None => false
  end.

(** [ORDER BY created_at DESC LIMIT 1] followed by [.first()]. *)
Definition newest (rows : list Cart) : option Cart :=
  hd_error (sql_order_by (fun c => - createdAt c) rows).

(** [getUserCart] *)
Definition getUserCart (store user : string) (now : Z) : M DB (option Cart) :=
  gets (fun db =>
    newest (sql_all (fun c => String.eqb (storeId c) store
                              && column_is user (userId c) && live_at now c)
              (carts db))).

(** [getSessionCart] *)
Definition getSessionCart (store session : string) (now : Z)
  : M DB (option Cart) :=
  gets (fun db =>
    newest (sql_all (fun c => String.eqb (storeId c) store
                              && column_is session (sessionId c)
                              && live_at now c)
              (carts db))).

(** No cart row carries the id. *)
Definition fresh_cart_id (i : string) (db : DB) : Prop :=
  forall c, In c (carts db) -> id c <> i.

End Cart.

(** * Order service *)

Module Order.
Import Js.

Inductive OrderStatus :=
| pending | paid | processing | shipped | delivered | cancelled | refunded.

Inductive PaymentStatus :=
| payment_unpaid | payment_paid | payment_refunded | payment_failed.

Inductive ShippingStatus :=
| unshipped | shipping_shipped | shipping_delivered | returned.

(** A row of [orders]. *)
Record Order := mkOrder {
  id : string;
  storeId : string;
  orderNumber : string;
  userId : option string;
  email : string;
  status : OrderStatus;
  paymentStatus : PaymentStatus;
  shippingStatus : ShippingStatus;
  subtotal : Q;
  tax : Q;
  shipping : Q;
  discount : Q;
  total : Q;
  currency : string;
  paymentMethod : option string;
  paymentId : option string;
  shippingAddress : option string;
  billingAddress : option string;
  notes : option string;
  metadata : option string;
  createdAt : Z;
  updatedAt : Z
}.

Record CreateOrderInput := mkCreateOrderInput {
  input_storeId : string;
  input_email : string;
  input_userId : option string;
  input_subtotal : Q;
  input_tax : Q;
  input_shipping : Q;
  input_discount : Q;
  input_total : Q;
  input_currency : option string;
  input_shippingAddress : option string;
  input_billingAddress : option string;
  input_notes : option string;
  input_metadata : option string
}.

(** [UpdateOrderInput]: every property is optional. *)
Record UpdateOrderInput := mkUpdateOrderInput {
  upd_status : option OrderStatus;
  upd_paymentStatus : option PaymentStatus;
  upd_shippingStatus : option ShippingStatus;
  upd_notes : option string;
  upd_metadata : option string
}.

Definition DB := list Order.

Definition has_id (i : string) (o : Order) : bool := String.eqb (id o) i.

(** [input.currency || 'USD'] *)
Definition or_USD (o : option string) : string :=
  match o with
  | Some c => if String.eqb c "" then "USD" else c
  | None => "USD"
  end.

(** [createOrder]: the order number is [ORD-${Date.now()}]. *)
Definition createOrder (input : CreateOrderInput) (newId newNumber : string)
    (now : Z) : M DB Order :=
  (let order :=
     mkOrder newId (input_storeId input) newNumber (input_userId input)
       (input_email input) pending payment_unpaid unshipped
       (input_subtotal input) (input_tax input) (input_shipping input)
       (input_discount input) (input_total input)
       (or_USD (input_currency input)) None None
       (input_shippingAddress input) (input_billingAddress input)
       (input_notes input) (input_metadata input) now now in
   let row :=
     mkOrder (id order) (storeId order) (orderNumber order)
       (or_null_string (userId order)) (email order) (status order)
       (paymentStatus order) (shippingStatus order) (subtotal order)
       (tax order) (shipping order) (discount order) (total order)
       (currency order) None None (shippingAddress order)
       (billingAddress order) (or_null_string (notes order))
       (metadata order) (createdAt order) (updatedAt order) in
   modify (sql_insert row) ;;
   ret order)%js.

(** [SELECT * FROM orders WHERE id = ?] *)
Definition getOrder (i : string) : M DB (option Order) :=
  gets (sql_first (has_id i)).

(** A property of the spread [{...order, ...input}]: the one of [input]
    when it is there. *)
Definition spread {A} (from_order : A) (from_input : option A) : A :=
  match from_input with
  | Some a => a
  | None => from_order
  end.

Definition spread_opt {A} (from_order from_input : option A) : option A :=
  match from_input with
  | Some a => Some a
  | None => from_order
  end.

(** The columns an [UPDATE orders SET ...] of this service can name. *)
Definition set_columns (st : OrderStatus) (pst : PaymentStatus)
    (sst : ShippingStatus) (nt md pid : option string) (now : Z) (o : Order)
  : Order :=
  mkOrder (id o) (storeId o) (orderNumber o) (userId o) (email o) st pst sst
    (subtotal o) (tax o) (shipping o) (discount o) (total o) (currency o)
    (paymentMethod o) pid (shippingAddress o) (billingAddress o) nt md
    (createdAt o) now.

(** [updateOrder] *)
Definition updateOrder (i : string) (input : UpdateOrderInput) (now : Z)
  : M DB Order :=
  (order <- getOrder i ;;
   match order with
   | None => throw (JsError ("Order not found: " +:+ i))
   | Some order =>
       let updated :=
         mkOrder (id order) (storeId order) (orderNumber order) (userId order)
           (email order)
           (spread (status order) (upd_status input))
           (spread (paymentStatus order) (upd_paymentStatus input))
           (spread (shippingStatus order) (upd_shippingStatus input))
           (subtotal order) (tax order) (shipping order) (discount order)
           (total order) (currency order) (paymentMethod order)
           (paymentId order) (shippingAddress order) (billingAddress order)
           (spread_opt (notes order) (upd_notes input))
           (spread_opt (metadata order) (upd_metadata input))
           (createdAt order) now in
       modify (sql_update (has_id i)
         (fun o => set_columns (status updated) (paymentStatus updated)
                     (shippingStatus updated) (or_null_string (notes updated))
                     (metadata updated) (paymentId o) (updatedAt updated) o)) ;;
       ret updated
   end)%js.

(** [updateOrderStatus] *)
Definition updateOrderStatus (i : string) (st : OrderStatus) (now : Z)
  : M DB unit :=
  modify (sql_update (has_id i)
    (fun o => set_columns st (paymentStatus o) (shippingStatus o) (notes o)
                (metadata o) (paymentId o) now o)).

(** [updatePaymentStatus] *)
Definition updatePaymentStatus (i : string) (pst : PaymentStatus) (now : Z)
  : M DB unit :=
  modify (sql_update (has_id i)
    (fun o => set_columns (status o) pst (shippingStatus o) (notes o)
                (metadata o) (paymentId o) now o)).

(** [updateShippingStatus] *)
Definition updateShippingStatus (i : string) (sst : ShippingStatus) (now : Z)
  : M DB unit :=
  modify (sql_update (has_id i)
    (fun o => set_columns (status o) (paymentStatus o) sst (notes o)
                (metadata o) (paymentId o) now o)).

(** [cancelOrder] *)
Definition cancelOrder (i : string) (now : Z) : M DB unit :=
  updateOrderStatus i cancelled now.

(** [markAsPaid]: the payment id is recorded when one is given. *)
Definition markAsPaid (i : string) (payment : option string) (now : Z)
  : M DB unit :=
  if truthy_string payment
  then modify (sql_update (has_id i)
         (fun o => set_columns processing payment_paid (shippingStatus o)
                     (notes o) (metadata o) payment now o))
  else modify (sql_update (has_id i)
         (fun o => set_columns processing payment_paid (shippingStatus o)
                     (notes o) (metadata o) (paymentId o) now o)).

(** The methods that move an order through its states. *)
Inductive Transition : Type :=
| UpdateOrder (input : UpdateOrderInput)
| UpdateOrderStatus (st : OrderStatus)
| UpdatePaymentStatus (pst : PaymentStatus)
| UpdateShippingStatus (sst : ShippingStatus)
| CancelOrder
| MarkAsPaid (payment : option string).

Definition run_transition (t : Transition) (i : string) (now : Z) : M DB unit :=
  match t with
  | UpdateOrder input => (updateOrder i input now ;; ret tt)%js
  | UpdateOrderStatus st => updateOrderStatus i st now
  | UpdatePaymentStatus pst => updatePaymentStatus i pst now
  | UpdateShippingStatus sst => updateShippingStatus i sst now
  | CancelOrder => cancelOrder i now
  | MarkAsPaid payment => markAsPaid i payment now
  end.

(** Two order rows that differ at most in the status columns, the notes,
    the metadata, the payment id and the update time. *)
Definition same_frozen_fields (o o' : Order) : Prop :=
  id o' = id o /\ storeId o' = storeId o /\ orderNumber o' = orderNumber o /\
  userId o' = userId o /\ email o' = email o /\
  subtotal o' = subtotal o /\ tax o' = tax o /\ shipping o' = shipping o /\
  discount o' = discount o /\ total o' = total o /\
  currency o' = currency o /\ paymentMethod o' = paymentMethod o /\
  shippingAddress o' = shippingAddress o /\
  billingAddress o' = billingAddress o /\ createdAt o' = createdAt o.

(** The order of the creation scenario of the specification: subtotal
    100, tax 8, shipping 10, no discount, total 118. *)
Definition order_118 : Order :=
  mkOrder "order_1" "store_1" "ORD-1700000000000" None "a@example.com"
    pending payment_unpaid unshipped 100%Q 8%Q 10%Q 0%Q 118%Q "USD" None None
    None None None None 100 100.

(** ** Lookup by order number *)

(** [SELECT * FROM orders WHERE store_id = ? AND order_number = ?] *)
Definition getOrderByNumber (store number : string) : M DB (option Order) :=
  gets (sql_first (fun o => String.eqb (storeId o) store
                            && String.eqb (orderNumber o) number)).

(** The input of the creation scenario. *)
Definition input_118 : CreateOrderInput :=
  mkCreateOrderInput "store_1" "a@example.com" None 100%Q 8%Q 10%Q 0%Q 118%Q
    None None None (Some "") None.

End Order.

(** * Payment service *)

Module Payment.
Import Js.

Inductive PaymentGateway := stripe | paypal | square | custom.

#[global] Instance PaymentGateway_eq_dec : EqDecision PaymentGateway.
Proof. solve_decision. Defined.

#[global] Instance PaymentGateway_countable : Countable PaymentGateway.
Proof.
  refine (inj_countable'
    (fun g => match g with
              | stripe => 0%nat | paypal => 1%nat | square => 2%nat
              | custom => 3%nat end)
    (fun n => match n with
              | 0%nat => stripe | 1%nat => paypal | 2%nat => square
              | _ => custom end) _).
  intros g; destruct g; reflexivity.
Defined.

(** The type as a template literal prints it. *)
Definition gateway_name (g : PaymentGateway) : string :=
  match g with
  | stripe => "stripe"
  | paypal => "paypal"
  | square => "square"
  | custom => "custom"
  end.

Inductive PaymentStatus :=
| pending | processing | completed | failed | refunded.

Inductive RefundStatus :=
| refund_pending | refund_completed | refund_failed.

(** A row of [payments]. *)
Record Payment := mkPayment {
  id : string;
  orderId : string;
  paymentMethodId : string;
  amount : Q;
  currency : string;
  status : PaymentStatus;
  transactionId : option string;
  errorMessage : option string;
  metadata : option string;
  createdAt : Z;
  updatedAt : Z
}.

(** A row of [refunds]. *)
Record Refund := mkRefund {
  refund_id : string;
  refund_orderId : string;
  refund_paymentId : option string;
  refund_amount : Q;
  refund_reason : option string;
  refund_status : RefundStatus;
  refund_transactionId : option string;
  refund_createdAt : Z;
  refund_updatedAt : Z
}.

Record CreatePaymentInput := mkCreatePaymentInput {
  create_orderId : string;
  create_paymentMethodId : string;
  create_amount : Q;
  create_currency : option string;
  create_metadata : option string
}.

Record ProcessPaymentInput := mkProcessPaymentInput {
  paymentMethodType : PaymentGateway;
  input_amount : Q;
  input_currency : string;
  input_orderId : string;
  input_metadata : option string
}.

(** What [gateway.process] and [gateway.refund] are called with. *)
Record ProcessArgs := mkProcessArgs {
  process_amount : Q;
  process_currency : string;
  process_orderId : string;
  process_metadata : option string
}.

Record RefundArgs := mkRefundArgs {
  refund_arg_transactionId : string;
  refund_arg_amount : Q;
  refund_arg_currency : string
}.

(** [PaymentGatewayHandler]: each call resolves to a transaction id or
    rejects with what the gateway throws. *)
Record PaymentGatewayHandler := mkHandler {
  process : ProcessArgs -> Thrown + string;
  refund : RefundArgs -> Thrown + string
}.

(** What the service does to the outside, in the order it does it. *)
Inductive Event : Type :=
| InsertPayment (i : string) (st : PaymentStatus)
| UpdatePayment (i : string) (st : PaymentStatus)
| InsertRefund (i : string) (st : RefundStatus)
| UpdateRefund (i : string) (st : RefundStatus)
| CallProcess (args : ProcessArgs)
| CallRefund (args : RefundArgs).

(** The service: its gateway registry, the two tables, and the record
    of its statements and gateway calls, oldest first. *)
Record Service := mkService {
  gateways : gmap PaymentGateway PaymentGatewayHandler;
  payments : list Payment;
  refunds : list Refund;
  trace : list Event
}.

Definition emit (e : Event) (s : Service) : Service :=
  mkService (gateways s) (payments s) (refunds s) (trace s ++ [e]).

Definition with_payments (f : list Payment -> list Payment) (s : Service)
  : Service :=
  mkService (gateways s) (f (payments s)) (refunds s) (trace s).

Definition with_refunds (f : list Refund -> list Refund) (s : Service)
  : Service :=
  mkService (gateways s) (payments s) (f (refunds s)) (trace s).

Definition has_id (i : string) (p : Payment) : bool := String.eqb (id p) i.
Definition refund_has_id (i : string) (r : Refund) : bool :=
  String.eqb (refund_id r) i.

(** [registerGateway] *)
Definition registerGateway (type : PaymentGateway)
    (handler : PaymentGatewayHandler) : M Service unit :=
  modify (fun s =>
    mkService (<[type := handler]> (gateways s)) (payments s) (refunds s)
      (trace s)).

(** [input.currency || 'USD'] *)
Definition or_USD (o : option string) : string :=
  match o with
  | Some c => if String.eqb c "" then "USD" else c
  | None => "USD"
  end.

(** [createPayment] *)
Definition createPayment (input : CreatePaymentInput) (newId : string)
    (now : Z) : M Service Payment :=
  (let payment :=
     mkPayment newId (create_orderId input) (create_paymentMethodId input)
       (create_amount input) (or_USD (create_currency input)) pending None
       None (create_metadata input) now now in
   modify (fun s => emit (InsertPayment (id payment) (status payment))
                      (with_payments (sql_insert payment) s)) ;;
   ret payment)%js.

(** [SELECT * FROM payments WHERE id = ?] *)
Definition getPayment (i : string) : M Service (option Payment) :=
  gets (fun s => sql_first (has_id i) (payments s)).

(** The awaited call of a gateway method. *)
Definition call_process (gateway : PaymentGatewayHandler) (args : ProcessArgs)
  : M Service string :=
  fun s => (process gateway args, emit (CallProcess args) s).

Definition call_refund (gateway : PaymentGatewayHandler) (args : RefundArgs)
  : M Service string :=
  fun s => (refund gateway args, emit (CallRefund args) s).

Definition set_completed (tx : string) (now : Z) (p : Payment) : Payment :=
  mkPayment (id p) (orderId p) (paymentMethodId p) (amount p) (currency p)
    completed (Some tx) (errorMessage p) (metadata p) (createdAt p) now.

Definition set_failed (message : string) (now : Z) (p : Payment) : Payment :=
  mkPayment (id p) (orderId p) (paymentMethodId p) (amount p) (currency p)
    failed (transactionId p) (Some message) (metadata p) (createdAt p) now.

(** [processPayment] *)
Definition processPayment (input : ProcessPaymentInput) (newId : string)
    (now : Z) : M Service Payment :=
  (payment <- createPayment
     (mkCreatePaymentInput (input_orderId input) "" (input_amount input)
        (Some (input_currency input)) (input_metadata input)) newId now ;;
   gateway <- gets (fun s => gateways s !! paymentMethodType input) ;;
   match gateway with
   | None =>
       throw (JsError ("Payment gateway not registered: "
                       +:+ gateway_name (paymentMethodType input)))
   | Some gateway =>
       try_catch
         (result <- call_process gateway
            (mkProcessArgs (input_amount input) (input_currency input)
               (input_orderId input) (input_metadata input)) ;;
          modify (fun s => emit (UpdatePayment (id payment) completed)
            (with_payments
               (sql_update (has_id (id payment)) (set_completed result now)) s)) ;;
          ret (set_completed result now payment))
         (fun error =>
            let message := message_of error in
            modify (fun s => emit (UpdatePayment (id payment) failed)
              (with_payments
                 (sql_update (has_id (id payment)) (set_failed message now)) s)) ;;
            throw error)
   end)%js.

(** [createRefund] *)
Definition createRefund (order payment : string) (amt : Q)
    (reason : option string) (newId : string) (now : Z) : M Service Refund :=
  (let r :=
     mkRefund newId order (Some payment) amt reason refund_pending None now now in
   let row :=
     mkRefund (refund_id r) (refund_orderId r) (refund_paymentId r)
       (refund_amount r) (or_null_string (refund_reason r)) (refund_status r)
       None (refund_createdAt r) (refund_updatedAt r) in
   modify (fun s => emit (InsertRefund (refund_id r) (refund_status r))
                      (with_refunds (sql_insert row) s)) ;;
   ret r)%js.

(** [SELECT * FROM refunds WHERE id = ?] *)
Definition getRefund (i : string) : M Service (option Refund) :=
  gets (fun s => sql_first (refund_has_id i) (refunds s)).

Definition set_refund_completed (tx : string) (now : Z) (r : Refund) : Refund :=
  mkRefund (refund_id r) (refund_orderId r) (refund_paymentId r)
    (refund_amount r) (refund_reason r) refund_completed (Some tx)
    (refund_createdAt r) now.

Definition set_refund_failed (now : Z) (r : Refund) : Refund :=
  mkRefund (refund_id r) (refund_orderId r) (refund_paymentId r)
    (refund_amount r) (refund_reason r) refund_failed (refund_transactionId r)
    (refund_createdAt r) now.

(** [payment.transactionId || ''] *)
Definition or_empty (o : option string) : string :=
  match o with
  | Some tx => tx
  | None => ""
  end.

(** [processRefund] *)
Definition processRefund (refundId : string) (now : Z) : M Service Refund :=
  (r <- getRefund refundId ;;
   match r with
   | None => throw (JsError ("Refund not found: " +:+ refundId))
   | Some r =>
       if negb (truthy_string (refund_paymentId r))
       then throw (JsError "Cannot refund payment without payment ID")
       else
         payment <- getPayment (or_empty (refund_paymentId r)) ;;
         match payment with
         | None =>
             throw (JsError ("Payment not found: "
                             +:+ or_empty (refund_paymentId r)))
         | Some payment =>
             gateway <- gets (fun s => gateways s !! stripe) ;;
             match gateway with
             | None => throw (JsError "Payment gateway not available for refunds")
             | Some gateway =>
                 try_catch
                   (result <- call_refund gateway
                      (mkRefundArgs (or_empty (transactionId payment))
                         (refund_amount r) (currency payment)) ;;
                    modify (fun s => emit (UpdateRefund refundId refund_completed)
                      (with_refunds
                         (sql_update (refund_has_id refundId)
                            (set_refund_completed result now)) s)) ;;
                    ret (set_refund_completed result now r))
                   (fun error =>
                      modify (fun s => emit (UpdateRefund refundId refund_failed)
                        (with_refunds
                           (sql_update (refund_has_id refundId)
                              (set_refund_failed now)) s)) ;;
                      throw error)
             end
         end
   end)%js.

(** The row [processPayment] inserts before it looks for a gateway. *)
Definition pending_payment (input : ProcessPaymentInput) (newId : string)
    (now : Z) : Payment :=
  mkPayment newId (input_orderId input) "" (input_amount input)
    (or_USD (Some (input_currency input))) pending None None
    (input_metadata input) now now.

(** What [processPayment] calls the gateway with. *)
Definition process_args (input : ProcessPaymentInput) : ProcessArgs :=
  mkProcessArgs (input_amount input) (input_currency input)
    (input_orderId input) (input_metadata input).

(** What [processRefund] calls the gateway with. *)
Definition refund_args (r : Refund) (payment : Payment) : RefundArgs :=
  mkRefundArgs (or_empty (transactionId payment)) (refund_amount r)
    (currency payment).

(** No payment row carries the id. *)
Definition fresh_payment_id (i : string) (s : Service) : Prop :=
  forall p, In p (payments s) -> id p <> i.

(** A gateway that accepts every charge and every refund. *)
Definition accepting_gateway : PaymentGatewayHandler :=
  mkHandler (fun _ => inr "txn_1") (fun _ => inr "re_1").

(** A gateway that declines every charge and every refund. *)
Definition declining_gateway : PaymentGatewayHandler :=
  mkHandler (fun _ => inl (JsError "card declined"))
    (fun _ => inl (JsError "refund declined")).

Definition charge_input (type : PaymentGateway) : ProcessPaymentInput :=
  mkProcessPaymentInput type 118%Q "USD" "order_1" None.

(** A service with one gateway, registered for stripe, and empty tables. *)
Definition charge_service (gateway : PaymentGatewayHandler) : Service :=
  mkService {[ stripe := gateway ]} [] [] [].

(** A pending refund against a payment that never got a transaction id,
    with the stripe gateway registered. *)
Definition payment_without_transaction : Payment :=
  mkPayment "pay_1" "order_1" "" 118%Q "USD" pending None None None 100 100.

Definition refund_service : Service :=
  mkService {[ stripe := accepting_gateway ]}
    [ payment_without_transaction ]
    [ mkRefund "ref_1" "order_1" (Some "pay_1") 118%Q None refund_pending None
        200 200 ]
    [].

(** A completed paypal payment and a pending refund against it, with
    paypal the only gateway registered. *)
Definition paypal_service : Service :=
  mkService {[ paypal := accepting_gateway ]}
    [ mkPayment "pay_1" "order_1" "" 118%Q "USD" completed (Some "txn_1") None
        None 100 100 ]
    [ mkRefund "ref_1" "order_1" (Some "pay_1") 118%Q None refund_pending None
        200 200 ]
    [].

(** A payment attempt that has reached its end. *)
Definition terminal (p : Payment) : Prop :=
  status p = completed \/ status p = failed.

(** ** Runs of payment requests *)

(** [processPayment] requests served one after the other; each is the
    input, the generated id and the time of the request. *)
Fixpoint processPayment_all (calls : list (ProcessPaymentInput * string * Z))
    (s : Service) : Service :=
  match calls with
  | [] => s
  | (input, newId, now) :: rest =>
      processPayment_all rest (snd (processPayment input newId now s))
  end.

(** No refund row carries the id. *)
Definition fresh_refund_id (i : string) (s : Service) : Prop :=
  forall r, In r (refunds s) -> refund_id r <> i.

End Payment.

(** * Digital download service *)

Module Download.
Import Js.

(** A row of [digital_downloads]. *)
Record DigitalDownload := mkDigitalDownload {
  id : string;
  productId : string;
  fileName : string;
  filePath : string;
  fileSize : option Z;
  mimeType : option string;
  r2Key : string;
  downloadLimit : option Z;
  expirationDays : option Z;
  createdAt : Z
}.

(** A row of [download_links]. *)
Record DownloadLink := mkDownloadLink {
  link_id : string;
  orderItemId : string;
  digitalDownloadId : string;
  token : string;
  downloadCount : Z;
  maxDownloads : option Z;
  expiresAt : option Z;
  lastAccessedAt : option Z;
  link_createdAt : Z
}.

(** What [getDownloadFile] hands back. *)
Record DownloadFile := mkDownloadFile {
  file : string;
  file_fileName : string;
  file_mimeType : string
}.

(** The two tables and the R2 bucket, a store of bodies under keys. *)
Record Service := mkService {
  digital_downloads : list DigitalDownload;
  download_links : list DownloadLink;
  r2 : gmap string string
}.

Definition with_links (f : list DownloadLink -> list DownloadLink)
    (s : Service) : Service :=
  mkService (digital_downloads s) (f (download_links s)) (r2 s).

Definition has_id (i : string) (d : DigitalDownload) : bool :=
  String.eqb (id d) i.
Definition link_has_id (i : string) (l : DownloadLink) : bool :=
  String.eqb (link_id l) i.
Definition link_has_token (t : string) (l : DownloadLink) : bool :=
  String.eqb (token l) t.

(** [SELECT * FROM digital_downloads WHERE id = ?] *)
Definition getDigitalDownload (i : string) : M Service (option DigitalDownload) :=
  gets (fun s => sql_first (has_id i) (digital_downloads s)).

(** [createDownloadLink] *)
Definition createDownloadLink (orderItem digitalDownload : string)
    (maxDl expirationDays : option Z) (newId newToken : string) (now : Z)
  : M Service DownloadLink :=
  (let expires :=
     match expirationDays with
     | Some days =>
         if truthy_Z (Some days) then Some (now + days * 24 * 60 * 60) else None
     | None => None
     end in
   let link :=
     mkDownloadLink newId orderItem digitalDownload newToken 0 maxDl expires
       None now in
   let row :=
     mkDownloadLink (link_id link) (orderItemId link) (digitalDownloadId link)
       (token link) (downloadCount link) (or_null_Z (maxDownloads link))
       (or_null_Z (expiresAt link)) None (link_createdAt link) in
   modify (with_links (sql_insert row)) ;;
   ret link)%js.

(** [link.expiresAt && link.expiresAt < now] *)
Definition link_expired (now : Z) (l : DownloadLink) : bool :=
  match expiresAt l with
  | Some t => truthy_Z (Some t) && (t <? now)
  | None => false
  end.

(** [link.maxDownloads && link.downloadCount >= link.maxDownloads] *)
Definition limit_reached (l : DownloadLink) : bool :=
  match maxDownloads l with
  | Some m => truthy_Z (Some m) && (m <=? downloadCount l)
  | None => false
  end.

(** [getDownloadLinkByToken] *)
Definition getDownloadLinkByToken (t : string) (now : Z)
  : M Service (option DownloadLink) :=
  (result <- gets (fun s => sql_first (link_has_token t) (download_links s)) ;;
   match result with
   | None => ret None
   | Some link =>
       if link_expired now link
       then throw (JsError "Download link has expired")
       else if limit_reached link
       then throw (JsError "Download limit reached")
       else ret (Some link)
   end)%js.

Definition count_download (now : Z) (l : DownloadLink) : DownloadLink :=
  mkDownloadLink (link_id l) (orderItemId l) (digitalDownloadId l) (token l)
    (downloadCount l + 1) (maxDownloads l) (expiresAt l) (Some now)
    (link_createdAt l).

(** [recordDownload] *)
Definition recordDownload (linkId : string) (now : Z) : M Service unit :=
  modify (with_links (sql_update (link_has_id linkId) (count_download now))).

(** [download.mimeType || 'application/octet-stream'] *)
Definition or_octet_stream (o : option string) : string :=
  match o with
  | Some m => if String.eqb m "" then "application/octet-stream" else m
  | None => "application/octet-stream"
  end.

(** [getDownloadFile] *)
Definition getDownloadFile (t : string) (now : Z) : M Service DownloadFile :=
  (link <- getDownloadLinkByToken t now ;;
   match link with
   | None => throw (JsError "Invalid download link")
   | Some link =>
       download <- getDigitalDownload (digitalDownloadId link) ;;
       match download with
       | None => throw (JsError "Digital download not found")
       | Some download =>
           recordDownload (link_id link) now ;;
           object <- gets (fun s => r2 s !! r2Key download) ;;
           match object with
           | None => throw (JsError "File not found in storage")
           | Some body =>
               ret (mkDownloadFile body (fileName download)
                      (or_octet_stream (mimeType download)))
           end
       end
   end)%js.

(** [cleanupExpiredLinks] *)
Definition cleanupExpiredLinks (now : Z) : M Service unit :=
  modify (with_links
    (sql_delete (fun l => match expiresAt l with
                          | Some t => t <? now
                          | None => false
                          end))).

(** Download attempts served one after the other; each is a token and
    the time of the request. *)
Fixpoint download_all (attempts : list (string * Z)) (s : Service) : Service :=
  match attempts with
  | [] => s
  | (t, now) :: rest => download_all rest (snd (getDownloadFile t now s))
  end.

(** A link whose limit is set has not been downloaded more often than
    the limit allows.  A stored limit of 0 reads as no limit, and
    [createDownloadLink] stores NULL for it. *)
Definition within_limit (l : DownloadLink) : Prop :=
  forall m, maxDownloads l = Some m -> m <> 0 -> downloadCount l <= m.

(** The expiry of a link is set and [now] is past it.  A stored expiry
    of 0 reads as none, and [createDownloadLink] stores NULL for it. *)
Definition past_expiry (now : Z) (l : DownloadLink) : Prop :=
  exists t, expiresAt l = Some t /\ t <> 0 /\ t < now.

(** The limit of a link is set and its count has reached it. *)
Definition at_limit (l : DownloadLink) : Prop :=
  exists m, maxDownloads l = Some m /\ m <> 0 /\ m <= downloadCount l.

(** The ids of the links are pairwise distinct. *)
Definition unique_link_ids (s : Service) : Prop :=
  List.NoDup (map link_id (download_links s)).

(** No link row carries the token. *)
Definition fresh_token (t : string) (s : Service) : Prop :=
  forall l, In l (download_links s) -> token l <> t.

(** A file in the bucket, and a service that knows it. *)
Definition ebook : DigitalDownload :=
  mkDigitalDownload "dl_1" "prod_1" "book.pdf" "/files/book.pdf" None
    (Some "application/pdf") "digital-downloads/dl_1/book.pdf" None None 100.

Definition ebook_service : Service :=
  mkService [ebook] [] {[ "digital-downloads/dl_1/book.pdf" := "%PDF" ]}.

(** The service after a link for one download, valid two days, has been
    made at time 1000. *)
Definition one_download_service : Service :=
  snd (createDownloadLink "item_1" "dl_1" (Some 1) (Some 2) "link_1" "tok_1"
         1000 ebook_service).

(** The service after a link has been made at time 1000 with
    [expirationDays = 0]. *)
Definition zero_days_service : Service :=
  snd (createDownloadLink "item_1" "dl_1" None (Some 0) "link_1" "tok_1" 1000
         ebook_service).

(** ** Files: registration, upload, deletion *)

Record CreateDigitalDownloadInput := mkCreateDigitalDownloadInput {
  input_productId : string;
  input_fileName : string;
  input_filePath : string;
  input_fileSize : option Z;
  input_mimeType : option string;
  input_downloadLimit : option Z;
  input_expirationDays : option Z
}.

Definition with_downloads (f : list DigitalDownload -> list DigitalDownload)
    (s : Service) : Service :=
  mkService (f (digital_downloads s)) (download_links s) (r2 s).

Definition with_r2 (f : gmap string string -> gmap string string)
    (s : Service) : Service :=
  mkService (digital_downloads s) (download_links s) (f (r2 s)).

(** [createDigitalDownload]: the key is
    [digital-downloads/${id}/${fileName}]. *)
Definition createDigitalDownload (input : CreateDigitalDownloadInput)
    (newId : string) (now : Z) : M Service DigitalDownload :=
  (let key := "digital-downloads/" +:+ newId +:+ "/" +:+ input_fileName input in
   let download :=
     mkDigitalDownload newId (input_productId input) (input_fileName input)
       (input_filePath input) (input_fileSize input) (input_mimeType input)
       key (input_downloadLimit input) (input_expirationDays input) now in
   let row :=
     mkDigitalDownload (id download) (productId download) (fileName download)
       (filePath download) (or_null_Z (fileSize download))
       (or_null_string (mimeType download)) (r2Key download)
       (or_null_Z (downloadLimit download))
       (or_null_Z (expirationDays download)) (createdAt download) in
   modify (with_downloads (sql_insert row)) ;;
   ret download)%js.

(** [uploadFile]: the bytes of the file go to the bucket under the key
    of the download.  The bucket of this model keeps the body of an
    object; the content type and disposition sent with it are not read
    back by the service. *)
Definition uploadFile (body : string) (downloadId : string) : M Service unit :=
  (download <- getDigitalDownload downloadId ;;
   match download with
   | None => throw (JsError ("Digital download not found: " +:+ downloadId))
   | Some download => modify (with_r2 (fun bucket => <[r2Key download := body]> bucket))
   end)%js.

(** [deleteDigitalDownload] *)
Definition deleteDigitalDownload (i : string) : M Service unit :=
  (download <- getDigitalDownload i ;;
   match download with
   | None => throw (JsError ("Digital download not found: " +:+ i))
   | Some download =>
       modify (with_r2 (fun bucket => delete (r2Key download) bucket)) ;;
       modify (with_downloads (sql_delete (has_id i)))
   end)%js.

(** [deleteDownloadLink] *)
Definition deleteDownloadLink (i : string) : M Service unit :=
  modify (with_links (sql_delete (link_has_id i))).

(** ** The download route *)

(** What a handler answers: the status and the [error] or [message] of
    the JSON body. *)
Inductive Response : Type :=
| JsonError (status : Z) (error : string)
| JsonSuccess (status : Z) (message : string).

(** [WHERE token = ? AND (expires_at IS NULL OR expires_at > ?)] *)
Definition route_finds (t : string) (now : Z) (l : DownloadLink) : bool :=
  link_has_token t l &&
  match expiresAt l with
  | Some e => now <? e
  | None => true
  end.

(** [GET /:token] of the download routes. *)
Definition download_route (t : string) (now : Z) : M Service Response :=
  (result <- gets (fun s => sql_first (route_finds t now) (download_links s)) ;;
   match result with
   | None => ret (JsonError 404 "Download link not found or expired")
   | Some result =>
       if limit_reached result
       then ret (JsonError 403 "Download limit exceeded")
       else
         modify (with_links
                   (sql_update (link_has_id (link_id result)) (count_download now))) ;;
         ret (JsonSuccess 200 "Download initiated")
   end)%js.

(** No download row carries the id. *)
Definition fresh_download_id (i : string) (s : Service) : Prop :=
  forall d, In d (digital_downloads s) -> id d <> i.

(** No link row carries the id. *)
Definition fresh_link_id (i : string) (s : Service) : Prop :=
  forall l, In l (download_links s) -> link_id l <> i.

End Download.

(** * Product service: stock *)

Module Product.
Import Js.

Inductive ProductType := physical | digital.

(** A row of [products]. *)
Record Product := mkProduct {
  id : string;
  storeId : string;
  name : string;
  slug : string;
  description : option string;
  type : ProductType;
  sku : option string;
  price : Q;
  cost : option Q;
  stockQuantity : Z;
  weight : option Q;
  dimensions : option string;
  imageUrl : option string;
  galleryUrls : option string;
  isActive : bool;
  isFeatured : bool;
  metadata : option string;
  createdAt : Z;
  updatedAt : Z
}.

Definition DB := list Product.

Definition set_stock (quantity now : Z) (p : Product) : Product :=
  mkProduct (id p) (storeId p) (name p) (slug p) (description p) (type p)
    (sku p) (price p) (cost p) quantity (weight p) (dimensions p)
    (imageUrl p) (galleryUrls p) (isActive p) (isFeatured p) (metadata p)
    (createdAt p) now.

Definition has_id (i : string) (p : Product) : bool := String.eqb (id p) i.

(** [SELECT * FROM products WHERE id = ?] *)
Definition getProduct (i : string) : M DB (option Product) :=
  gets (sql_first (has_id i)).

(** [UPDATE products SET stock_quantity = ?, updated_at = ? WHERE id = ?] *)
Definition updateStock (i : string) (quantity now : Z) : M DB unit :=
  modify (sql_update (has_id i) (set_stock quantity now)).

(** [UPDATE products SET stock_quantity = MAX(0, stock_quantity - ?),
    updated_at = ? WHERE id = ?] *)
Definition decreaseStock (i : string) (quantity now : Z) : M DB unit :=
  modify (sql_update (has_id i)
            (fun p => set_stock (Z.max 0 (stockQuantity p - quantity)) now p)).

(** A run of [decreaseStock] requests, one after the other; each is
    [(id, quantity, now)]. *)
Fixpoint decreaseStock_all (calls : list (string * Z * Z)) (db : DB) : DB :=
  match calls with
  | [] => db
  | (i, quantity, now) :: rest =>
      decreaseStock_all rest (snd (decreaseStock i quantity now db))
  end.

Definition in_stock (p : Product) : Prop := 0 <= stockQuantity p.

(** A product with five pieces in stock. *)
Definition widget : Product :=
  mkProduct "prod_1" "store_1" "Widget" "widget" None physical None 10%Q None
    5 None None None None true false None 100 100.

(** ** Listing and activation *)

Definition set_active (active : bool) (now : Z) (p : Product) : Product :=
  mkProduct (id p) (storeId p) (name p) (slug p) (description p) (type p)
    (sku p) (price p) (cost p) (stockQuantity p) (weight p) (dimensions p)
    (imageUrl p) (galleryUrls p) active (isFeatured p) (metadata p)
    (createdAt p) now.

(** [activateProduct] *)
Definition activateProduct (i : string) (now : Z) : M DB unit :=
  modify (sql_update (has_id i) (set_active true now)).

(** [deactivateProduct] *)
Definition deactivateProduct (i : string) (now : Z) : M DB unit :=
  modify (sql_update (has_id i) (set_active false now)).

(** [getStoreProducts]: the products of a store, the active ones only
    unless told otherwise, newest first. *)
Definition getStoreProducts (store : string) (activeOnly : bool)
  : M DB (list Product) :=
  gets (fun db =>
    sql_order_by (fun p => - createdAt p)
      (sql_all (fun p => String.eqb (storeId p) store
                         && (if activeOnly then isActive p else true)) db)).

End Product.

(** * Store service *)

Module Stores.
Import Js.

(** A row of [stores].  The [settings] column holds the JSON text of an
    object; it is kept as the object, a finite map from property names
    to JSON values. *)
Record Store := mkStore {
  id : string;
  name : string;
  slug : string;
  description : option string;
  logoUrl : option string;
  currency : string;
  taxRate : Q;
  shippingEnabled : bool;
  isActive : bool;
  settings : gmap string string;
  createdAt : Z;
  updatedAt : Z
}.

Record CreateStoreInput := mkCreateStoreInput {
  input_name : string;
  input_slug : string;
  input_description : option string;
  input_logoUrl : option string;
  input_currency : option string;
  input_taxRate : option Q;
  input_shippingEnabled : option bool;
  input_settings : option (gmap string string)
}.

(** [UpdateStoreInput]: every property is optional. *)
Record UpdateStoreInput := mkUpdateStoreInput {
  upd_name : option string;
  upd_description : option string;
  upd_logoUrl : option string;
  upd_currency : option string;
  upd_taxRate : option Q;
  upd_shippingEnabled : option bool;
  upd_settings : option (gmap string string)
}.

Definition DB := list Store.

Definition has_id (i : string) (st : Store) : bool := String.eqb (id st) i.
Definition has_slug (sl : string) (st : Store) : bool := String.eqb (slug st) sl.

(** [input.currency || 'USD'] *)
Definition or_USD (o : option string) : string :=
  match o with
  | Some c => if String.eqb c "" then "USD" else c
  | None => "USD"
  end.

(** [input.taxRate || 0] *)
Definition or_zero (o : option Q) : Q :=
  match o with
  | Some r => if Qeq_bool r 0 then 0%Q else r
  | None => 0%Q
  end.

(** [input.shippingEnabled !== false] *)
Definition not_false (o : option bool) : bool :=
  match o with
  | Some b => b
  | None => true
  end.

(** [input.settings || {}] *)
Definition or_empty_object (o : option (gmap string string))
  : gmap string string :=
  match o with
  | Some m => m
  | None => ∅
  end.

(** [createStore] *)
Definition createStore (input : CreateStoreInput) (newId : string) (now : Z)
  : M DB Store :=
  (let store :=
     mkStore newId (input_name input) (input_slug input)
       (input_description input) (input_logoUrl input)
       (or_USD (input_currency input)) (or_zero (input_taxRate input))
       (not_false (input_shippingEnabled input)) true
       (or_empty_object (input_settings input)) now now in
   let row :=
     mkStore (id store) (name store) (slug store)
       (or_null_string (description store)) (or_null_string (logoUrl store))
       (currency store) (taxRate store) (shippingEnabled store) true
       (settings store) (createdAt store) (updatedAt store) in
   modify (sql_insert row) ;;
   ret store)%js.

(** [SELECT * FROM stores WHERE id = ?] *)
Definition getStore (i : string) : M DB (option Store) :=
  gets (sql_first (has_id i)).

(** [SELECT * FROM stores WHERE slug = ?] *)
Definition getStoreBySlug (sl : string) : M DB (option Store) :=
  gets (sql_first (has_slug sl)).

(** [getAllStores]: newest first, the active ones only when asked. *)
Definition getAllStores (activeOnly : bool) : M DB (list Store) :=
  gets (fun db =>
    sql_order_by (fun st => - createdAt st)
      (sql_all (fun st => if activeOnly then isActive st else true) db)).

(** A property of the spread [{...store, ...input}]. *)
Definition spread {A} (from_store : A) (from_input : option A) : A :=
  match from_input with
  | Some a => a
  | None => from_store
  end.

Definition spread_opt {A} (from_store from_input : option A) : option A :=
  match from_input with
  | Some a => Some a
  | None => from_store
  end.

(** The columns [updateStore] writes. *)
Definition set_columns (nm : string) (descr logo : option string)
    (cur : string) (rate : Q) (shipping : bool) (sett : gmap string string)
    (now : Z) (st : Store) : Store :=
  mkStore (id st) nm (slug st) descr logo cur rate shipping (isActive st) sett
    (createdAt st) now.

(** [updateStore] *)
Definition updateStore (i : string) (input : UpdateStoreInput) (now : Z)
  : M DB Store :=
  (store <- getStore i ;;
   match store with
   | None => throw (JsError ("Store not found: " +:+ i))
   | Some store =>
       let updated :=
         mkStore (id store)
           (spread (name store) (upd_name input)) (slug store)
           (spread_opt (description store) (upd_description input))
           (spread_opt (logoUrl store) (upd_logoUrl input))
           (spread (currency store) (upd_currency input))
           (spread (taxRate store) (upd_taxRate input))
           (spread (shippingEnabled store) (upd_shippingEnabled input))
           (isActive store)
           (spread (settings store) (upd_settings input))
           (createdAt store) now in
       modify (sql_update (has_id i)
         (set_columns (name updated) (or_null_string (description updated))
            (or_null_string (logoUrl updated)) (currency updated)
            (taxRate updated) (shippingEnabled updated) (settings updated)
            (updatedAt updated))) ;;
       ret updated
   end)%js.

Definition set_active (active : bool) (now : Z) (st : Store) : Store :=
  mkStore (id st) (name st) (slug st) (description st) (logoUrl st)
    (currency st) (taxRate st) (shippingEnabled st) active (settings st)
    (createdAt st) now.

(** [activateStore] *)
Definition activateStore (i : string) (now : Z) : M DB unit :=
  modify (sql_update (has_id i) (set_active true now)).

(** [deactivateStore] *)
Definition deactivateStore (i : string) (now : Z) : M DB unit :=
  modify (sql_update (has_id i) (set_active false now)).

(** [deleteStore] *)
Definition deleteStore (i : string) : M DB unit :=
  modify (sql_delete (has_id i)).

(** [getStoreSettings] *)
Definition getStoreSettings (i : string) : M DB (gmap string string) :=
  (store <- getStore i ;;
   match store with
   | None => throw (JsError ("Store not found: " +:+ i))
   | Some store => ret (settings store)
   end)%js.

Definition set_settings (sett : gmap string string) (now : Z) (st : Store)
  : Store :=
  mkStore (id st) (name st) (slug st) (description st) (logoUrl st)
    (currency st) (taxRate st) (shippingEnabled st) (isActive st) sett
    (createdAt st) now.

(** [updateStoreSettings]: the object [{...store.settings, ...settings}]
    has the properties of both, those of [settings] winning. *)
Definition updateStoreSettings (i : string) (sett : gmap string string)
    (now : Z) : M DB unit :=
  (store <- getStore i ;;
   match store with
   | None => throw (JsError ("Store not found: " +:+ i))
   | Some store =>
       let updated := sett ∪ settings store in
       modify (sql_update (has_id i) (set_settings updated now))
   end)%js.

(** No store row carries the id. *)
Definition fresh_store_id (i : string) (db : DB) : Prop :=
  forall st, In st db -> id st <> i.

(** No store row carries the slug. *)
Definition fresh_slug (sl : string) (db : DB) : Prop :=
  forall st, In st db -> slug st <> sl.

(** A store created at time 100 with nothing but a name and a slug, and
    the table that holds it. *)
Definition books_input : CreateStoreInput :=
  mkCreateStoreInput "Books" "books" None None None None None None.

Definition books_db : DB := snd (createStore books_input "store_1" 100 []).

End Stores.

(** * Facts about the SQL helpers *)

Section SqlFacts.
Context {Row : Type}.
Implicit Types (table : list Row) (p q : Row -> bool) (f : Row -> Row).

Lemma sql_first_update_same p f table :
  (forall r, p (f r) = p r) ->
  Js.sql_first p (Js.sql_update p f table) = option_map f (Js.sql_first p table).
Proof.
  intros Hp. unfold Js.sql_first, Js.sql_update.
  induction table as [|r table IH]; simpl; [reflexivity|].
  destruct (p r) eqn:Hr.
  - rewrite Hp, Hr. reflexivity.
  - rewrite Hr. exact IH.
Qed.

Lemma sql_first_update_keep p q f table :
  (forall r, q (f r) = q r) ->
  Js.sql_first q (Js.sql_update p f table) =
  option_map (fun r => if p r then f r else r) (Js.sql_first q table).
Proof.
  intros Hq. unfold Js.sql_first, Js.sql_update.
  induction table as [|r table IH]; simpl; [reflexivity|].
  destruct (p r) eqn:Hr.
  - rewrite Hq. destruct (q r); simpl; [rewrite Hr; reflexivity | exact IH].
  - destruct (q r); simpl; [rewrite Hr; reflexivity | exact IH].
Qed.

Lemma sql_first_Some p table r :
  Js.sql_first p table = Some r -> In r table /\ p r = true.
Proof. unfold Js.sql_first. apply find_some. Qed.

Lemma sql_first_app p table r' :
  Js.sql_first p (Js.sql_insert r' table) =
  match Js.sql_first p table with
  | Some r => Some r
  | None => if p r' then Some r' else None
  end.
Proof.
  unfold Js.sql_first, Js.sql_insert.
  induction table as [|r table IH]; simpl; [reflexivity|].
  destruct (p r); [reflexivity | exact IH].
Qed.

Lemma In_sql_update p f table r' :
  In r' (Js.sql_update p f table) <->
  exists r, In r table /\ r' = (if p r then f r else r).
Proof.
  unfold Js.sql_update. rewrite in_map_iff. split.
  - intros (r & Heq & Hin). exists r. split; [exact Hin | symmetry; exact Heq].
  - intros (r & Hin & Heq). exists r. split; [symmetry; exact Heq | exact Hin].
Qed.

Lemma In_sql_delete p table r :
  In r (Js.sql_delete p table) <-> In r table /\ p r = false.
Proof.
  unfold Js.sql_delete. rewrite filter_In, negb_true_iff. reflexivity.
Qed.

Lemma In_sql_all p table r :
  In r (Js.sql_all p table) <-> In r table /\ p r = true.
Proof. unfold Js.sql_all. apply filter_In. Qed.

Lemma Forall_sql_update (P : Row -> Prop) p f table :
  (forall r, p r = true -> P (f r)) ->
  Forall P table -> Forall P (Js.sql_update p f table).
Proof.
  intros Hf Hall. unfold Js.sql_update.
  induction Hall as [|r table Hr Hall IH]; simpl; constructor; [|exact IH].
  destruct (p r) eqn:Hp; [apply Hf; exact Hp | exact Hr].
Qed.

Lemma NoDup_map_injective {A B} (f : A -> B) (l : list A) a b :
  List.NoDup (map f l) -> In a l -> In b l -> f a = f b -> a = b.
Proof.
  induction l as [|x l IH]; simpl; intros Hnd Ha Hb Hf; [destruct Ha|].
  inversion Hnd as [|? ? Hnotin Hnd']; subst.
  destruct Ha as [<-|Ha], Hb as [<-|Hb].
  - reflexivity.
  - destruct Hnotin. rewrite Hf. apply in_map. exact Hb.
  - destruct Hnotin. rewrite <- Hf. apply in_map. exact Ha.
  - apply IH; assumption.
Qed.

Lemma sql_all_update_other p q f table :
  (forall r, In r table -> q r = true -> p r = false /\ p (f r) = false) ->
  Js.sql_all p (Js.sql_update q f table) = Js.sql_all p table.
Proof.
  unfold Js.sql_all, Js.sql_update.
  induction table as [|r table IH]; intros Hq; simpl; [reflexivity|].
  rewrite IH by (intros r' Hin; apply Hq; right; exact Hin).
  destruct (q r) eqn:Hr; [|reflexivity].
  destruct (Hq r (or_introl eq_refl) Hr) as [-> ->]. reflexivity.
Qed.

Lemma sql_all_delete_other p q table :
  (forall r, In r table -> q r = true -> p r = false) ->
  Js.sql_all p (Js.sql_delete q table) = Js.sql_all p table.
Proof.
  unfold Js.sql_all, Js.sql_delete.
  induction table as [|r table IH]; intros Hq; simpl; [reflexivity|].
  rewrite <- IH by (intros r' Hin; apply Hq; right; exact Hin).
  destruct (q r) eqn:Hr; simpl; [|reflexivity].
  rewrite (Hq r (or_introl eq_refl) Hr). reflexivity.
Qed.

Lemma sql_all_insert_other p table r :
  p r = false -> Js.sql_all p (Js.sql_insert r table) = Js.sql_all p table.
Proof.
  intros Hr. unfold Js.sql_all, Js.sql_insert. rewrite List.filter_app. simpl.
  rewrite Hr. apply app_nil_r.
Qed.

Lemma sql_first_None p table :
  Js.sql_first p table = None -> forall r, In r table -> p r = false.
Proof. unfold Js.sql_first. apply find_none. Qed.

Lemma map_sql_update_keep {K} (key : Row -> K) p f table :
  (forall r, key (f r) = key r) ->
  map key (Js.sql_update p f table) = map key table.
Proof.
  intros Hkey. unfold Js.sql_update. rewrite map_map. apply map_ext.
  intros r. destruct (p r); [apply Hkey | reflexivity].
Qed.

Lemma NoDup_map_sql_delete {K} (key : Row -> K) p table :
  List.NoDup (map key table) -> List.NoDup (map key (Js.sql_delete p table)).
Proof.
  unfold Js.sql_delete. induction table as [|r table IH]; simpl; intros Hnd.
  - constructor.
  - inversion Hnd as [|? ? Hnotin Hnd']; subst.
    destruct (negb (p r)); simpl; [|apply IH; exact Hnd'].
    constructor; [|apply IH; exact Hnd'].
    intros Hin. apply Hnotin. apply in_map_iff in Hin as (r' & Heq & Hin).
    apply filter_In in Hin as [Hin _]. rewrite <- Heq. apply in_map. exact Hin.
Qed.

Lemma NoDup_map_sql_insert {K} (key : Row -> K) table r :
  (forall r', In r' table -> key r' <> key r) ->
  List.NoDup (map key table) -> List.NoDup (map key (Js.sql_insert r table)).
Proof.
  intros Hfresh. unfold Js.sql_insert. rewrite map_app. simpl.
  induction table as [|r' table IH]; simpl; intros Hnd.
  - constructor; [intros []|constructor].
  - inversion Hnd as [|? ? Hnotin Hnd']; subst. constructor.
    + intros Hin. apply in_app_or in Hin as [Hin|[Heq|[]]].
      * apply Hnotin. exact Hin.
      * apply (Hfresh r'); [left; reflexivity | symmetry; exact Heq].
    + apply IH; [|exact Hnd']. intros r'' Hin. apply Hfresh. right. exact Hin.
Qed.

End SqlFacts.

(** * Stock *)

Section StockFacts.
Import Js Product.

Lemma decreaseStock_in_stock i quantity now db :
  Forall in_stock db -> Forall in_stock (snd (decreaseStock i quantity now db)).
Proof.
  intros Hall. unfold decreaseStock, modify; simpl.
  apply Forall_sql_update; [|exact Hall].
  intros p _. unfold in_stock; simpl. apply Z.le_max_l.
Qed.

Lemma decreaseStock_all_in_stock calls :
  forall db, Forall in_stock db -> Forall in_stock (decreaseStock_all calls db).
Proof.
  induction calls as [|[[i quantity] now] calls IH]; intros db Hall; simpl.
  - exact Hall.
  - apply IH. apply decreaseStock_in_stock. exact Hall.
Qed.

(** C10.  [decreaseStock id quantity] never fails and leaves the product
    with stock max(0, stock − quantity): a decrease beyond the stock at
    hand clamps to zero, and no run of [decreaseStock] calls makes a
    stock negative. *)
Theorem decreaseStock_clamps_at_zero :
  forall (db : Product.DB) (i : string) (quantity now : Z),
    fst (decreaseStock i quantity now db) = inr tt /\
    (forall p, fst (getProduct i db) = inr (Some p) ->
       exists p',
         fst (getProduct i (snd (decreaseStock i quantity now db)))
           = inr (Some p') /\
         stockQuantity p' = Z.max 0 (stockQuantity p - quantity) /\
         0 <= stockQuantity p' /\
         (stockQuantity p <= quantity -> stockQuantity p' = 0)) /\
    (forall calls, Forall in_stock db -> Forall in_stock (decreaseStock_all calls db)).
Proof.
  intros db i quantity now. split; [reflexivity|]. split.
  - intros p Hp. unfold getProduct, gets in Hp |- *. simpl in Hp.
    injection Hp as Hp.
    unfold decreaseStock, modify; simpl.
    rewrite sql_first_update_same by (intros; reflexivity).
    rewrite Hp; simpl. eexists. split; [reflexivity|]. simpl.
    repeat split; lia.
  - intros calls. apply decreaseStock_all_in_stock.
Qed.

Lemma decreaseStock_clamps_at_zero_witness :
  exists p',
    fst (getProduct "prod_1" (snd (decreaseStock "prod_1" 8 200 [widget])))
      = inr (Some p') /\
    stockQuantity p' = 0.
Proof.
  destruct (decreaseStock_clamps_at_zero [widget] "prod_1" 8 200) as (_ & H & _).
  destruct (H widget eq_refl) as (p' & Hfirst & _ & _ & Hzero).
  exists p'. split; [exact Hfirst|]. apply Hzero. simpl. lia.
Defined.

End StockFacts.

(** * Orders: the amounts are frozen *)

Section OrderFacts.
Import Js Order.

Lemma same_frozen_fields_refl o : same_frozen_fields o o.
Proof. unfold same_frozen_fields. repeat split. Qed.

Lemma set_columns_frozen st pst sst nt md pid now o :
  same_frozen_fields o (set_columns st pst sst nt md pid now o).
Proof. unfold same_frozen_fields. repeat split. Qed.

(** An [UPDATE orders] built from [set_columns] keeps the frozen fields
    of whatever order is read afterwards. *)
Lemma update_columns_frozen (g : Order -> Order) i j db o :
  (forall r, id (g r) = id r) ->
  (forall r, same_frozen_fields r (g r)) ->
  sql_first (has_id j) db = Some o ->
  exists o',
    sql_first (has_id j) (sql_update (has_id i) g db) = Some o' /\
    same_frozen_fields o o'.
Proof.
  intros Hid Hfrozen Hfirst.
  rewrite sql_first_update_keep
    by (intros r; unfold has_id; rewrite Hid; reflexivity).
  rewrite Hfirst; simpl. eexists; split; [reflexivity|].
  destruct (has_id i o); [apply Hfrozen | apply same_frozen_fields_refl].
Qed.

Lemma update_rows_frozen (g : Order -> Order) i db :
  (forall r, same_frozen_fields r (g r)) ->
  Forall2 same_frozen_fields db (sql_update (has_id i) g db).
Proof.
  intros Hfrozen. unfold sql_update.
  induction db as [|o db IH]; simpl; constructor; [|exact IH].
  destruct (has_id i o); [apply Hfrozen | apply same_frozen_fields_refl].
Qed.

Lemma Forall2_frozen_refl db : Forall2 same_frozen_fields db db.
Proof.
  induction db as [|o db IH]; constructor;
    [apply same_frozen_fields_refl | exact IH].
Qed.

(** The rows of [orders] after a transition, one for one the rows
    before, with the frozen fields kept. *)
Lemma run_transition_rows_frozen t i now db :
  Forall2 same_frozen_fields db (snd (run_transition t i now db)).
Proof.
  destruct t as [input|st|pst|sst| |payment]; simpl.
  - unfold updateOrder, getOrder, bind, gets, modify, ret, throw; simpl.
    destruct (sql_first (has_id i) db) as [order|]; simpl.
    + apply update_rows_frozen. intros r. apply set_columns_frozen.
    + apply Forall2_frozen_refl.
  - apply update_rows_frozen. intros r. apply set_columns_frozen.
  - apply update_rows_frozen. intros r. apply set_columns_frozen.
  - apply update_rows_frozen. intros r. apply set_columns_frozen.
  - apply update_rows_frozen. intros r. apply set_columns_frozen.
  - unfold markAsPaid. destruct (truthy_string payment); simpl;
      apply update_rows_frozen; intros r; apply set_columns_frozen.
Qed.

(** The order [updateOrder] returns has the frozen fields of the order
    it read. *)
Lemma updateOrder_returns_frozen i input now db updated :
  fst (updateOrder i input now db) = inr updated ->
  exists o, sql_first (has_id i) db = Some o /\ same_frozen_fields o updated.
Proof.
  unfold updateOrder, getOrder, bind, gets, modify, ret, throw; simpl.
  destruct (sql_first (has_id i) db) as [order|]; simpl; [|discriminate].
  intros H. injection H as <-. exists order. split; [reflexivity|].
  unfold same_frozen_fields; simpl. repeat split.
Qed.

(** C2.  Whatever transition (updateOrder, updateOrderStatus,
    updatePaymentStatus, updateShippingStatus, cancelOrder, markAsPaid)
    is run on whatever order id, an order that exists is still there
    afterwards with the same subtotal, tax, shipping, discount and total
    (and the same identity, owner, currency and addresses): only the
    status columns, the notes, the metadata, the payment id and the
    update time can differ.  The same holds row by row for the whole
    table. *)
Theorem order_amounts_unchanged_by_transitions :
  forall (db : Order.DB) (t : Transition) (i : string) (now : Z)
         (j : string) (o : Order),
    sql_first (has_id j) db = Some o ->
    (exists o',
        sql_first (has_id j) (snd (run_transition t i now db)) = Some o' /\
        same_frozen_fields o o' /\
        subtotal o' = subtotal o /\ tax o' = tax o /\ shipping o' = shipping o /\
        discount o' = discount o /\ total o' = total o) /\
    Forall2 same_frozen_fields db (snd (run_transition t i now db)).
Proof.
  intros db t i now j o Hfirst. split; [|apply run_transition_rows_frozen].
  assert (Hgoal : exists o',
            sql_first (has_id j) (snd (run_transition t i now db)) = Some o' /\
            same_frozen_fields o o').
  { destruct t as [input|st|pst|sst| |payment]; simpl.
    - unfold updateOrder, getOrder, bind, gets, modify, ret, throw; simpl.
      destruct (sql_first (has_id i) db) as [order|] eqn:Horder; simpl.
      + apply update_columns_frozen; try assumption; intros r;
          [reflexivity | apply set_columns_frozen].
      + exists o. split; [exact Hfirst | apply same_frozen_fields_refl].
    - apply update_columns_frozen; try assumption; intros r;
        [reflexivity | apply set_columns_frozen].
    - apply update_columns_frozen; try assumption; intros r;
        [reflexivity | apply set_columns_frozen].
    - apply update_columns_frozen; try assumption; intros r;
        [reflexivity | apply set_columns_frozen].
    - apply update_columns_frozen; try assumption; intros r;
        [reflexivity | apply set_columns_frozen].
    - unfold markAsPaid. destruct (truthy_string payment); simpl;
        (apply update_columns_frozen; try assumption; intros r;
         [reflexivity | apply set_columns_frozen]). }
  destruct Hgoal as (o' & Hfirst' & Hfrozen).
  exists o'. split; [exact Hfirst'|]. split; [exact Hfrozen|].
  unfold same_frozen_fields in Hfrozen. tauto.
Qed.

Lemma order_amounts_unchanged_by_transitions_witness :
  exists o',
    sql_first (has_id "order_1")
      (snd (run_transition (UpdateOrderStatus paid) "order_1" 200 [order_118]))
      = Some o' /\
    total o' = total order_118.
Proof.
  destruct (order_amounts_unchanged_by_transitions [order_118]
              (UpdateOrderStatus paid) "order_1" 200 "order_1" order_118
              eq_refl)
    as [(o' & Hfirst & _ & _ & _ & _ & _ & Htotal) _].
  exists o'. split; [exact Hfirst | exact Htotal].
Defined.

End OrderFacts.

(** * Carts: the sweep of expired carts *)

Section CartSweepFacts.
Import Js Cart.

Lemma expired_spec now c : expired now c = true <-> Expired now c.
Proof.
  unfold expired, Expired. destruct (expiresAt c) as [t|].
  - rewrite Z.ltb_lt. split.
    + intros Hlt. exists t. split; [reflexivity | exact Hlt].
    + intros (t' & Heq & Hlt). injection Heq as <-. exact Hlt.
  - split; [discriminate | intros (t & Heq & _); discriminate].
Qed.

Lemma not_expired_spec now c : expired now c = false <-> ~ Expired now c.
Proof.
  rewrite <- expired_spec. destruct (expired now c); split; intros H;
    try reflexivity; try discriminate; try (intros H'; discriminate).
  destruct H. reflexivity.
Qed.

Lemma references_deleted now db it :
  existsb (String.eqb (cartId it)) (map id (sql_all (expired now) (carts db))) = true
  <-> exists c, In c (carts db) /\ Expired now c /\ id c = cartId it.
Proof.
  rewrite existsb_exists. split.
  - intros (x & Hin & Heq). apply in_map_iff in Hin as (c & <- & Hc).
    apply In_sql_all in Hc as (Hc & Hexp).
    exists c. split; [exact Hc|]. split; [apply expired_spec; exact Hexp|].
    apply String.eqb_eq in Heq. symmetry; exact Heq.
  - intros (c & Hc & Hexp & Heq). exists (id c). split.
    + apply in_map. apply In_sql_all. split; [exact Hc|].
      apply expired_spec; exact Hexp.
    + apply String.eqb_eq. symmetry; exact Heq.
Qed.

(** C8.  [deleteExpiredCarts] succeeds; it deletes exactly the carts
    whose [expiresAt] is earlier than now, and with them (by the cascade
    of the [cart_items] foreign key) exactly the items that belong to
    such a cart.  The other carts stay as they are, and so do the items
    of every cart id that no expired cart carries. *)
Theorem deleteExpiredCarts_purges_expired_carts_and_items :
  forall (db : Cart.DB) (now : Z),
    let run := deleteExpiredCarts cart_items_on_delete_cascade now db in
    fst run = inr tt /\
    (forall c, In c (carts (snd run)) <-> In c (carts db) /\ ~ Expired now c) /\
    (forall it,
        In it (cart_items (snd run)) <->
        In it (cart_items db) /\
        ~ exists c, In c (carts db) /\ Expired now c /\ id c = cartId it) /\
    (forall i,
        (forall c, In c (carts db) -> Expired now c -> id c <> i) ->
        sql_all (item_in_cart i) (cart_items (snd run)) =
        sql_all (item_in_cart i) (cart_items db)) /\
    stores (snd run) = stores db.
Proof.
  intros db now run. subst run.
  unfold deleteExpiredCarts, modify, sql_delete_carts,
    cart_items_on_delete_cascade; simpl.
  split; [reflexivity|]. split; [|split; [|split; [|reflexivity]]].
  - intros c. rewrite In_sql_delete, not_expired_spec. reflexivity.
  - intros it. rewrite In_sql_delete.
    rewrite <- references_deleted.
    destruct (existsb _ _); split; intros [Hin H]; split; auto; try discriminate.
    destruct H. reflexivity.
  - intros i Hfree. unfold sql_all, sql_delete.
    induction (cart_items db) as [|it items IH]; simpl; [reflexivity|].
    destruct (item_in_cart i it) eqn:Hit.
    + assert (Hkeep : existsb (String.eqb (cartId it))
                        (map id (List.filter (expired now) (carts db))) = false).
      { destruct (existsb _ _) eqn:Hex; [|reflexivity].
        apply references_deleted in Hex as (c & Hc & Hexp & Heq).
        apply String.eqb_eq in Hit. destruct (Hfree c Hc Hexp).
        rewrite Heq. exact Hit. }
      unfold sql_all in Hkeep. rewrite Hkeep; simpl. rewrite Hit, IH. reflexivity.
    + destruct (negb _); simpl; [rewrite Hit|]; exact IH.
Qed.

Lemma deleteExpiredCarts_purges_expired_carts_and_items_witness :
  let run := deleteExpiredCarts cart_items_on_delete_cascade 1000 sweep_db in
  sql_all (item_in_cart "cart_new") (cart_items (snd run)) =
  sql_all (item_in_cart "cart_new") (cart_items sweep_db).
Proof.
  intros run.
  destruct (deleteExpiredCarts_purges_expired_carts_and_items sweep_db 1000)
    as (_ & _ & _ & Hitems & _).
  apply Hitems. intros c Hin (t & Ht & Hlt) Hid.
  simpl in Hin. destruct Hin as [<-|[<-|[]]].
  - discriminate Hid.
  - simpl in Ht. injection Ht as <-. lia.
Defined.

(** Without the cascade of the foreign key the sweep would leave every
    item in place: the statement of [deleteExpiredCarts] names the
    [carts] table only. *)
Lemma deleteExpiredCarts_without_cascade now db :
  cart_items (snd (deleteExpiredCarts false now db)) = cart_items db.
Proof. reflexivity. Qed.

End CartSweepFacts.

(** * Carts: the totals follow the items *)

Section CartTotalFacts.
Import Js Cart PrimFloat.

Lemma insert_by_perm {Row} (key : Row -> Z) r sorted :
  Permutation (insert_by key r sorted) (r :: sorted).
Proof.
  induction sorted as [|r' rest IH]; simpl.
  - apply Permutation_refl.
  - destruct (key r <=? key r').
    + apply Permutation_refl.
    + apply perm_trans with (r' :: r :: rest).
      * apply perm_skip. exact IH.
      * apply perm_swap.
Qed.

Lemma sql_order_by_perm {Row} (key : Row -> Z) rows :
  Permutation (sql_order_by key rows) rows.
Proof.
  unfold sql_order_by. induction rows as [|r rows IH]; simpl.
  - apply perm_nil.
  - apply perm_trans with (r :: fold_right (insert_by key) [] rows).
    + apply insert_by_perm.
    + apply perm_skip. exact IH.
Qed.

Lemma has_id_eq c cart : has_id c cart = true -> id cart = c.
Proof. unfold has_id. apply String.eqb_eq. Qed.

(** What a recompute that returns leaves behind: the cart is there, its
    row carries the totals derived from the state, and nothing but the
    rows of that cart has been written. *)
Lemma recalculateCart_totals c now db db' :
  recalculateCart c now db = (inr tt, db') ->
  exists cart,
    sql_first (has_id c) (carts db') = Some cart /\
    id cart = c /\
    cart_items db' = cart_items db /\ stores db' = stores db /\
    totals_identity (or_zero (store_tax_rate db' cart)) db' cart.
Proof.
  unfold recalculateCart, getCart, getItems, bind, gets, modify, throw; simpl.
  destruct (sql_first (has_id c) (carts db)) as [cart|] eqn:Hcart; simpl;
    [|discriminate].
  intros Hrun. injection Hrun as <-. simpl.
  rewrite sql_first_update_same by reflexivity.
  rewrite Hcart; simpl.
  destruct (sql_first_Some _ _ _ Hcart) as [_ Hid]. apply has_id_eq in Hid.
  eexists. split; [reflexivity|]. simpl.
  split; [exact Hid|]. split; [reflexivity|]. split; [reflexivity|].
  unfold totals_identity, subtotal_from_items, store_tax_rate; simpl.
  rewrite Hid. split; reflexivity.
Qed.

(** ** Carts that a request does not recompute *)

Lemma totals_identity_frame db db1 cart :
  stores db1 = stores db ->
  sql_all (item_in_cart (id cart)) (cart_items db1)
  = sql_all (item_in_cart (id cart)) (cart_items db) ->
  totals_identity (or_zero (store_tax_rate db cart)) db cart ->
  totals_identity (or_zero (store_tax_rate db1 cart)) db1 cart.
Proof.
  unfold totals_identity, store_tax_rate, subtotal_from_items.
  intros -> ->. exact (fun H => H).
Qed.

Lemma others_stay_consistent c db db1 :
  differs_only_at c db db1 ->
  consistent db ->
  forall cart, In cart (carts db1) -> id cart <> c ->
    totals_identity (or_zero (store_tax_rate db1 cart)) db1 cart.
Proof.
  intros (Hstores & _ & Hcarts & Hitems) Hcons cart Hin Hid.
  apply (totals_identity_frame db); [exact Hstores | |].
  - apply Hitems. exact Hid.
  - apply Hcons. apply Hcarts; assumption.
Qed.

Lemma recalculateCart_throws c now db e db' :
  recalculateCart c now db = (inl e, db') ->
  db' = db /\ sql_first (has_id c) (carts db) = None.
Proof.
  unfold recalculateCart, getCart, getItems, bind, gets, modify, throw.
  destruct (sql_first (has_id c) (carts db)) as [cart|]; [discriminate|].
  intros H. injection H as _ <-. split; reflexivity.
Qed.

Lemma recalculateCart_writes c now db db' :
  recalculateCart c now db = (inr tt, db') ->
  exists total tax,
    db' = with_carts (sql_update (has_id c) (set_totals total tax now)) db.
Proof.
  unfold recalculateCart, getCart, getItems, bind, gets, modify, throw.
  destruct (sql_first (has_id c) (carts db)) as [cart|]; [|discriminate].
  intros H. injection H as <-. eexists. eexists. reflexivity.
Qed.

(** A recompute of cart [c], in a state where the carts are distinct
    and every other cart is consistent, leaves every cart consistent. *)
Lemma recalculateCart_consistent c now db :
  unique_ids db ->
  (forall cart, In cart (carts db) -> id cart <> c ->
     totals_identity (or_zero (store_tax_rate db cart)) db cart) ->
  unique_ids (snd (recalculateCart c now db)) /\
  consistent (snd (recalculateCart c now db)).
Proof.
  intros [Hcarts Hitems] Hothers.
  destruct (recalculateCart c now db) as [[e|[]] db'] eqn:Hrun; simpl.
  - apply recalculateCart_throws in Hrun as [-> Hnone].
    split; [split; assumption|].
    intros cart Hin. apply Hothers; [exact Hin|].
    intros Hid. pose proof (sql_first_None _ _ Hnone cart Hin) as Hfalse.
    unfold has_id in Hfalse. rewrite Hid, String.eqb_refl in Hfalse.
    discriminate.
  - destruct (recalculateCart_totals _ _ _ _ Hrun)
      as (cart' & Hfirst & Hid' & Hsame_items & Hsame_stores & Htotals).
    destruct (recalculateCart_writes _ _ _ _ Hrun) as (total & tax & Hdb').
    assert (Hids : map id (carts db') = map id (carts db)).
    { rewrite Hdb'. simpl. apply map_sql_update_keep. reflexivity. }
    split.
    + split; [rewrite Hids; exact Hcarts | rewrite Hsame_items; exact Hitems].
    + intros cart Hin.
      destruct (String.eqb (id cart) c) eqn:Hc.
      * apply String.eqb_eq in Hc.
        apply sql_first_Some in Hfirst as [Hin' _].
        assert (cart = cart') as ->.
        { apply (NoDup_map_injective id (carts db')); try assumption.
          - rewrite Hids. exact Hcarts.
          - rewrite Hc, Hid'. reflexivity. }
        exact Htotals.
      * apply String.eqb_neq in Hc.
        assert (Hin0 : In cart (carts db)).
        { rewrite Hdb' in Hin. simpl in Hin.
          apply In_sql_update in Hin as (r & Hr & ->).
          destruct (has_id c r) eqn:Hrc; [|exact Hr].
          apply has_id_eq in Hrc. destruct Hc. simpl. exact Hrc. }
        apply (totals_identity_frame db);
          [exact Hsame_stores | rewrite Hsame_items; reflexivity |].
        apply Hothers; assumption.
Qed.

(** The step every request has in common: a change confined to cart
    [c], then the recompute of [c]. *)
Lemma change_then_recompute c now db db1 :
  unique_ids db -> consistent db ->
  differs_only_at c db db1 ->
  List.NoDup (map itemId (cart_items db1)) ->
  unique_ids (snd (recalculateCart c now db1)) /\
  consistent (snd (recalculateCart c now db1)).
Proof.
  intros [Hcarts _] Hcons Hdiff Hitems1.
  apply recalculateCart_consistent.
  - split; [|exact Hitems1].
    destruct Hdiff as (_ & Hids & _). rewrite Hids. exact Hcarts.
  - apply (others_stay_consistent c db); assumption.
Qed.

(** The requests, step by step. *)
Lemma removeItem_eq i now db :
  removeItem i now db =
  match sql_first (item_has_id i) (cart_items db) with
  | None => (inl (JsError ("Cart item not found: " +:+ i)), db)
  | Some item =>
      recalculateCart (cartId item) now
        (with_cart_items (sql_delete (item_has_id i)) db)
  end.
Proof.
  unfold removeItem, bind at 1, gets.
  destruct (sql_first (item_has_id i) (cart_items db)); reflexivity.
Qed.

Lemma updateItem_eq i q now db :
  updateItem i q now db =
  match sql_first (item_has_id i) (cart_items db) with
  | None => (inl (JsError ("Cart item not found: " +:+ i)), db)
  | Some item =>
      if (q <=? 0)%float then removeItem i now db
      else recalculateCart (cartId item) now
             (with_cart_items (sql_update (item_has_id i) (set_quantity q)) db)
  end.
Proof.
  unfold updateItem, bind at 1, gets.
  destruct (sql_first (item_has_id i) (cart_items db)); [|reflexivity].
  destruct (q <=? 0)%float; reflexivity.
Qed.

Lemma addItem_eq c input newId now db :
  addItem c input newId now db =
  let item :=
    mkCartItem newId c (input_productId input) (input_variantId input)
      (input_quantity input) (input_price input) now in
  let row :=
    mkCartItem newId c (input_productId input)
      (or_null_string (input_variantId input)) (input_quantity input)
      (input_price input) now in
  match recalculateCart c now (with_cart_items (sql_insert row) db) with
  | (inl e, db') => (inl e, db')
  | (inr _, db') => (inr item, db')
  end.
Proof. reflexivity. Qed.

Lemma run_op_eq op now db :
  run_op op now db =
  match op with
  | AddItem c input newId =>
      match addItem c input newId now db with
      | (inl e, db') => (inl e, db')
      | (inr _, db') => (inr tt, db')
      end
  | UpdateItem i q => updateItem i q now db
  | RemoveItem i => removeItem i now db
  | ApplyCoupon c code discount =>
      recalculateCart c now
        (with_carts (sql_update (has_id c) (set_coupon (Some code) discount now)) db)
  | RemoveCoupon c =>
      recalculateCart c now
        (with_carts (sql_update (has_id c) (set_coupon None 0%float now)) db)
  | SetShipping c cost =>
      recalculateCart c now
        (with_carts (sql_update (has_id c) (set_shipping cost now)) db)
  end.
Proof. destruct op; reflexivity. Qed.

(** Every request ends with the recompute of the cart it names. *)
Lemma run_op_ends_with_recompute op now db db' :
  run_op op now db = (inr tt, db') ->
  exists c db1,
    recomputed_cart op db = Some c /\
    recalculateCart c now db1 = (inr tt, db').
Proof.
  assert (Hremove : forall i,
             removeItem i now db = (inr tt, db') ->
             exists c db1,
               option_map cartId (sql_first (item_has_id i) (cart_items db)) = Some c /\
               recalculateCart c now db1 = (inr tt, db')).
  { intros i. rewrite removeItem_eq.
    destruct (sql_first (item_has_id i) (cart_items db)) as [item|];
      [|discriminate].
    intros Hrun. exists (cartId item). eexists.
    split; [reflexivity | exact Hrun]. }
  rewrite run_op_eq.
  destruct op as [c input newId|i q|i|c code discount|c|c cost];
    unfold recomputed_cart.
  - rewrite addItem_eq. cbv zeta.
    destruct (recalculateCart c now _) as [[e|[]] db1] eqn:Hrun; [discriminate|].
    intros H. injection H as <-. exists c. eexists.
    split; [reflexivity | exact Hrun].
  - rewrite updateItem_eq.
    destruct (sql_first (item_has_id i) (cart_items db)) as [item|] eqn:Hitem;
      [|discriminate].
    destruct (q <=? 0)%float.
    + intros Hrun. destruct (Hremove i Hrun) as (c & db1 & Hc & Hrec).
      rewrite Hitem in Hc. exists c, db1. split; assumption.
    + intros Hrun. exists (cartId item). eexists.
      split; [reflexivity | exact Hrun].
  - apply Hremove.
  - intros Hrun. exists c. eexists. split; [reflexivity | exact Hrun].
  - intros Hrun. exists c. eexists. split; [reflexivity | exact Hrun].
  - intros Hrun. exists c. eexists. split; [reflexivity | exact Hrun].
Qed.

(** ** Every request keeps every cart consistent *)

Lemma item_of_id db i item it :
  List.NoDup (map itemId (cart_items db)) ->
  sql_first (item_has_id i) (cart_items db) = Some item ->
  In it (cart_items db) -> item_has_id i it = true -> it = item.
Proof.
  intros Hnd Hfirst Hin Hit.
  apply sql_first_Some in Hfirst as [Hin' Hitem].
  apply (NoDup_map_injective itemId (cart_items db)); try assumption.
  unfold item_has_id in *. apply String.eqb_eq in Hit, Hitem.
  rewrite Hit, Hitem. reflexivity.
Qed.

Lemma other_cart c c' it :
  c' <> c -> cartId it = c -> item_in_cart c' it = false.
Proof.
  intros Hne <-. unfold item_in_cart. apply String.eqb_neq.
  intros Heq. apply Hne. symmetry. exact Heq.
Qed.

Lemma differs_by_insert db it :
  differs_only_at (cartId it) db (with_cart_items (sql_insert it) db).
Proof.
  split; [reflexivity|]. split; [reflexivity|]. split; [auto|].
  intros c' Hne. simpl. apply sql_all_insert_other.
  apply (other_cart (cartId it)); [exact Hne | reflexivity].
Qed.

Lemma differs_by_delete db i item :
  List.NoDup (map itemId (cart_items db)) ->
  sql_first (item_has_id i) (cart_items db) = Some item ->
  differs_only_at (cartId item) db
    (with_cart_items (sql_delete (item_has_id i)) db).
Proof.
  intros Hnd Hfirst.
  split; [reflexivity|]. split; [reflexivity|]. split; [auto|].
  intros c' Hne. simpl. apply sql_all_delete_other.
  intros it Hin Hit. apply (other_cart (cartId item)); [exact Hne|].
  rewrite (item_of_id db i item it); auto.
Qed.

Lemma differs_by_quantity db i q item :
  List.NoDup (map itemId (cart_items db)) ->
  sql_first (item_has_id i) (cart_items db) = Some item ->
  differs_only_at (cartId item) db
    (with_cart_items (sql_update (item_has_id i) (set_quantity q)) db).
Proof.
  intros Hnd Hfirst.
  split; [reflexivity|]. split; [reflexivity|]. split; [auto|].
  intros c' Hne. simpl. apply sql_all_update_other.
  intros it Hin Hit.
  assert (Hcart : cartId it = cartId item)
    by (rewrite (item_of_id db i item it); auto).
  split; apply (other_cart (cartId item)); auto.
Qed.

Lemma differs_by_cart_update db c (h : Cart -> Cart) :
  (forall r, id (h r) = id r) ->
  differs_only_at c db (with_carts (sql_update (has_id c) h) db).
Proof.
  intros Hid.
  split; [reflexivity|].
  split; [simpl; apply map_sql_update_keep; exact Hid|].
  split; [|reflexivity].
  intros cart Hin Hne. simpl in Hin.
  apply In_sql_update in Hin as (r & Hr & ->).
  destruct (has_id c r) eqn:Hrc; [|exact Hr].
  apply has_id_eq in Hrc. destruct Hne. rewrite Hid. exact Hrc.
Qed.

Lemma removeItem_preserves i now db :
  unique_ids db -> consistent db ->
  unique_ids (snd (removeItem i now db)) /\ consistent (snd (removeItem i now db)).
Proof.
  intros Hunique Hcons. rewrite removeItem_eq.
  destruct (sql_first (item_has_id i) (cart_items db)) as [item|] eqn:Hitem;
    [|split; assumption].
  apply (change_then_recompute _ _ db); try assumption.
  - apply differs_by_delete; [apply Hunique | exact Hitem].
  - simpl. apply NoDup_map_sql_delete. apply Hunique.
Qed.

Lemma run_op_preserves op now db :
  unique_ids db -> consistent db -> fresh_item_id op db ->
  unique_ids (snd (run_op op now db)) /\ consistent (snd (run_op op now db)).
Proof.
  intros Hunique Hcons Hfresh. rewrite run_op_eq.
  destruct op as [c input newId|i q|i|c code discount|c|c cost].
  - rewrite addItem_eq. cbv zeta.
    set (it := mkCartItem newId c (input_productId input)
                 (or_null_string (input_variantId input))
                 (input_quantity input) (input_price input) now).
    assert (Hgoal :
      unique_ids (snd (recalculateCart c now (with_cart_items (sql_insert it) db)))
      /\ consistent
           (snd (recalculateCart c now (with_cart_items (sql_insert it) db)))).
    { apply (change_then_recompute _ _ db); try assumption.
      - apply (differs_by_insert db it).
      - simpl. apply NoDup_map_sql_insert; [|apply Hunique].
        intros it' Hin. simpl. apply Hfresh. exact Hin. }
    destruct (recalculateCart c now (with_cart_items (sql_insert it) db))
      as [[e|[]] db2]; exact Hgoal.
  - rewrite updateItem_eq.
    destruct (sql_first (item_has_id i) (cart_items db)) as [item|] eqn:Hitem;
      [|split; assumption].
    destruct (q <=? 0)%float; [apply removeItem_preserves; assumption|].
    apply (change_then_recompute _ _ db); try assumption.
    + apply differs_by_quantity; [apply Hunique | exact Hitem].
    + simpl. rewrite map_sql_update_keep by reflexivity. apply Hunique.
  - apply removeItem_preserves; assumption.
  - apply (change_then_recompute _ _ db); try assumption.
    + apply differs_by_cart_update. reflexivity.
    + apply Hunique.
  - apply (change_then_recompute _ _ db); try assumption.
    + apply differs_by_cart_update. reflexivity.
    + apply Hunique.
  - apply (change_then_recompute _ _ db); try assumption.
    + apply differs_by_cart_update. reflexivity.
    + apply Hunique.
Qed.

Lemma run_ops_preserve ops :
  forall db,
    unique_ids db -> consistent db -> fresh_item_ids ops db ->
    unique_ids (run_ops ops db) /\ consistent (run_ops ops db).
Proof.
  induction ops as [|[op now] ops IH]; intros db Hunique Hcons Hfresh; simpl.
  - split; assumption.
  - destruct Hfresh as [Hfresh Hrest].
    destruct (run_op_preserves op now db Hunique Hcons Hfresh) as [Hu Hc].
    apply IH; assumption.
Qed.

(** C1, as the specification words it, fails: the totals are doubles,
    and the stored tax is the rounded result of the two operations the
    code performs, not the product.  In a store taxing at 7%, a cart
    with one item at 1 × 100 gets the tax 7.000000000000000888…
    (7881299347898369 / 2^50), not 7, and the total 107, which is not
    the sum of the subtotal and that tax. *)
Lemma cart_tax_is_not_the_exact_product :
  let run := run_op rounding_op 101 rounding_db in
  fst run = inr tt /\
  exists cart,
    sql_first (has_id "cart_7") (carts (snd run)) = Some cart /\
    map (fun it => (exact (price it), exact (quantity it)))
      (sql_all (item_in_cart "cart_7") (cart_items (snd run)))
      = [(Some 100%Q, Some 1%Q)] /\
    option_map exact (store_tax_rate (snd run) cart) = Some (Some 7%Q) /\
    exact (totalShipping cart) = Some 0%Q /\
    exact (couponDiscount cart) = Some 0%Q /\
    exact (totalTax cart) = Some (7881299347898369 # 1125899906842624)%Q /\
    ~ (7881299347898369 # 1125899906842624 == (100 * 1) * (7 / 100))%Q /\
    exact (totalPrice cart) = Some 107%Q /\
    ~ (107 == (100 * 1) + (7881299347898369 # 1125899906842624) + 0 - 0)%Q.
Proof.
  split; [vm_compute; reflexivity|].
  eexists. split; [vm_compute; reflexivity|].
  repeat split; try (vm_compute; reflexivity);
    intros H; vm_compute in H; discriminate.
Qed.

(** C1, amended.  After any sequence of cart requests (addItem,
    updateItem, removeItem, applyCoupon, removeCoupon, setShipping), when
    the last one has run its recompute the row of the cart it recomputed
    carries the totals the code's double arithmetic gives for the state
    then reached: totalTax = subtotal ⊗ (taxRate ⊘ 100) and
    totalPrice = ((subtotal ⊕ totalTax) ⊕ totalShipping) ⊖ couponDiscount,
    every operation rounded to binary64, with subtotal the sum of
    price ⊗ quantity accumulated from 0 over the items of the cart in the
    order of their creation, and taxRate the rate of the cart's store
    (0 when the store or its rate is missing, or the rate is 0).
    Moreover, when the ids are distinct and the carts were consistent to
    begin with, every cart, recomputed last or not, satisfies the two
    equations at the end. *)
Theorem cart_totals_identity_after_final_recompute :
  forall (db : Cart.DB) (ops : list (Op * Z)) (op : Op) (now : Z)
         (db' : Cart.DB),
    run_op op now (run_ops ops db) = (inr tt, db') ->
    (exists c cart,
        recomputed_cart op (run_ops ops db) = Some c /\
        sql_first (has_id c) (carts db') = Some cart /\
        id cart = c /\
        totals_identity (or_zero (store_tax_rate db' cart)) db' cart /\
        (store_tax_rate db' cart = None -> totals_identity 0%float db' cart)) /\
    (unique_ids db -> consistent db ->
     fresh_item_ids ops db -> fresh_item_id op (run_ops ops db) ->
     forall cart, In cart (carts db') ->
       totals_identity (or_zero (store_tax_rate db' cart)) db' cart).
Proof.
  intros db ops op now db' Hrun. split.
  - destruct (run_op_ends_with_recompute _ _ _ _ Hrun) as (c & db1 & Hc & Hrec).
    destruct (recalculateCart_totals _ _ _ _ Hrec)
      as (cart & Hcart & Hid & _ & _ & Htotals).
    exists c, cart.
    split; [exact Hc|]. split; [exact Hcart|]. split; [exact Hid|].
    split; [exact Htotals|].
    intros Hnone. rewrite Hnone in Htotals. exact Htotals.
  - intros Hunique Hcons Hfresh Hlast.
    destruct (run_ops_preserve ops db Hunique Hcons Hfresh) as [Hu Hc].
    destruct (run_op_preserves op now _ Hu Hc Hlast) as [_ Hcons'].
    rewrite Hrun in Hcons'. exact Hcons'.
Qed.

Lemma cart_totals_identity_after_final_recompute_witness :
  (exists cart,
      sql_first (has_id "cart_1") (carts scenario_final) = Some cart /\
      totals_identity 10%float scenario_final cart /\
      totalPrice cart = 29.5%float) /\
  consistent scenario_final /\
  (exists cart,
      sql_first (has_id "cart_7")
        (carts (snd (run_op rounding_op 101 rounding_db))) = Some cart /\
      totals_identity 7%float (snd (run_op rounding_op 101 rounding_db)) cart /\
      totalTax cart = (100 * (7 / 100))%float).
Proof.
  assert (Hrun : run_op scenario_last 104 (run_ops scenario_ops scenario_db)
                 = (inr tt, scenario_final)) by (vm_compute; reflexivity).
  destruct (cart_totals_identity_after_final_recompute _ _ _ _ _ Hrun)
    as [(c & cart & Hc & Hcart & _ & Hrate & _) Hall].
  assert (Hrun7 : run_op rounding_op 101 (run_ops [] rounding_db)
                  = (inr tt, snd (run_op rounding_op 101 rounding_db)))
    by (vm_compute; reflexivity).
  destruct (cart_totals_identity_after_final_recompute _ _ _ _ _ Hrun7)
    as [(c7 & cart7 & Hc7 & Hcart7 & _ & Hrate7 & _) _].
  split; [|split].
  - injection Hc as <-.
    exists cart. split; [exact Hcart|].
    vm_compute in Hcart. injection Hcart as <-.
    split; [exact Hrate | vm_compute; reflexivity].
  - intros cart0 Hin0. apply Hall; [| | | |exact Hin0].
    + split; simpl.
      * constructor; [intros []|constructor].
      * constructor.
    + intros cart1 [<-|[]]. split; vm_compute; reflexivity.
    + simpl. split; [intros it []|].
      split; [intros it [<-|[]]; discriminate|]. split; exact I.
    + exact I.
  - injection Hc7 as <-.
    exists cart7. split; [exact Hcart7|].
    vm_compute in Hcart7. injection Hcart7 as <-.
    split; [exact Hrate7 | vm_compute; reflexivity].
Defined.

End CartTotalFacts.

(** * Payments *)

Section PaymentFacts.
Import Js Payment.

Lemma sql_update_fresh {Row} (p : Row -> bool) (f : Row -> Row) table r :
  (forall r', In r' table -> p r' = false) ->
  sql_update p f (sql_insert r table) = table ++ [if p r then f r else r].
Proof.
  intros Hfresh. unfold sql_update, sql_insert. rewrite map_app. simpl.
  f_equal. induction table as [|r' table IH]; simpl; [reflexivity|].
  rewrite (Hfresh r') by (left; reflexivity).
  rewrite IH; [reflexivity|]. intros r'' Hin. apply Hfresh. right. exact Hin.
Qed.

Lemma fresh_payment_id_spec i s :
  fresh_payment_id i s -> forall p, In p (payments s) -> has_id i p = false.
Proof.
  intros Hfresh p Hin. unfold has_id. apply String.eqb_neq.
  apply Hfresh. exact Hin.
Qed.

(** C3.  With a gateway registered for the type and a fresh payment id,
    [processPayment] inserts the pending row, then calls the gateway,
    then updates that row.  When the gateway resolves, the row ends
    completed with the gateway's transaction id and the payment is
    returned; when it rejects, the row ends failed with the message of
    the error and the same error is thrown to the caller. *)
Theorem processPayment_records_and_surfaces_outcome :
  forall (s : Service) (input : ProcessPaymentInput) (newId : string)
         (now : Z) (gateway : PaymentGatewayHandler),
    gateways s !! paymentMethodType input = Some gateway ->
    fresh_payment_id newId s ->
    let run := processPayment input newId now s in
    let row := pending_payment input newId now in
    status row = pending /\
    match process gateway (process_args input) with
    | inr tx =>
        fst run = inr (set_completed tx now row) /\
        payments (snd run) = payments s ++ [set_completed tx now row] /\
        status (set_completed tx now row) = completed /\
        transactionId (set_completed tx now row) = Some tx /\
        trace (snd run) =
          trace s ++ [InsertPayment newId pending;
                      CallProcess (process_args input);
                      UpdatePayment newId completed]
    | inl error =>
        fst run = inl error /\
        payments (snd run) = payments s ++ [set_failed (message_of error) now row] /\
        status (set_failed (message_of error) now row) = failed /\
        errorMessage (set_failed (message_of error) now row)
          = Some (message_of error) /\
        trace (snd run) =
          trace s ++ [InsertPayment newId pending;
                      CallProcess (process_args input);
                      UpdatePayment newId failed]
    end.
Proof.
  intros s input newId now gateway Hgateway Hfresh run row.
  split; [reflexivity|]. subst run row.
  unfold processPayment, createPayment, bind, gets, modify, ret, throw,
    try_catch, call_process; simpl.
  rewrite Hgateway. fold (process_args input).
  destruct (process gateway (process_args input)) as [error|tx]; simpl.
  - rewrite sql_update_fresh by (apply fresh_payment_id_spec; exact Hfresh).
    rewrite <- !app_assoc. unfold has_id; simpl. rewrite String.eqb_refl.
    repeat split.
  - rewrite sql_update_fresh by (apply fresh_payment_id_spec; exact Hfresh).
    rewrite <- !app_assoc. unfold has_id; simpl. rewrite String.eqb_refl.
    repeat split.
Qed.

(** C5.  With no gateway registered for the type, [processPayment]
    throws the gateway-not-registered error after it has inserted one
    payment row; that row is left pending, for no update statement and
    no gateway call follows the insert. *)
Theorem processPayment_unregistered_gateway_leaves_pending_row :
  forall (s : Service) (input : ProcessPaymentInput) (newId : string)
         (now : Z),
    gateways s !! paymentMethodType input = None ->
    let run := processPayment input newId now s in
    fst run = inl (JsError ("Payment gateway not registered: "
                            +:+ gateway_name (paymentMethodType input))) /\
    payments (snd run) = payments s ++ [pending_payment input newId now] /\
    status (pending_payment input newId now) = pending /\
    trace (snd run) = trace s ++ [InsertPayment newId pending] /\
    refunds (snd run) = refunds s /\
    gateways (snd run) = gateways s.
Proof.
  intros s input newId now Hgateway run. subst run.
  unfold processPayment, createPayment, bind, gets, modify, ret, throw; simpl.
  rewrite Hgateway. simpl. repeat split.
Qed.

Lemma processPayment_records_and_surfaces_outcome_witness :
  let run := processPayment (charge_input stripe) "pay_9" 300
               (charge_service declining_gateway) in
  fst run = inl (JsError "card declined") /\
  payments (snd run) =
    [set_failed "card declined" 300
       (pending_payment (charge_input stripe) "pay_9" 300)].
Proof.
  intros run.
  destruct (processPayment_records_and_surfaces_outcome
              (charge_service declining_gateway) (charge_input stripe)
              "pay_9" 300 declining_gateway)
    as (_ & Hthrown & Hrows & _).
  - vm_compute. reflexivity.
  - intros p [].
  - split; [exact Hthrown | exact Hrows].
Defined.

Lemma processPayment_unregistered_gateway_leaves_pending_row_witness :
  let run := processPayment (charge_input paypal) "pay_9" 300
               (charge_service accepting_gateway) in
  fst run = inl (JsError "Payment gateway not registered: paypal") /\
  payments (snd run) = [pending_payment (charge_input paypal) "pay_9" 300].
Proof.
  intros run.
  destruct (processPayment_unregistered_gateway_leaves_pending_row
              (charge_service accepting_gateway) (charge_input paypal)
              "pay_9" 300)
    as (Hthrown & Hrows & _).
  - vm_compute. reflexivity.
  - split; [exact Hthrown | exact Hrows].
Defined.

(** ** Refunds *)

(** [processRefund], step by step. *)
Lemma processRefund_eq refundId now s :
  processRefund refundId now s =
  match sql_first (refund_has_id refundId) (refunds s) with
  | None => (inl (JsError ("Refund not found: " +:+ refundId)), s)
  | Some r =>
      if truthy_string (refund_paymentId r)
      then
        match sql_first (has_id (or_empty (refund_paymentId r))) (payments s) with
        | None =>
            (inl (JsError ("Payment not found: "
                           +:+ or_empty (refund_paymentId r))), s)
        | Some payment =>
            match gateways s !! stripe with
            | None =>
                (inl (JsError "Payment gateway not available for refunds"), s)
            | Some gateway =>
                match refund gateway (refund_args r payment) with
                | inr tx =>
                    (inr (set_refund_completed tx now r),
                     emit (UpdateRefund refundId refund_completed)
                       (with_refunds
                          (sql_update (refund_has_id refundId)
                             (set_refund_completed tx now))
                          (emit (CallRefund (refund_args r payment)) s)))
                | inl error =>
                    (inl error,
                     emit (UpdateRefund refundId refund_failed)
                       (with_refunds
                          (sql_update (refund_has_id refundId)
                             (set_refund_failed now))
                          (emit (CallRefund (refund_args r payment)) s)))
                end
            end
        end
      else (inl (JsError "Cannot refund payment without payment ID"), s)
  end.
Proof.
  unfold processRefund, getRefund, getPayment, bind, gets, modify, ret, throw,
    try_catch, call_refund, refund_args.
  destruct (sql_first (refund_has_id refundId) (refunds s)) as [r|];
    [|reflexivity].
  destruct (truthy_string (refund_paymentId r)); [|reflexivity]. cbn [negb].
  destruct (sql_first (has_id (or_empty (refund_paymentId r))) (payments s))
    as [payment|]; [|reflexivity].
  destruct (gateways s !! stripe) as [gateway|]; [|reflexivity].
  destruct (refund gateway _); reflexivity.
Qed.

(** C7, as the specification words it, fails: a refund whose payment has
    no transaction id is not turned down.  The gateway is called with an
    empty transaction id and the refund completes. *)
Lemma processRefund_without_transaction_id_is_not_refused :
  sql_first (has_id "pay_1") (payments refund_service)
    = Some payment_without_transaction /\
  transactionId payment_without_transaction = None /\
  (forall error, fst (processRefund "ref_1" 300 refund_service) <> inl error) /\
  exists r,
    fst (processRefund "ref_1" 300 refund_service) = inr r /\
    refund_status r = refund_completed /\
    trace (snd (processRefund "ref_1" 300 refund_service)) =
      [CallRefund (mkRefundArgs "" 118%Q "USD");
       UpdateRefund "ref_1" refund_completed].
Proof.
  split; [reflexivity|]. split; [reflexivity|]. split.
  - intros error. vm_compute. discriminate.
  - eexists. split; [vm_compute; reflexivity|]. split; reflexivity.
Qed.

(** C7, amended.  [processRefund] throws a not-found style error, and
    writes nothing, when the refund is missing, when it has no payment
    id, and when its payment is missing.  Otherwise, with a gateway
    registered under stripe, it calls that gateway's [refund] with the
    payment's transaction id (the empty string when the payment has
    none), the refund's amount and the payment's currency; when the
    gateway resolves the refund is marked completed with the returned
    transaction id and returned, and when it rejects the refund is marked
    failed and the same error is thrown. *)
Theorem processRefund_outcomes :
  forall (s : Service) (refundId : string) (now : Z),
    let run := processRefund refundId now s in
    (sql_first (refund_has_id refundId) (refunds s) = None ->
     fst run = inl (JsError ("Refund not found: " +:+ refundId)) /\ snd run = s) /\
    (forall r,
        sql_first (refund_has_id refundId) (refunds s) = Some r ->
        truthy_string (refund_paymentId r) = false ->
        fst run = inl (JsError "Cannot refund payment without payment ID") /\
        snd run = s) /\
    (forall r,
        sql_first (refund_has_id refundId) (refunds s) = Some r ->
        truthy_string (refund_paymentId r) = true ->
        sql_first (has_id (or_empty (refund_paymentId r))) (payments s) = None ->
        fst run = inl (JsError ("Payment not found: "
                                +:+ or_empty (refund_paymentId r))) /\
        snd run = s) /\
    (forall r payment gateway,
        sql_first (refund_has_id refundId) (refunds s) = Some r ->
        truthy_string (refund_paymentId r) = true ->
        sql_first (has_id (or_empty (refund_paymentId r))) (payments s)
          = Some payment ->
        gateways s !! stripe = Some gateway ->
        trace (snd run)
          = trace s ++ [CallRefund (refund_args r payment);
                        UpdateRefund refundId
                          (match refund gateway (refund_args r payment) with
                           | inr _ => refund_completed
                           | inl _ => refund_failed
                           end)] /\
        payments (snd run) = payments s /\
        match refund gateway (refund_args r payment) with
        | inr tx =>
            fst run = inr (set_refund_completed tx now r) /\
            sql_first (refund_has_id refundId) (refunds (snd run))
              = Some (set_refund_completed tx now r) /\
            refund_status (set_refund_completed tx now r) = refund_completed /\
            refund_transactionId (set_refund_completed tx now r) = Some tx
        | inl error =>
            fst run = inl error /\
            sql_first (refund_has_id refundId) (refunds (snd run))
              = Some (set_refund_failed now r) /\
            refund_status (set_refund_failed now r) = refund_failed
        end).
Proof.
  intros s refundId now run. subst run. rewrite processRefund_eq.
  split; [|split; [|split]].
  - intros Hr. rewrite Hr. split; reflexivity.
  - intros r Hr Hpid. rewrite Hr, Hpid. split; reflexivity.
  - intros r Hr Hpid Hpayment. rewrite Hr, Hpid, Hpayment. split; reflexivity.
  - intros r payment gateway Hr Hpid Hpayment Hgateway.
    rewrite Hr, Hpid, Hpayment, Hgateway.
    destruct (refund gateway (refund_args r payment)) as [error|tx]; simpl.
    + rewrite <- app_assoc. split; [reflexivity|]. split; [reflexivity|].
      split; [reflexivity|].
      rewrite sql_first_update_same by (intros; reflexivity).
      rewrite Hr. split; reflexivity.
    + rewrite <- app_assoc. split; [reflexivity|]. split; [reflexivity|].
      split; [reflexivity|].
      rewrite sql_first_update_same by (intros; reflexivity).
      rewrite Hr. repeat split.
Qed.

Lemma processRefund_outcomes_witness :
  let run := processRefund "ref_1" 300 refund_service in
  exists r,
    fst run = inr r /\
    sql_first (refund_has_id "ref_1") (refunds (snd run)) = Some r /\
    refund_transactionId r = Some "re_1".
Proof.
  intros run.
  destruct (processRefund_outcomes refund_service "ref_1" 300)
    as (_ & _ & _ & H).
  destruct (H _ payment_without_transaction accepting_gateway eq_refl eq_refl
              eq_refl ltac:(vm_compute; reflexivity))
    as (_ & _ & Hreturned & Hrow & _ & Htx).
  eexists. split; [exact Hreturned|]. split; [exact Hrow | exact Htx].
Defined.

(** C9.  [processRefund] looks its gateway up under the fixed key
    stripe.  What it returns and writes depends on the registry only
    through the stripe entry; and when nothing is registered under
    stripe every call fails and writes nothing, with the
    gateway-not-available error as soon as the refund and its payment are
    found, whatever else is registered. *)
Theorem processRefund_resolves_gateway_by_stripe_key :
  forall (s : Service) (refundId : string) (now : Z),
    (forall registry,
        registry !! stripe = gateways s !! stripe ->
        let s' := mkService registry (payments s) (refunds s) (trace s) in
        fst (processRefund refundId now s') = fst (processRefund refundId now s) /\
        payments (snd (processRefund refundId now s'))
          = payments (snd (processRefund refundId now s)) /\
        refunds (snd (processRefund refundId now s'))
          = refunds (snd (processRefund refundId now s)) /\
        trace (snd (processRefund refundId now s'))
          = trace (snd (processRefund refundId now s))) /\
    (gateways s !! stripe = None ->
     (exists error, fst (processRefund refundId now s) = inl error) /\
     snd (processRefund refundId now s) = s /\
     (forall r payment,
         sql_first (refund_has_id refundId) (refunds s) = Some r ->
         truthy_string (refund_paymentId r) = true ->
         sql_first (has_id (or_empty (refund_paymentId r))) (payments s)
           = Some payment ->
         fst (processRefund refundId now s)
           = inl (JsError "Payment gateway not available for refunds"))).
Proof.
  intros s refundId now. split.
  - intros registry Hstripe s'. subst s'. rewrite !processRefund_eq.
    cbn [gateways payments refunds trace]. rewrite Hstripe.
    destruct (sql_first (refund_has_id refundId) (refunds s)) as [r|];
      [|repeat split].
    destruct (truthy_string (refund_paymentId r)); [|repeat split].
    destruct (sql_first (has_id (or_empty (refund_paymentId r))) (payments s))
      as [payment|]; [|repeat split].
    destruct (gateways s !! stripe) as [gateway|]; [|repeat split].
    destruct (refund gateway _) as [error|tx]; repeat split.
  - intros Hstripe. rewrite processRefund_eq, Hstripe.
    split; [|split].
    + destruct (sql_first (refund_has_id refundId) (refunds s)) as [r|];
        [|eexists; reflexivity].
      destruct (truthy_string (refund_paymentId r)); [|eexists; reflexivity].
      destruct (sql_first _ (payments s)); eexists; reflexivity.
    + destruct (sql_first (refund_has_id refundId) (refunds s)) as [r|];
        [|reflexivity].
      destruct (truthy_string (refund_paymentId r)); [|reflexivity].
      destruct (sql_first _ (payments s)); reflexivity.
    + intros r payment Hr Hpid Hpayment. rewrite Hr, Hpid, Hpayment.
      reflexivity.
Qed.

Lemma processRefund_resolves_gateway_by_stripe_key_witness :
  gateways paypal_service !! paypal = Some accepting_gateway /\
  fst (processRefund "ref_1" 300 paypal_service)
    = inl (JsError "Payment gateway not available for refunds") /\
  snd (processRefund "ref_1" 300 paypal_service) = paypal_service.
Proof.
  split; [vm_compute; reflexivity|].
  destruct (processRefund_resolves_gateway_by_stripe_key paypal_service
              "ref_1" 300) as (_ & H).
  destruct H as (_ & Hstate & Herror); [vm_compute; reflexivity|].
  split; [|exact Hstate].
  apply (Herror _ _ eq_refl eq_refl eq_refl).
Defined.

End PaymentFacts.

(** * Download links *)

Section DownloadFacts.
Import Js Download.

Lemma link_expired_spec now l : link_expired now l = true <-> past_expiry now l.
Proof.
  unfold link_expired, past_expiry, truthy_Z.
  destruct (expiresAt l) as [t|].
  - rewrite andb_true_iff, negb_true_iff, Z.eqb_neq, Z.ltb_lt. split.
    + intros [Hset Hlt]. exists t. repeat split; assumption.
    + intros (t' & Heq & Hset & Hlt). injection Heq as <-. split; assumption.
  - split; [discriminate | intros (t & Heq & _); discriminate].
Qed.

Lemma limit_reached_spec l : limit_reached l = true <-> at_limit l.
Proof.
  unfold limit_reached, at_limit, truthy_Z.
  destruct (maxDownloads l) as [m|].
  - rewrite andb_true_iff, negb_true_iff, Z.eqb_neq, Z.leb_le. split.
    + intros [Hset Hle]. exists m. repeat split; assumption.
    + intros (m' & Heq & Hset & Hle). injection Heq as <-. split; assumption.
  - split; [discriminate | intros (m & Heq & _); discriminate].
Qed.

Lemma bool_false_iff (b : bool) (P : Prop) :
  (b = true <-> P) -> (b = false <-> ~ P).
Proof.
  intros [H1 H2]. destruct b; split; intros H; try reflexivity; try discriminate.
  - destruct H. apply H1. reflexivity.
  - intros HP. apply H2 in HP. discriminate.
Qed.

(** [getDownloadLinkByToken], step by step. *)
Lemma getDownloadLinkByToken_eq t now s :
  getDownloadLinkByToken t now s =
  match sql_first (link_has_token t) (download_links s) with
  | None => (inr None, s)
  | Some link =>
      if link_expired now link
      then (inl (JsError "Download link has expired"), s)
      else if limit_reached link
      then (inl (JsError "Download limit reached"), s)
      else (inr (Some link), s)
  end.
Proof.
  unfold getDownloadLinkByToken, bind, gets, ret, throw.
  destruct (sql_first (link_has_token t) (download_links s)) as [link|];
    [|reflexivity].
  destruct (link_expired now link); [reflexivity|].
  destruct (limit_reached link); reflexivity.
Qed.

(** [getDownloadFile], step by step. *)
Lemma getDownloadFile_eq t now s :
  getDownloadFile t now s =
  match getDownloadLinkByToken t now s with
  | (inl error, s') => (inl error, s')
  | (inr None, s') => (inl (JsError "Invalid download link"), s')
  | (inr (Some link), s') =>
      match sql_first (has_id (digitalDownloadId link)) (digital_downloads s') with
      | None => (inl (JsError "Digital download not found"), s')
      | Some download =>
          let s'' := with_links
                       (sql_update (link_has_id (link_id link))
                          (count_download now)) s' in
          match r2 s'' !! r2Key download with
          | None => (inl (JsError "File not found in storage"), s'')
          | Some body =>
              (inr (mkDownloadFile body (fileName download)
                      (or_octet_stream (mimeType download))), s'')
          end
      end
  end.
Proof.
  unfold getDownloadFile, bind at 1.
  destruct (getDownloadLinkByToken t now s) as [[error|[link|]] s'];
    try reflexivity.
  unfold getDigitalDownload, recordDownload, bind, gets, modify, ret, throw.
  destruct (sql_first (has_id (digitalDownloadId link)) (digital_downloads s'))
    as [download|]; [|reflexivity].
  cbv zeta. cbn [r2 with_links].
  destruct (r2 s' !! r2Key download); reflexivity.
Qed.

Lemma count_download_keeps_ids now i table :
  map link_id (sql_update (link_has_id i) (count_download now) table)
  = map link_id table.
Proof.
  unfold sql_update. rewrite map_map. apply map_ext.
  intros l. destruct (link_has_id i l); reflexivity.
Qed.

(** Counting a download of a link that is not at its limit keeps every
    link within its limit. *)
Lemma count_download_within_limit now link table :
  List.NoDup (map link_id table) ->
  In link table ->
  ~ at_limit link ->
  Forall within_limit table ->
  Forall within_limit
    (sql_update (link_has_id (link_id link)) (count_download now) table).
Proof.
  intros Hnd Hin Hfree Hall.
  rewrite List.Forall_forall in Hall |- *.
  intros l' Hl'. apply In_sql_update in Hl' as (l & Hl & ->).
  destruct (link_has_id (link_id link) l) eqn:Hid; [|apply Hall; exact Hl].
  apply String.eqb_eq in Hid.
  assert (l = link) as -> by (apply (NoDup_map_injective link_id table); assumption).
  intros m Hm Hset. simpl in *.
  destruct (Z.le_gt_cases m (downloadCount link)) as [Hle|Hgt]; [|lia].
  destruct Hfree. exists m. repeat split; assumption.
Qed.

(** One download attempt keeps the links distinct and within their
    limits, whether it succeeds or throws. *)
Lemma getDownloadFile_within_limit t now s :
  unique_link_ids s ->
  Forall within_limit (download_links s) ->
  unique_link_ids (snd (getDownloadFile t now s)) /\
  Forall within_limit (download_links (snd (getDownloadFile t now s))).
Proof.
  intros Hnd Hall. rewrite getDownloadFile_eq, getDownloadLinkByToken_eq.
  destruct (sql_first (link_has_token t) (download_links s)) as [link|] eqn:Hlink;
    [|split; assumption].
  destruct (link_expired now link); [split; assumption|].
  destruct (limit_reached link) eqn:Hlimit; [split; assumption|].
  destruct (sql_first (has_id (digitalDownloadId link)) (digital_downloads s))
    as [download|]; [|split; assumption].
  assert (Hgoal :
    unique_link_ids
      (with_links (sql_update (link_has_id (link_id link)) (count_download now)) s)
    /\ Forall within_limit
         (download_links
            (with_links
               (sql_update (link_has_id (link_id link)) (count_download now)) s))).
  { split.
    - unfold unique_link_ids; simpl. rewrite count_download_keeps_ids. exact Hnd.
    - simpl. apply count_download_within_limit; try assumption.
      + apply sql_first_Some in Hlink. apply Hlink.
      + apply (bool_false_iff _ _ (limit_reached_spec link)). exact Hlimit. }
  cbv zeta. destruct (r2 _ !! r2Key download); exact Hgoal.
Qed.

Lemma download_all_within_limit attempts :
  forall s,
    unique_link_ids s ->
    Forall within_limit (download_links s) ->
    Forall within_limit (download_links (download_all attempts s)).
Proof.
  induction attempts as [|[t now] attempts IH]; intros s Hnd Hall; simpl.
  - exact Hall.
  - destruct (getDownloadFile_within_limit t now s Hnd Hall) as [Hnd' Hall'].
    apply IH; assumption.
Qed.

(** C4.  A lookup by token returns null when no link has the token.
    For the link that has it, the lookup throws the expired error when
    the expiry is set and now is past it, throws when the limit is set
    and the count has reached it (the limit-reached error, unless the
    link is expired as well), and returns the link otherwise.
    [getDownloadFile] throws whatever the lookup throws and then counts
    nothing, so a download that succeeds is one of a link neither expired
    nor at its limit, and over any run of download attempts the count of
    a link never exceeds its limit. *)
Theorem download_link_refused_when_expired_or_exhausted :
  forall (s : Service) (t : string) (now : Z),
    (sql_first (link_has_token t) (download_links s) = None ->
     getDownloadLinkByToken t now s = (inr None, s)) /\
    (forall link,
        sql_first (link_has_token t) (download_links s) = Some link ->
        (past_expiry now link ->
         getDownloadLinkByToken t now s
           = (inl (JsError "Download link has expired"), s)) /\
        (at_limit link ->
         exists error, getDownloadLinkByToken t now s = (inl error, s)) /\
        (at_limit link -> ~ past_expiry now link ->
         getDownloadLinkByToken t now s
           = (inl (JsError "Download limit reached"), s)) /\
        (~ past_expiry now link -> ~ at_limit link ->
         getDownloadLinkByToken t now s = (inr (Some link), s)) /\
        (forall f, fst (getDownloadFile t now s) = inr f ->
                   ~ past_expiry now link /\ ~ at_limit link)) /\
    (forall error,
        fst (getDownloadLinkByToken t now s) = inl error ->
        getDownloadFile t now s = (inl error, s)) /\
    (unique_link_ids s ->
     Forall within_limit (download_links s) ->
     forall attempts,
       Forall within_limit (download_links (download_all attempts s))).
Proof.
  intros s t now. split; [|split; [|split]].
  - intros Hnone. rewrite getDownloadLinkByToken_eq, Hnone. reflexivity.
  - intros link Hlink.
    pose proof (link_expired_spec now link) as Hexp.
    pose proof (limit_reached_spec link) as Hlim.
    pose proof (bool_false_iff _ _ Hexp) as Hexp'.
    pose proof (bool_false_iff _ _ Hlim) as Hlim'.
    rewrite getDownloadFile_eq, getDownloadLinkByToken_eq, Hlink.
    split; [|split; [|split; [|split]]].
    + intros H. apply Hexp in H. rewrite H. reflexivity.
    + intros H. apply Hlim in H. rewrite H.
      destruct (link_expired now link); eexists; reflexivity.
    + intros H H'. apply Hlim in H. apply Hexp' in H'. rewrite H, H'.
      reflexivity.
    + intros H H'. apply Hexp' in H. apply Hlim' in H'. rewrite H, H'.
      reflexivity.
    + intros f.
      destruct (link_expired now link); [discriminate|].
      destruct (limit_reached link); [discriminate|].
      intros _. split; [apply Hexp' | apply Hlim']; reflexivity.
  - intros error. rewrite getDownloadFile_eq.
    destruct (getDownloadLinkByToken t now s) as [[error'|found] s'] eqn:Hrun;
      simpl; [|discriminate].
    intros Heq. injection Heq as <-.
    rewrite getDownloadLinkByToken_eq in Hrun.
    destruct (sql_first (link_has_token t) (download_links s)) as [link|];
      [|discriminate].
    destruct (link_expired now link);
      [injection Hrun as <- <-; reflexivity|].
    destruct (limit_reached link);
      [injection Hrun as <- <-; reflexivity | discriminate].
  - intros Hnd Hall attempts. apply download_all_within_limit; assumption.
Qed.

Lemma download_link_refused_when_expired_or_exhausted_witness :
  let s := download_all [("tok_1", 2000); ("tok_1", 3000)] one_download_service in
  Forall within_limit (download_links s) /\
  map downloadCount (download_links s) = [1] /\
  getDownloadFile "tok_1" 3000 (snd (getDownloadFile "tok_1" 2000 one_download_service))
    = (inl (JsError "Download limit reached"),
       snd (getDownloadFile "tok_1" 2000 one_download_service)).
Proof.
  intros s. split; [|split; vm_compute; reflexivity].
  destruct (download_link_refused_when_expired_or_exhausted
              one_download_service "tok_1" 2000) as (_ & _ & _ & Hbound).
  apply Hbound.
  - unfold unique_link_ids. simpl. constructor; [intros []|constructor].
  - simpl. constructor; [|constructor].
    intros m Hm _. simpl in Hm. injection Hm as <-. simpl. lia.
Defined.

(** ** The expiry of a new link *)

Lemma sql_first_insert_fresh {Row} (p : Row -> bool) table r :
  (forall r', In r' table -> p r' = false) ->
  p r = true ->
  sql_first p (sql_insert r table) = Some r.
Proof.
  intros Hfresh Hr. rewrite sql_first_app.
  destruct (sql_first p table) as [r'|] eqn:Hfirst.
  - apply sql_first_Some in Hfirst as [Hin Hp].
    rewrite (Hfresh r' Hin) in Hp. discriminate.
  - rewrite Hr. reflexivity.
Qed.

(** C6, as the specification words it, fails: with [expirationDays = 0]
    the link gets no expiry at all, and a lookup after the clock has
    advanced returns it. *)
Lemma createDownloadLink_zero_days_does_not_expire :
  (exists link,
      fst (createDownloadLink "item_1" "dl_1" None (Some 0) "link_1" "tok_1"
             1000 ebook_service) = inr link /\
      expiresAt link = None /\
      expiresAt link <> Some 1000) /\
  (exists row,
      getDownloadLinkByToken "tok_1" 2000 zero_days_service
        = (inr (Some row), zero_days_service) /\
      expiresAt row = None) /\
  fst (getDownloadLinkByToken "tok_1" 2000 zero_days_service)
    <> inl (JsError "Download link has expired").
Proof.
  split; [|split].
  - eexists. split; [reflexivity|]. split; [reflexivity | discriminate].
  - eexists. split; [vm_compute; reflexivity | reflexivity].
  - vm_compute. discriminate.
Qed.

(** C6, amended.  [createDownloadLink] with [expirationDays = 0] (as
    with none) makes a link without expiry, and no lookup by its token
    throws the expired error, however late.  With [expirationDays = d],
    [d > 0], the expiry is now + d × 86400, and a lookup once the clock
    is past it throws the expired error. *)
Theorem createDownloadLink_expiry :
  forall (s : Service) (orderItem digitalDownload : string)
         (maxDl days : option Z) (newId newToken : string) (now : Z),
    fresh_token newToken s ->
    let created :=
      createDownloadLink orderItem digitalDownload maxDl days newId newToken
        now s in
    exists link,
      fst created = inr link /\
      token link = newToken /\
      (days = Some 0 \/ days = None ->
       expiresAt link = None /\
       forall later,
         fst (getDownloadLinkByToken newToken later (snd created))
           <> inl (JsError "Download link has expired")) /\
      (forall d,
          days = Some d -> 0 < d -> 0 <= now ->
          expiresAt link = Some (now + d * 86400) /\
          forall later,
            now + d * 86400 < later ->
            getDownloadLinkByToken newToken later (snd created)
              = (inl (JsError "Download link has expired"), snd created)).
Proof.
  intros s orderItem digitalDownload maxDl days newId newToken now Hfresh created.
  subst created.
  unfold createDownloadLink, bind, modify, ret; cbn [fst snd].
  eexists. split; [reflexivity|]. split; [reflexivity|].
  assert (Hfirst : forall row,
             token row = newToken ->
             sql_first (link_has_token newToken)
               (download_links (with_links (sql_insert row) s)) = Some row).
  { intros row Hrow. simpl. apply sql_first_insert_fresh.
    - intros l Hl. unfold link_has_token. apply String.eqb_neq.
      apply Hfresh. exact Hl.
    - unfold link_has_token. rewrite Hrow. apply String.eqb_refl. }
  split.
  - intros Hdays.
    assert (Hnone : match days with
                    | Some d => if truthy_Z (Some d)
                                then Some (now + d * 24 * 60 * 60) else None
                    | None => None
                    end = None)
      by (destruct Hdays as [-> | ->]; reflexivity).
    cbn [expiresAt]. rewrite Hnone. split; [reflexivity|].
    intros later. rewrite getDownloadLinkByToken_eq, Hfirst by reflexivity.
    unfold link_expired; simpl.
    destruct (limit_reached _); simpl; discriminate.
  - intros d -> Hd Hnow.
    assert (Htruthy : truthy_Z (Some d) = true).
    { unfold truthy_Z. apply negb_true_iff. apply Z.eqb_neq. lia. }
    cbn [expiresAt]. rewrite Htruthy.
    split; [f_equal; lia|].
    intros later Hlater.
    rewrite getDownloadLinkByToken_eq, Hfirst by reflexivity.
    assert (Hexp : link_expired later
              (mkDownloadLink newId orderItem digitalDownload newToken 0
                 (or_null_Z maxDl)
                 (or_null_Z (Some (now + d * 24 * 60 * 60))) None now) = true).
    { apply link_expired_spec. exists (now + d * 24 * 60 * 60).
      split; [|split; lia].
      simpl. unfold or_null_Z, truthy_Z.
      destruct (now + d * 24 * 60 * 60 =? 0) eqn:Hz; [|reflexivity].
      apply Z.eqb_eq in Hz. lia. }
    simpl in Hexp |- *. rewrite Hexp. reflexivity.
Qed.

Lemma createDownloadLink_expiry_witness :
  let created :=
    createDownloadLink "item_1" "dl_1" (Some 1) (Some 2) "link_1" "tok_1" 1000
      ebook_service in
  exists link,
    fst created = inr link /\
    expiresAt link = Some 173800 /\
    getDownloadLinkByToken "tok_1" 173801 (snd created)
      = (inl (JsError "Download link has expired"), snd created).
Proof.
  intros created.
  destruct (createDownloadLink_expiry ebook_service "item_1" "dl_1" (Some 1)
              (Some 2) "link_1" "tok_1" 1000)
    as (link & Hlink & _ & _ & Hpositive).
  - intros l [].
  - destruct (Hpositive 2 eq_refl) as [Hexpiry Hlater]; [lia | lia |].
    exists link. split; [exact Hlink|]. split; [exact Hexpiry|].
    apply Hlater. lia.
Defined.

End DownloadFacts.

(** * More facts about the SQL helpers *)

Section SqlMoreFacts.
Context {Row : Type}.
Implicit Types (table : list Row) (p q : Row -> bool) (f : Row -> Row).

Lemma sql_first_fresh_app p table table' :
  (forall r, In r table -> p r = false) ->
  Js.sql_first p (table ++ table') = Js.sql_first p table'.
Proof.
  intros Hfresh. unfold Js.sql_first.
  induction table as [|r table IH]; simpl; [reflexivity|].
  rewrite (Hfresh r) by (left; reflexivity).
  apply IH. intros r' Hin. apply Hfresh. right. exact Hin.
Qed.

Lemma sql_delete_app q table table' :
  Js.sql_delete q (table ++ table') = Js.sql_delete q table ++ Js.sql_delete q table'.
Proof. unfold Js.sql_delete. apply List.filter_app. Qed.

Lemma sql_update_none p f table :
  (forall r, In r table -> p r = false) ->
  Js.sql_update p f table = table.
Proof.
  intros Hnone. unfold Js.sql_update.
  induction table as [|r table IH]; simpl; [reflexivity|].
  rewrite (Hnone r) by (left; reflexivity).
  rewrite IH; [reflexivity|]. intros r' Hin. apply Hnone. right. exact Hin.
Qed.

Lemma sql_all_delete_same p table :
  Js.sql_all p (Js.sql_delete p table) = [].
Proof.
  unfold Js.sql_all, Js.sql_delete.
  induction table as [|r table IH]; simpl; [reflexivity|].
  destruct (p r) eqn:Hr; simpl; [exact IH|]. rewrite Hr. exact IH.
Qed.

Lemma sql_first_delete_same p table :
  Js.sql_first p (Js.sql_delete p table) = None.
Proof.
  unfold Js.sql_first, Js.sql_delete.
  induction table as [|r table IH]; simpl; [reflexivity|].
  destruct (p r) eqn:Hr; simpl; [exact IH|]. rewrite Hr. exact IH.
Qed.

Lemma sql_first_delete_other p q table :
  (forall r, In r table -> q r = true -> p r = false) ->
  Js.sql_first p (Js.sql_delete q table) = Js.sql_first p table.
Proof.
  unfold Js.sql_first, Js.sql_delete.
  induction table as [|r table IH]; intros Hq; simpl; [reflexivity|].
  assert (IH' := IH (fun r' Hin => Hq r' (or_intror Hin))).
  destruct (q r) eqn:Hr; simpl.
  - rewrite (Hq r (or_introl eq_refl) Hr). exact IH'.
  - destruct (p r); [reflexivity | exact IH'].
Qed.

Lemma sql_all_delete_implied p q table :
  (forall r, In r table -> p r = true -> q r = false) ->
  Js.sql_all p (Js.sql_delete q table) = Js.sql_all p table.
Proof.
  intros Hpq. apply sql_all_delete_other.
  intros r Hin Hq. destruct (p r) eqn:Hp; [|reflexivity].
  rewrite (Hpq r Hin Hp) in Hq. discriminate.
Qed.

Lemma sql_order_by_nil (key : Row -> Z) rows :
  Js.sql_order_by key rows = [] -> rows = [].
Proof.
  intros Hnil. pose proof (sql_order_by_perm key rows) as Hperm.
  rewrite Hnil in Hperm. apply Permutation_nil. exact Hperm.
Qed.

(** The first row of [ORDER BY key ASC] is a row of the input with the
    least key. *)
Lemma sql_order_by_head (key : Row -> Z) rows first :
  hd_error (Js.sql_order_by key rows) = Some first ->
  In first rows /\ forall r, In r rows -> key first <= key r.
Proof.
  revert first. induction rows as [|r rows IH]; intros first;
    [discriminate|].
  change (Js.sql_order_by key (r :: rows))
    with (Js.insert_by key r (Js.sql_order_by key rows)).
  destruct (Js.sql_order_by key rows) as [|h sorted] eqn:Hsorted.
  - apply sql_order_by_nil in Hsorted. subst rows. simpl.
    intros H. injection H as <-. split; [left; reflexivity|].
    intros r' [<-|[]]. lia.
  - destruct (IH h eq_refl) as [Hin Hmin]. simpl.
    destruct (key r <=? key h) eqn:Hle; simpl; intros H; injection H as <-.
    + apply Z.leb_le in Hle. split; [left; reflexivity|].
      intros r' [<-|Hr']; [lia|]. specialize (Hmin r' Hr'). lia.
    + apply Z.leb_gt in Hle. split; [right; exact Hin|].
      intros r' [<-|Hr']; [lia | apply Hmin; exact Hr'].
Qed.

End SqlMoreFacts.

(** * Carts: creation, lookup, clearing and the edges of the requests *)

Section CartMoreFacts.
Import Js Cart PrimFloat.

Lemma fresh_cart_id_spec i db :
  fresh_cart_id i db -> forall c, In c (carts db) -> has_id i c = false.
Proof.
  intros Hfresh c Hin. unfold has_id. apply String.eqb_neq.
  apply Hfresh. exact Hin.
Qed.

(** X1.  A cart made by [createCart] under a new id is read back by
    [getCart] with zeroed totals, no coupon, an expiry 30 days
    (2592000 s) after its creation and an empty owner stored as NULL; the
    carts under other ids and the items are as before. *)
Theorem createCart_then_getCart :
  forall (db : Cart.DB) (input : CreateCartInput) (newId : string) (now : Z),
    fresh_cart_id newId db ->
    let db' := snd (createCart input newId now db) in
    (exists row,
        fst (getCart newId db') = inr (Some row) /\
        id row = newId /\ storeId row = input_storeId input /\
        userId row = or_null_string (input_userId input) /\
        sessionId row = or_null_string (input_sessionId input) /\
        totalPrice row = 0%float /\ totalTax row = 0%float /\
        totalShipping row = 0%float /\ couponDiscount row = 0%float /\
        couponCode row = None /\
        expiresAt row = Some (now + 2592000) /\
        createdAt row = now) /\
    (forall j, j <> newId -> fst (getCart j db') = fst (getCart j db)) /\
    cart_items db' = cart_items db /\ stores db' = stores db.
Proof.
  intros db input newId now Hfresh db'. subst db'.
  unfold createCart, getCart, bind, gets, modify, ret; simpl.
  split; [|split; [|split; reflexivity]].
  - rewrite sql_first_insert_fresh.
    + eexists. split; [reflexivity|]. simpl. repeat split.
    + apply fresh_cart_id_spec. exact Hfresh.
    + unfold has_id. simpl. apply String.eqb_refl.
  - intros j Hj. rewrite sql_first_app.
    destruct (sql_first (has_id j) (carts db)); [reflexivity|].
    unfold has_id; simpl.
    destruct (String.eqb newId j) eqn:Heq; [|reflexivity].
    apply String.eqb_eq in Heq. destruct Hj. symmetry. exact Heq.
Qed.

Lemma createCart_then_getCart_witness :
  exists row,
    fst (getCart "cart_2" (snd (createCart
           (mkCreateCartInput "store_1" (Some "") (Some "session_2"))
           "cart_2" 500 scenario_db))) = inr (Some row) /\
    userId row = None /\ expiresAt row = Some 2592500.
Proof.
  destruct (createCart_then_getCart scenario_db
              (mkCreateCartInput "store_1" (Some "") (Some "session_2"))
              "cart_2" 500) as [(row & Hget & _ & _ & Huser & _ & _ & _ & _ & _ & _ & Hexp & _) _].
  - intros c [<-|[]]. discriminate.
  - exists row. split; [exact Hget|]. split; [exact Huser | exact Hexp].
Defined.

(** X2.  A cart created at [now] under a new id survives every sweep of
    [deleteExpiredCarts] run up to 30 days later, and a sweep run after
    that removes it. *)
Theorem created_cart_lives_thirty_days :
  forall (db : Cart.DB) (input : CreateCartInput) (newId : string)
         (now t : Z) (cascade : bool),
    fresh_cart_id newId db ->
    let db1 := snd (createCart input newId now db) in
    let db2 := snd (deleteExpiredCarts cascade t db1) in
    (t <= now + 2592000 -> fst (getCart newId db2) = fst (getCart newId db1)) /\
    (now + 2592000 < t -> fst (getCart newId db2) = inr None).
Proof.
  intros db input newId now t cascade Hfresh db1 db2. subst db1 db2.
  unfold createCart, deleteExpiredCarts, getCart, bind, gets, modify, ret,
    sql_delete_carts; simpl.
  unfold sql_insert. rewrite sql_delete_app.
  assert (Hprefix : forall r, In r (sql_delete (expired t) (carts db)) ->
                              has_id newId r = false).
  { intros r Hin. apply In_sql_delete in Hin as [Hin _].
    apply fresh_cart_id_spec with (db := db); assumption. }
  rewrite (sql_first_fresh_app _ _ _ Hprefix).
  rewrite (sql_first_fresh_app _ (carts db))
    by (apply fresh_cart_id_spec; exact Hfresh).
  unfold sql_delete, expired; simpl.
  split; intros Ht.
  - assert (Hlive : (now + 30 * 24 * 60 * 60 <? t) = false)
      by (apply Z.ltb_ge; lia).
    rewrite Hlive. reflexivity.
  - assert (Hdead : (now + 30 * 24 * 60 * 60 <? t) = true)
      by (apply Z.ltb_lt; lia).
    rewrite Hdead. reflexivity.
Qed.

Lemma created_cart_lives_thirty_days_witness :
  let db1 := snd (createCart (mkCreateCartInput "store_1" None (Some "s"))
                    "cart_2" 500 scenario_db) in
  fst (getCart "cart_2" (snd (deleteExpiredCarts true 2592500 db1)))
    = fst (getCart "cart_2" db1) /\
  fst (getCart "cart_2" (snd (deleteExpiredCarts true 2592501 db1)))
    = inr None.
Proof.
  intros db1. split.
  - apply (created_cart_lives_thirty_days scenario_db
             (mkCreateCartInput "store_1" None (Some "s")) "cart_2" 500
             2592500 true); [|lia].
    intros c [<-|[]]. discriminate.
  - apply (created_cart_lives_thirty_days scenario_db
             (mkCreateCartInput "store_1" None (Some "s")) "cart_2" 500
             2592501 true); [|lia].
    intros c [<-|[]]. discriminate.
Defined.

Lemma item_in_cart_eq c it : item_in_cart c it = true -> cartId it = c.
Proof. unfold item_in_cart. apply String.eqb_eq. Qed.

Lemma with_carts_unchanged (f : list Cart -> list Cart) db :
  f (carts db) = carts db -> with_carts f db = db.
Proof. intros Hf. unfold with_carts. rewrite Hf. destruct db; reflexivity. Qed.

Lemma recalculateCart_found c now db cart :
  sql_first (has_id c) (carts db) = Some cart ->
  exists total tax,
    recalculateCart c now db
    = (inr tt, with_carts (sql_update (has_id c) (set_totals total tax now)) db).
Proof.
  intros Hcart.
  unfold recalculateCart, getCart, getItems, bind, gets, modify, throw.
  rewrite Hcart. eexists. eexists. reflexivity.
Qed.

Lemma recalculateCart_missing c now db :
  sql_first (has_id c) (carts db) = None ->
  recalculateCart c now db = (inl (JsError ("Cart not found: " +:+ c)), db).
Proof.
  intros Hcart.
  unfold recalculateCart, getCart, getItems, bind, gets, modify, throw.
  rewrite Hcart. reflexivity.
Qed.

(** X3.  [clearCart] never throws.  Afterwards the cart has no items
    and its row, when there is one, has price, tax, shipping and
    discount at zero while the coupon code stays; and carts that were
    consistent with their items are still so, the cleared one
    included, although no recompute is run, as long as the tax on an
    empty cart is 0 at the rate of every store. *)
Theorem clearCart_empties_and_keeps_consistency :
  forall (db : Cart.DB) (c : string) (now : Z),
    let run := clearCart c now db in
    fst run = inr tt /\
    fst (getItems c (snd run)) = inr [] /\
    (forall cart,
        fst (getCart c db) = inr (Some cart) ->
        exists cart',
          fst (getCart c (snd run)) = inr (Some cart') /\
          totalPrice cart' = 0%float /\ totalTax cart' = 0%float /\
          totalShipping cart' = 0%float /\ couponDiscount cart' = 0%float /\
          couponCode cart' = couponCode cart) /\
    ((forall s, In s (stores db) -> taxes_nothing (tax_rate s)) ->
     consistent db -> consistent (snd run)).
Proof.
  intros db c now run. subst run.
  unfold clearCart, getItems, getCart, bind, gets, modify; simpl.
  split; [reflexivity|]. split; [|split].
  - rewrite sql_all_delete_same. reflexivity.
  - intros cart Hcart. injection Hcart as Hcart.
    rewrite sql_first_update_same by reflexivity.
    rewrite Hcart. simpl. eexists. split; [reflexivity|]. simpl. repeat split.
  - intros Hrates Hcons cart' Hin. simpl in Hin.
    apply In_sql_update in Hin as (r & Hr & ->).
    destruct (has_id c r) eqn:Hrc.
    + apply has_id_eq in Hrc.
      unfold totals_identity, subtotal_from_items.
      cbn [id totalPrice totalTax totalShipping couponDiscount storeId
           cart_items with_cart_items with_carts].
      rewrite Hrc, sql_all_delete_same.
      change (subtotal_loop (sql_order_by itemCreatedAt []))
        with 0%float.
      split; [|vm_compute; reflexivity].
      unfold store_tax_rate. cbn [stores storeId with_cart_items with_carts].
      destruct (sql_first (store_has_id (storeId r)) (stores db)) as [st|]
        eqn:Hstore.
      * apply sql_first_Some in Hstore as [Hin _].
        symmetry. apply (Hrates st Hin).
      * vm_compute. reflexivity.
    + apply (totals_identity_frame db); [reflexivity | | apply Hcons; exact Hr].
      simpl. apply sql_all_delete_other.
      intros it _ Hit. apply item_in_cart_eq in Hit.
      apply (other_cart c); [|exact Hit].
      intros Heq. unfold has_id in Hrc. rewrite Heq, String.eqb_refl in Hrc.
      discriminate.
Qed.

Lemma clearCart_empties_and_keeps_consistency_witness :
  (exists cart',
      fst (getCart "cart_1" (snd (clearCart "cart_1" 200 scenario_final)))
        = inr (Some cart') /\
      totalPrice cart' = 0%float /\ couponCode cart' = Some "SAVE3") /\
  consistent (snd (clearCart "cart_1" 200 scenario_db)).
Proof.
  split.
  - destruct (clearCart_empties_and_keeps_consistency scenario_final "cart_1"
                200) as (_ & _ & Hrow & _).
    destruct (Hrow _ ltac:(vm_compute; reflexivity))
      as (cart' & Hget & Hprice & _ & _ & _ & Hcode).
    exists cart'. split; [exact Hget|]. split; [exact Hprice | exact Hcode].
  - destruct (clearCart_empties_and_keeps_consistency scenario_db "cart_1" 200)
      as (_ & _ & _ & Hkeeps).
    apply Hkeeps.
    + intros st [<-|[]]. vm_compute. reflexivity.
    + intros cart [<-|[]]. split; vm_compute; reflexivity.
Defined.

(** X4.  [updateItem] with a quantity of zero or less (the test
    [quantity <= 0] holds) is [removeItem]: same outcome, same state.
    With any other quantity and a known item, every row with that id
    gets the quantity and the cart of the item is recomputed; with an
    unknown item it throws and writes nothing. *)
Theorem updateItem_nonpositive_quantity_removes :
  forall (db : Cart.DB) (i : string) (q : float) (now : Z),
    ((q <=? 0)%float = true -> updateItem i q now db = removeItem i now db) /\
    (sql_first (item_has_id i) (cart_items db) = None ->
     updateItem i q now db
       = (inl (JsError ("Cart item not found: " +:+ i)), db)) /\
    (forall item,
        (q <=? 0)%float = false ->
        sql_first (item_has_id i) (cart_items db) = Some item ->
        sql_first (item_has_id i) (cart_items (snd (updateItem i q now db)))
          = Some (set_quantity q item) /\
        (forall cart,
            sql_first (has_id (cartId item)) (carts db) = Some cart ->
            fst (updateItem i q now db) = inr tt)).
Proof.
  intros db i q now. rewrite updateItem_eq, removeItem_eq.
  split; [|split].
  - intros Hq. rewrite Hq.
    destruct (sql_first (item_has_id i) (cart_items db)); reflexivity.
  - intros Hnone. rewrite Hnone. reflexivity.
  - intros item Hq Hitem. rewrite Hitem, Hq.
    set (db1 := with_cart_items (sql_update (item_has_id i) (set_quantity q)) db).
    assert (Hitems : forall r db', recalculateCart (cartId item) now db1 = (r, db') ->
                                   cart_items db' = cart_items db1).
    { intros [e|[]] db' Hrun.
      - apply recalculateCart_throws in Hrun as [-> _]. reflexivity.
      - apply recalculateCart_writes in Hrun as (total & tax & ->). reflexivity. }
    split.
    + destruct (recalculateCart (cartId item) now db1) as [r db'] eqn:Hrun.
      simpl. rewrite (Hitems r db' eq_refl). subst db1. simpl.
      rewrite sql_first_update_same by reflexivity.
      rewrite Hitem. reflexivity.
    + intros cart Hcart.
      destruct (recalculateCart_found (cartId item) now db1 cart Hcart)
        as (total & tax & ->). reflexivity.
Qed.

Lemma updateItem_nonpositive_quantity_removes_witness :
  updateItem "item_1" 0%float 200 scenario_final
    = removeItem "item_1" 200 scenario_final /\
  sql_first (item_has_id "item_1")
    (cart_items (snd (updateItem "item_1" 0%float 200 scenario_final))) = None /\
  sql_first (item_has_id "item_2")
    (cart_items (snd (updateItem "item_2" 7%float 200 scenario_final)))
    = Some (mkCartItem "item_2" "cart_1" "P2" None 7%float 5%float 102).
Proof.
  destruct (updateItem_nonpositive_quantity_removes scenario_final "item_1"
              0%float 200) as (Hremove & _ & _).
  destruct (updateItem_nonpositive_quantity_removes scenario_final "item_2"
              7%float 200) as (_ & _ & Hset).
  split; [apply Hremove; vm_compute; reflexivity|].
  split; [vm_compute; reflexivity|].
  destruct (Hset (mkCartItem "item_2" "cart_1" "P2" None 1%float 5%float 102))
    as [Hfirst _];
    [vm_compute; reflexivity | vm_compute; reflexivity | exact Hfirst].
Defined.

(** X5.  [removeItem] on an unknown item throws and writes nothing.  On
    a known item it deletes every row with that id and no other row; it
    returns when the cart of the item exists, and when that cart is
    missing it throws cart-not-found with the item already deleted. *)
Theorem removeItem_deletes_the_item :
  forall (db : Cart.DB) (i : string) (now : Z),
    let run := removeItem i now db in
    (sql_first (item_has_id i) (cart_items db) = None ->
     run = (inl (JsError ("Cart item not found: " +:+ i)), db)) /\
    (forall item,
        sql_first (item_has_id i) (cart_items db) = Some item ->
        (forall it, In it (cart_items (snd run)) <->
                    In it (cart_items db) /\ itemId it <> i) /\
        (forall cart,
            sql_first (has_id (cartId item)) (carts db) = Some cart ->
            fst run = inr tt) /\
        (sql_first (has_id (cartId item)) (carts db) = None ->
         fst run = inl (JsError ("Cart not found: " +:+ cartId item)))).
Proof.
  intros db i now run. subst run. rewrite removeItem_eq. split.
  - intros Hnone. rewrite Hnone. reflexivity.
  - intros item Hitem. rewrite Hitem.
    set (db1 := with_cart_items (sql_delete (item_has_id i)) db).
    split; [|split].
    + intros it.
      assert (Hitems : cart_items (snd (recalculateCart (cartId item) now db1))
                       = cart_items db1).
      { destruct (recalculateCart (cartId item) now db1) as [[e|[]] db'] eqn:Hrun.
        - apply recalculateCart_throws in Hrun as [-> _]. reflexivity.
        - apply recalculateCart_writes in Hrun as (total & tax & ->).
          reflexivity. }
      rewrite Hitems. subst db1. simpl. rewrite In_sql_delete.
      unfold item_has_id. rewrite String.eqb_neq. reflexivity.
    + intros cart Hcart.
      destruct (recalculateCart_found (cartId item) now db1 cart Hcart)
        as (total & tax & ->). reflexivity.
    + intros Hnone. rewrite recalculateCart_missing by exact Hnone.
      reflexivity.
Qed.

Lemma removeItem_deletes_the_item_witness :
  fst (removeItem "item_1" 200 scenario_final) = inr tt /\
  sql_first (item_has_id "item_1")
    (cart_items (snd (removeItem "item_1" 200 scenario_final))) = None.
Proof.
  destruct (removeItem_deletes_the_item scenario_final "item_1" 200)
    as (_ & Hknown).
  destruct (Hknown (mkCartItem "item_1" "cart_1" "P1" None 2%float 10%float 101))
    as (Hitems & Hreturns & _); [reflexivity|].
  split.
  - assert (Hcart : exists cart,
               sql_first (has_id "cart_1") (carts scenario_final) = Some cart)
      by (vm_compute; eexists; reflexivity).
    destruct Hcart as [cart Hcart]. apply (Hreturns cart). exact Hcart.
  - clear Hknown Hreturns.
    destruct (sql_first (item_has_id "item_1")
                (cart_items (snd (removeItem "item_1" 200 scenario_final))))
      as [it|] eqn:Hit; [|reflexivity].
    apply sql_first_Some in Hit as [Hin Hid].
    destruct (proj1 (Hitems it) Hin) as [_ Hne]. destruct Hne.
    apply String.eqb_eq. exact Hid.
Defined.

(** X6.  [applyCoupon], [removeCoupon] and [setShipping] on a cart that
    does not exist throw cart-not-found, as [recalculateCart] does, and
    leave the tables as they were. *)
Theorem requests_on_a_missing_cart :
  forall (db : Cart.DB) (c : string) (now : Z),
    sql_first (has_id c) (carts db) = None ->
    let thrown := JsError ("Cart not found: " +:+ c) in
    recalculateCart c now db = (inl thrown, db) /\
    (forall code discount, applyCoupon c code discount now db = (inl thrown, db)) /\
    removeCoupon c now db = (inl thrown, db) /\
    (forall cost, setShipping c cost now db = (inl thrown, db)).
Proof.
  intros db c now Hnone thrown. subst thrown.
  assert (Hcarts : forall h, with_carts (sql_update (has_id c) h) db = db).
  { intros h. apply with_carts_unchanged. apply sql_update_none.
    apply sql_first_None. exact Hnone. }
  split; [|split; [|split]].
  - apply recalculateCart_missing. exact Hnone.
  - intros code discount.
    change (applyCoupon c code discount now db)
      with (recalculateCart c now
              (with_carts (sql_update (has_id c)
                             (set_coupon (Some code) discount now)) db)).
    rewrite Hcarts. apply recalculateCart_missing. exact Hnone.
  - change (removeCoupon c now db)
      with (recalculateCart c now
              (with_carts (sql_update (has_id c) (set_coupon None 0%float now)) db)).
    rewrite Hcarts. apply recalculateCart_missing. exact Hnone.
  - intros cost.
    change (setShipping c cost now db)
      with (recalculateCart c now
              (with_carts (sql_update (has_id c) (set_shipping cost now)) db)).
    rewrite Hcarts. apply recalculateCart_missing. exact Hnone.
Qed.

Lemma requests_on_a_missing_cart_witness :
  applyCoupon "cart_9" "SAVE5" 5%float 200 scenario_db
    = (inl (JsError "Cart not found: cart_9"), scenario_db) /\
  setShipping "cart_9" 5%float 200 scenario_db
    = (inl (JsError "Cart not found: cart_9"), scenario_db).
Proof.
  destruct (requests_on_a_missing_cart scenario_db "cart_9" 200 eq_refl)
    as (_ & Hcoupon & _ & Hshipping).
  split; [apply Hcoupon | apply Hshipping].
Defined.

Lemma first_after_update_and_recompute c (h : Cart -> Cart) now db cart :
  (forall r, id (h r) = id r) ->
  sql_first (has_id c) (carts db) = Some cart ->
  exists total tax,
    recalculateCart c now (with_carts (sql_update (has_id c) h) db)
    = (inr tt,
       with_carts (sql_update (has_id c) (set_totals total tax now))
         (with_carts (sql_update (has_id c) h) db)) /\
    sql_first (has_id c)
      (carts (with_carts (sql_update (has_id c) (set_totals total tax now))
                (with_carts (sql_update (has_id c) h) db)))
    = Some (set_totals total tax now (h cart)).
Proof.
  intros Hid Hcart.
  assert (Hfirst : sql_first (has_id c)
                     (carts (with_carts (sql_update (has_id c) h) db))
                   = Some (h cart)).
  { simpl. rewrite sql_first_update_same
      by (intros r; unfold has_id; rewrite Hid; reflexivity).
    rewrite Hcart. reflexivity. }
  destruct (recalculateCart_found c now _ _ Hfirst) as (total & tax & Hrun).
  exists total, tax. split; [exact Hrun|].
  cbn [carts with_carts] in Hfirst |- *.
  rewrite sql_first_update_same by reflexivity.
  rewrite Hfirst. reflexivity.
Qed.

(** X7.  Applying a coupon and then removing it brings the totals back:
    for a cart whose row carried the totals the code computes from its
    items and whose discount was 0, the tax and the total after
    [applyCoupon] followed by [removeCoupon] are those before, the
    discount is 0 again and no coupon code is left. *)
Theorem coupon_apply_then_remove_restores_totals :
  forall (db : Cart.DB) (c code : string) (discount : float) (now now' : Z)
         (cart : Cart),
    sql_first (has_id c) (carts db) = Some cart ->
    totals_identity (or_zero (store_tax_rate db cart)) db cart ->
    couponDiscount cart = 0%float ->
    let db' := snd (removeCoupon c now'
                      (snd (applyCoupon c code discount now db))) in
    exists cart',
      sql_first (has_id c) (carts db') = Some cart' /\
      totalTax cart' = totalTax cart /\
      totalPrice cart' = totalPrice cart /\
      couponDiscount cart' = 0%float /\ couponCode cart' = None /\
      totalShipping cart' = totalShipping cart.
Proof.
  intros db c code discount now now' cart Hcart [Htax Htotal] Hzero db'.
  subst db'.
  change (applyCoupon c code discount now db)
    with (recalculateCart c now
            (with_carts (sql_update (has_id c)
                           (set_coupon (Some code) discount now)) db)).
  destruct (first_after_update_and_recompute c
              (set_coupon (Some code) discount now) now db cart
              ltac:(reflexivity) Hcart)
    as (total1 & tax1 & -> & Hfirst1).
  cbn [snd].
  set (db1 := with_carts _ (with_carts _ db)) in *.
  change (removeCoupon c now' db1)
    with (recalculateCart c now'
            (with_carts (sql_update (has_id c) (set_coupon None 0%float now'))
               db1)).
  destruct (first_after_update_and_recompute c (set_coupon None 0%float now')
              now' db1 _ ltac:(reflexivity) Hfirst1)
    as (total2 & tax2 & Hrun & Hfirst2).
  rewrite Hrun. cbn [snd].
  destruct (recalculateCart_totals _ _ _ _ Hrun)
    as (cart' & Hfirst' & _ & Hitems & Hstores & [Htax' Htotal']).
  rewrite Hfirst2 in Hfirst'. injection Hfirst' as <-.
  assert (Htax2 : tax2 = (subtotal_from_items (id cart) db
                          * (or_zero (store_tax_rate db cart) / 100))%float)
    by exact Htax'.
  assert (Htotal2 : total2 = (subtotal_from_items (id cart) db + tax2
                              + totalShipping cart - 0)%float)
    by exact Htotal'.
  rewrite <- Htax in Htax2.
  eexists. split; [exact Hfirst2|].
  split; [exact Htax2|]. split; [|repeat split].
  change (total2 = totalPrice cart).
  rewrite Htotal2, Htotal, Htax2, Hzero. reflexivity.
Qed.

Lemma coupon_apply_then_remove_restores_totals_witness :
  let db := snd (run_op rounding_op 101 rounding_db) in
  exists cart',
    sql_first (has_id "cart_7")
      (carts (snd (removeCoupon "cart_7" 201
                     (snd (applyCoupon "cart_7" "SAVE5" 5%float 200 db)))))
      = Some cart' /\
    totalTax cart' = (100 * (7 / 100))%float /\
    totalPrice cart' = 107%float.
Proof.
  intros db.
  assert (Hcart : exists cart,
             sql_first (has_id "cart_7") (carts db) = Some cart)
    by (vm_compute; eexists; reflexivity).
  destruct Hcart as [cart Hcart].
  pose proof Hcart as Hcart0. vm_compute in Hcart0. injection Hcart0 as Hcart0.
  destruct (coupon_apply_then_remove_restores_totals db "cart_7" "SAVE5"
              5%float 200 201 cart Hcart)
    as (cart' & Hfirst & Htax & Htotal & _).
  - rewrite <- Hcart0. split; vm_compute; reflexivity.
  - rewrite <- Hcart0. vm_compute. reflexivity.
  - exists cart'. split; [exact Hfirst|].
    rewrite Htax, Htotal, <- Hcart0. split; vm_compute; reflexivity.
Defined.

Lemma live_at_spec now c :
  live_at now c = true <-> exists t, expiresAt c = Some t /\ now < t.
Proof.
  unfold live_at. destruct (expiresAt c) as [t|].
  - rewrite Z.ltb_lt. split.
    + intros Hlt. exists t. split; [reflexivity | exact Hlt].
    + intros (t' & Heq & Hlt). injection Heq as <-. exact Hlt.
  - split; [discriminate | intros (t & Heq & _); discriminate].
Qed.

Lemma column_is_spec value column :
  column_is value column = true <-> column = Some value.
Proof.
  unfold column_is. destruct column as [v|].
  - rewrite String.eqb_eq. split; [intros ->; reflexivity|].
    intros H. injection H as ->. reflexivity.
  - split; discriminate.
Qed.

(** The newest of the rows a query selects. *)
Lemma newest_spec (p : Cart -> bool) (table : list Cart) :
  match newest (sql_all p table) with
  | Some c =>
      In c table /\ p c = true /\
      forall c', In c' table -> p c' = true -> createdAt c' <= createdAt c
  | None => forall c', In c' table -> p c' = false
  end.
Proof.
  unfold newest.
  destruct (hd_error (sql_order_by (fun c => - createdAt c) (sql_all p table)))
    as [c|] eqn:Hhead.
  - apply sql_order_by_head in Hhead as [Hin Hmin].
    apply In_sql_all in Hin as [Hin Hp].
    split; [exact Hin|]. split; [exact Hp|].
    intros c' Hin' Hp'.
    assert (Hle : - createdAt c <= - createdAt c')
      by (apply Hmin; apply In_sql_all; split; assumption).
    lia.
  - intros c' Hin'. destruct (p c') eqn:Hp'; [|reflexivity].
    destruct (sql_order_by (fun c => - createdAt c) (sql_all p table))
      as [|h rest] eqn:Hsorted; [|discriminate].
    apply sql_order_by_nil in Hsorted.
    assert (Hin : In c' (sql_all p table))
      by (apply In_sql_all; split; assumption).
    rewrite Hsorted in Hin. destruct Hin.
Qed.

(** A sweep run no later than [now] does not change what a query for
    carts alive at [now] selects. *)
Lemma sweep_keeps_live_carts (p : Cart -> bool) now t table :
  t <= now ->
  (forall c, p c = true -> live_at now c = true) ->
  sql_all p (sql_delete (expired t) table) = sql_all p table.
Proof.
  intros Ht Hlive. apply sql_all_delete_implied.
  intros c _ Hp. apply Hlive in Hp. apply live_at_spec in Hp as (e & He & Hlt).
  unfold expired. rewrite He. apply Z.ltb_ge. lia.
Qed.

(** X8.  [getUserCart] and [getSessionCart] return a cart of the store
    and of the owner asked for whose expiry is later than now, and among
    those one created last; they return null exactly when there is no
    such cart.  A cart without expiry is never returned.  A sweep of
    [deleteExpiredCarts] run no later than now does not change their
    answer. *)
Theorem owner_cart_is_newest_unexpired :
  forall (db : Cart.DB) (store owner : string) (now : Z),
    (forall c,
        fst (getUserCart store owner now db) = inr (Some c) ->
        In c (carts db) /\ storeId c = store /\ userId c = Some owner /\
        (exists t, expiresAt c = Some t /\ now < t) /\
        forall c', In c' (carts db) -> storeId c' = store ->
                   userId c' = Some owner -> live_at now c' = true ->
                   createdAt c' <= createdAt c) /\
    (fst (getUserCart store owner now db) = inr None ->
     forall c', In c' (carts db) -> storeId c' = store ->
                userId c' = Some owner -> live_at now c' = false) /\
    (forall c,
        fst (getSessionCart store owner now db) = inr (Some c) ->
        In c (carts db) /\ storeId c = store /\ sessionId c = Some owner /\
        (exists t, expiresAt c = Some t /\ now < t) /\
        forall c', In c' (carts db) -> storeId c' = store ->
                   sessionId c' = Some owner -> live_at now c' = true ->
                   createdAt c' <= createdAt c) /\
    (fst (getSessionCart store owner now db) = inr None ->
     forall c', In c' (carts db) -> storeId c' = store ->
                sessionId c' = Some owner -> live_at now c' = false) /\
    (forall t cascade,
        t <= now ->
        let swept := snd (deleteExpiredCarts cascade t db) in
        fst (getUserCart store owner now swept)
          = fst (getUserCart store owner now db) /\
        fst (getSessionCart store owner now swept)
          = fst (getSessionCart store owner now db)).
Proof.
  intros db store owner now.
  assert (Hquery : forall (column : Cart -> option string),
    let p := fun c => String.eqb (storeId c) store
                      && column_is owner (column c) && live_at now c in
    (forall c, newest (sql_all p (carts db)) = Some c ->
       In c (carts db) /\ storeId c = store /\ column c = Some owner /\
       (exists t, expiresAt c = Some t /\ now < t) /\
       forall c', In c' (carts db) -> storeId c' = store ->
                  column c' = Some owner -> live_at now c' = true ->
                  createdAt c' <= createdAt c) /\
    (newest (sql_all p (carts db)) = None ->
     forall c', In c' (carts db) -> storeId c' = store ->
                column c' = Some owner -> live_at now c' = false)).
  { intros column p.
    assert (Hp : forall c, p c = true <->
                   storeId c = store /\ column c = Some owner /\
                   live_at now c = true).
    { intros c. unfold p.
      rewrite !andb_true_iff, String.eqb_eq, column_is_spec. tauto. }
    pose proof (newest_spec p (carts db)) as Hnewest.
    split.
    - intros c Hc. rewrite Hc in Hnewest.
      destruct Hnewest as (Hin & Hpc & Hmax).
      apply Hp in Hpc as (Hstore & Hcolumn & Hlive).
      split; [exact Hin|]. split; [exact Hstore|]. split; [exact Hcolumn|].
      split; [apply live_at_spec; exact Hlive|].
      intros c' Hin' Hs' Hc' Hl'. apply Hmax; [exact Hin'|].
      apply Hp. repeat split; assumption.
    - intros Hnone. rewrite Hnone in Hnewest.
      intros c' Hin' Hs' Hc'. specialize (Hnewest c' Hin').
      destruct (live_at now c') eqn:Hl'; [|reflexivity].
      assert (Hyes : p c' = true) by (apply Hp; repeat split; assumption).
      rewrite Hyes in Hnewest. discriminate. }
  destruct (Hquery userId) as [Huser Huser_none].
  destruct (Hquery sessionId) as [Hsession Hsession_none].
  unfold getUserCart, getSessionCart, gets; simpl.
  split; [intros c H; injection H as H; apply Huser; exact H|].
  split; [intros H; injection H as H; apply Huser_none; exact H|].
  split; [intros c H; injection H as H; apply Hsession; exact H|].
  split; [intros H; injection H as H; apply Hsession_none; exact H|].
  intros t cascade Ht.
  unfold deleteExpiredCarts, modify, sql_delete_carts; simpl.
  split; (rewrite (sweep_keeps_live_carts _ now t); [reflexivity | exact Ht |]);
    intros c Hc; apply andb_true_iff in Hc as [_ Hc]; exact Hc.
Qed.

Lemma owner_cart_is_newest_unexpired_witness :
  (exists c, fst (getSessionCart "store_1" "s2" 1000 sweep_db) = inr (Some c)
             /\ id c = "cart_new") /\
  fst (getSessionCart "store_1" "s1" 1000 sweep_db) = inr None /\
  fst (getSessionCart "store_1" "s2" 1000
         (snd (deleteExpiredCarts true 1000 sweep_db)))
    = fst (getSessionCart "store_1" "s2" 1000 sweep_db).
Proof.
  destruct (owner_cart_is_newest_unexpired sweep_db "store_1" "s2" 1000)
    as (_ & _ & Hfound & _ & Hswept).
  split; [|split].
  - assert (Hget : exists c,
               fst (getSessionCart "store_1" "s2" 1000 sweep_db) = inr (Some c))
      by (vm_compute; eexists; reflexivity).
    destruct Hget as [c Hget]. exists c. split; [exact Hget|].
    destruct (Hfound c Hget) as (Hin & _ & Hsession & _).
    simpl in Hin. destruct Hin as [<-|[<-|[]]]; [discriminate | reflexivity].
  - vm_compute. reflexivity.
  - apply (Hswept 1000 true). lia.
Defined.

End CartMoreFacts.

(** * Orders: creation, numbers and the status transitions *)

Section OrderMoreFacts.
Import Js Order.

Lemma fresh_order_id_spec (db : Order.DB) i :
  (forall o, In o db -> id o <> i) ->
  forall o, In o db -> has_id i o = false.
Proof.
  intros Hfresh o Hin. unfold has_id. apply String.eqb_neq.
  apply Hfresh. exact Hin.
Qed.

(** X9.  An order made by [createOrder] under a new id and a new number
    is read back by [getOrder], and by [getOrderByNumber] under its store
    and number, pending, unpaid and unshipped, with the subtotal, tax,
    shipping, discount and total exactly as supplied (whether or not
    they add up), the currency defaulting to USD, empty notes stored as
    NULL and no payment id.  The orders under other ids read as before. *)
Theorem createOrder_then_getOrder :
  forall (db : Order.DB) (input : CreateOrderInput) (newId newNumber : string)
         (now : Z),
    (forall o, In o db -> id o <> newId) ->
    (forall o, In o db -> orderNumber o <> newNumber) ->
    let db' := snd (createOrder input newId newNumber now db) in
    (exists row,
        fst (getOrder newId db') = inr (Some row) /\
        fst (getOrderByNumber (input_storeId input) newNumber db')
          = inr (Some row) /\
        status row = pending /\ paymentStatus row = payment_unpaid /\
        shippingStatus row = unshipped /\
        subtotal row = input_subtotal input /\ tax row = input_tax input /\
        shipping row = input_shipping input /\
        discount row = input_discount input /\ total row = input_total input /\
        currency row = or_USD (input_currency input) /\
        orderNumber row = newNumber /\
        notes row = or_null_string (input_notes input) /\
        paymentId row = None) /\
    (forall j, j <> newId -> fst (getOrder j db') = fst (getOrder j db)).
Proof.
  intros db input newId newNumber now Hfresh Hnumber db'. subst db'.
  unfold createOrder, getOrder, getOrderByNumber, bind, gets, modify, ret;
    simpl. split.
  - rewrite !sql_first_insert_fresh.
    + eexists. split; [reflexivity|]. split; [reflexivity|].
      simpl. repeat split.
    + intros o Hin. apply andb_false_iff. right.
      apply String.eqb_neq. apply Hnumber. exact Hin.
    + simpl. rewrite !String.eqb_refl. reflexivity.
    + apply fresh_order_id_spec. exact Hfresh.
    + unfold has_id. simpl. apply String.eqb_refl.
  - intros j Hj. rewrite sql_first_app.
    destruct (sql_first (has_id j) db); [reflexivity|].
    unfold has_id; simpl.
    destruct (String.eqb newId j) eqn:Heq; [|reflexivity].
    apply String.eqb_eq in Heq. destruct Hj. symmetry. exact Heq.
Qed.

Lemma createOrder_then_getOrder_witness :
  exists row,
    fst (getOrderByNumber "store_1" "ORD-1700000000500"
           (snd (createOrder input_118 "order_2" "ORD-1700000000500" 1700000000
                   [order_118]))) = inr (Some row) /\
    total row = 118%Q /\ currency row = "USD" /\ notes row = None.
Proof.
  destruct (createOrder_then_getOrder [order_118] input_118 "order_2"
              "ORD-1700000000500" 1700000000)
    as [(row & _ & Hget & _ & _ & _ & _ & _ & _ & _ & Htotal & Hcur & _
         & Hnotes & _) _].
  - intros o [<-|[]]. discriminate.
  - intros o [<-|[]]. discriminate.
  - exists row. split; [exact Hget|].
    split; [exact Htotal|]. split; [exact Hcur | exact Hnotes].
Defined.

Lemma update_missing_order (g : Order -> Order) i (db : Order.DB) :
  sql_first (has_id i) db = None -> sql_update (has_id i) g db = db.
Proof. intros Hnone. apply sql_update_none. apply sql_first_None. exact Hnone. Qed.

(** X10.  On an order id that does not exist, [updateOrder] throws
    order-not-found, whereas [updateOrderStatus], [updatePaymentStatus],
    [updateShippingStatus], [cancelOrder] and [markAsPaid] return as if
    they had succeeded; none of them writes anything. *)
Theorem transitions_on_a_missing_order :
  forall (db : Order.DB) (i : string) (now : Z),
    sql_first (has_id i) db = None ->
    (forall input,
        updateOrder i input now db
        = (inl (JsError ("Order not found: " +:+ i)), db)) /\
    (forall st, updateOrderStatus i st now db = (inr tt, db)) /\
    (forall pst, updatePaymentStatus i pst now db = (inr tt, db)) /\
    (forall sst, updateShippingStatus i sst now db = (inr tt, db)) /\
    cancelOrder i now db = (inr tt, db) /\
    (forall payment, markAsPaid i payment now db = (inr tt, db)).
Proof.
  intros db i now Hnone.
  split; [|split; [|split; [|split; [|split]]]].
  - intros input. unfold updateOrder, getOrder, bind, gets, throw.
    rewrite Hnone. reflexivity.
  - intros st. unfold updateOrderStatus, modify.
    rewrite update_missing_order by exact Hnone. reflexivity.
  - intros pst. unfold updatePaymentStatus, modify.
    rewrite update_missing_order by exact Hnone. reflexivity.
  - intros sst. unfold updateShippingStatus, modify.
    rewrite update_missing_order by exact Hnone. reflexivity.
  - unfold cancelOrder, updateOrderStatus, modify.
    rewrite update_missing_order by exact Hnone. reflexivity.
  - intros payment. unfold markAsPaid, modify.
    destruct (truthy_string payment);
      rewrite update_missing_order by exact Hnone; reflexivity.
Qed.

Lemma transitions_on_a_missing_order_witness :
  fst (updateOrder "order_9" (mkUpdateOrderInput (Some paid) None None None None)
         200 [order_118]) = inl (JsError "Order not found: order_9") /\
  markAsPaid "order_9" (Some "pay_1") 200 [order_118] = (inr tt, [order_118]).
Proof.
  destruct (transitions_on_a_missing_order [order_118] "order_9" 200 eq_refl)
    as (Hupdate & _ & _ & _ & _ & Hpaid).
  split; [rewrite Hupdate; reflexivity | apply Hpaid].
Defined.

(** X11.  [updateOrder] on an order that exists changes the statuses,
    the notes and the metadata that its input carries and keeps those it
    does not carry; the payment id is kept and the update time is set.
    The stored notes are NULL when the notes are empty. *)
Theorem updateOrder_changes_only_given_fields :
  forall (db : Order.DB) (i : string) (input : UpdateOrderInput) (now : Z)
         (o : Order),
    sql_first (has_id i) db = Some o ->
    let run := updateOrder i input now db in
    exists updated row,
      fst run = inr updated /\
      sql_first (has_id i) (snd run) = Some row /\
      status row = status updated /\
      paymentStatus row = paymentStatus updated /\
      shippingStatus row = shippingStatus updated /\
      (forall st, upd_status input = Some st -> status row = st) /\
      (upd_status input = None -> status row = status o) /\
      (forall pst, upd_paymentStatus input = Some pst -> paymentStatus row = pst) /\
      (upd_paymentStatus input = None -> paymentStatus row = paymentStatus o) /\
      (forall sst, upd_shippingStatus input = Some sst -> shippingStatus row = sst) /\
      (upd_shippingStatus input = None -> shippingStatus row = shippingStatus o) /\
      (forall n, upd_notes input = Some n -> notes row = or_null_string (Some n)) /\
      (upd_notes input = None -> notes row = or_null_string (notes o)) /\
      (forall m, upd_metadata input = Some m -> metadata row = Some m) /\
      (upd_metadata input = None -> metadata row = metadata o) /\
      paymentId row = paymentId o /\ updatedAt row = now.
Proof.
  intros db i input now o Hfirst run. subst run.
  unfold updateOrder, getOrder, bind, gets, modify, ret, throw.
  rewrite Hfirst. cbn [fst snd].
  rewrite sql_first_update_same by reflexivity.
  rewrite Hfirst. cbn [option_map].
  eexists. eexists. split; [reflexivity|]. split; [reflexivity|].
  cbn. destruct input as [st pst sst nt md]; cbn.
  repeat split; intros; subst; reflexivity.
Qed.

Lemma updateOrder_changes_only_given_fields_witness :
  exists row,
    sql_first (has_id "order_1")
      (snd (updateOrder "order_1"
              (mkUpdateOrderInput None (Some payment_failed) None (Some "") None)
              200 [order_118])) = Some row /\
    status row = pending /\ paymentStatus row = payment_failed /\
    notes row = None.
Proof.
  destruct (updateOrder_changes_only_given_fields [order_118] "order_1"
              (mkUpdateOrderInput None (Some payment_failed) None (Some "") None)
              200 order_118 eq_refl)
    as (updated & row & _ & Hrow & _ & _ & _ & _ & Hstatus & Hpayment & _ & _
        & _ & Hnotes & _).
  exists row. split; [exact Hrow|].
  split; [apply Hstatus; reflexivity|].
  split; [apply Hpayment; reflexivity|].
  apply (Hnotes ""). reflexivity.
Defined.

Lemma first_after_update (g : Order -> Order) i (db : Order.DB) o :
  (forall r, id (g r) = id r) ->
  sql_first (has_id i) db = Some o ->
  sql_first (has_id i) (sql_update (has_id i) g db) = Some (g o).
Proof.
  intros Hid Hfirst.
  rewrite sql_first_update_same
    by (intros r; unfold has_id; rewrite Hid; reflexivity).
  rewrite Hfirst. reflexivity.
Qed.

(** X12.  [markAsPaid] and [cancelOrder] apply to an order in any
    state.  [markAsPaid] makes it processing and paid, records the
    payment id when one is given (an empty one is not) and keeps the
    shipping status.  [cancelOrder] makes it cancelled and keeps the
    payment status, the shipping status and the payment id: cancelling a
    paid order leaves it paid, and paying a cancelled order makes it
    processing again. *)
Theorem markAsPaid_and_cancelOrder_are_unconditional :
  forall (db : Order.DB) (i : string) (payment : option string) (now now' : Z)
         (o : Order),
    sql_first (has_id i) db = Some o ->
    (exists row,
        fst (markAsPaid i payment now db) = inr tt /\
        sql_first (has_id i) (snd (markAsPaid i payment now db)) = Some row /\
        status row = processing /\ paymentStatus row = payment_paid /\
        shippingStatus row = shippingStatus o /\
        paymentId row = (if truthy_string payment then payment else paymentId o)) /\
    (exists row,
        sql_first (has_id i) (snd (cancelOrder i now db)) = Some row /\
        status row = cancelled /\ paymentStatus row = paymentStatus o /\
        shippingStatus row = shippingStatus o /\ paymentId row = paymentId o) /\
    (exists row,
        sql_first (has_id i)
          (snd (cancelOrder i now' (snd (markAsPaid i payment now db)))) = Some row /\
        status row = cancelled /\ paymentStatus row = payment_paid) /\
    (exists row,
        sql_first (has_id i)
          (snd (markAsPaid i payment now' (snd (cancelOrder i now db)))) = Some row /\
        status row = processing /\ paymentStatus row = payment_paid).
Proof.
  intros db i payment now now' o Hfirst.
  assert (Hpaid : forall db0 o0 t,
             sql_first (has_id i) db0 = Some o0 ->
             exists row,
               sql_first (has_id i) (snd (markAsPaid i payment t db0)) = Some row /\
               status row = processing /\ paymentStatus row = payment_paid /\
               shippingStatus row = shippingStatus o0 /\
               paymentId row
               = (if truthy_string payment then payment else paymentId o0)).
  { intros db0 o0 t H0. unfold markAsPaid, modify.
    destruct (truthy_string payment); cbn [snd];
      rewrite (first_after_update _ i db0 o0) by (reflexivity || exact H0);
      eexists; (split; [reflexivity|]); cbn; repeat split. }
  assert (Hcancel : forall db0 o0 t,
             sql_first (has_id i) db0 = Some o0 ->
             exists row,
               sql_first (has_id i) (snd (cancelOrder i t db0)) = Some row /\
               status row = cancelled /\ paymentStatus row = paymentStatus o0 /\
               shippingStatus row = shippingStatus o0 /\
               paymentId row = paymentId o0).
  { intros db0 o0 t H0. unfold cancelOrder, updateOrderStatus, modify.
    cbn [snd]. rewrite (first_after_update _ i db0 o0) by (reflexivity || exact H0).
    eexists. split; [reflexivity|]. cbn. repeat split. }
  split; [|split; [|split]].
  - destruct (Hpaid db o now Hfirst) as (row & Hrow & Hrest).
    exists row. split; [|split; [exact Hrow | exact Hrest]].
    unfold markAsPaid, modify. destruct (truthy_string payment); reflexivity.
  - apply Hcancel. exact Hfirst.
  - destruct (Hpaid db o now Hfirst) as (row & Hrow & _ & Hp & _).
    destruct (Hcancel _ row now' Hrow) as (row' & Hrow' & Hst & Hp' & _).
    exists row'. split; [exact Hrow'|]. split; [exact Hst|].
    rewrite Hp'. exact Hp.
  - destruct (Hcancel db o now Hfirst) as (row & Hrow & _).
    destruct (Hpaid _ row now' Hrow) as (row' & Hrow' & Hst & Hp & _).
    exists row'. split; [exact Hrow'|]. split; [exact Hst | exact Hp].
Qed.

Lemma markAsPaid_and_cancelOrder_are_unconditional_witness :
  exists row,
    sql_first (has_id "order_1")
      (snd (cancelOrder "order_1" 300
              (snd (markAsPaid "order_1" (Some "pay_1") 200 [order_118]))))
      = Some row /\
    status row = cancelled /\ paymentStatus row = payment_paid.
Proof.
  destruct (markAsPaid_and_cancelOrder_are_unconditional [order_118] "order_1"
              (Some "pay_1") 200 300 order_118 eq_refl)
    as (_ & _ & Hboth & _).
  exact Hboth.
Defined.

End OrderMoreFacts.

(** * Payments: the registry, the audit trail and refunds *)

Section PaymentMoreFacts.
Import Js Payment.

(** [processPayment], step by step. *)
Lemma processPayment_eq input newId now s :
  processPayment input newId now s =
  let row := pending_payment input newId now in
  let s1 := emit (InsertPayment newId pending)
              (with_payments (sql_insert row) s) in
  match gateways s !! paymentMethodType input with
  | None =>
      (inl (JsError ("Payment gateway not registered: "
                     +:+ gateway_name (paymentMethodType input))), s1)
  | Some gateway =>
      match process gateway (process_args input) with
      | inr tx =>
          (inr (set_completed tx now row),
           emit (UpdatePayment newId completed)
             (with_payments (sql_update (has_id newId) (set_completed tx now))
                (emit (CallProcess (process_args input)) s1)))
      | inl error =>
          (inl error,
           emit (UpdatePayment newId failed)
             (with_payments
                (sql_update (has_id newId) (set_failed (message_of error) now))
                (emit (CallProcess (process_args input)) s1)))
      end
  end.
Proof.
  unfold processPayment, createPayment, bind, gets, modify, ret, throw,
    try_catch, call_process, process_args, pending_payment.
  cbn [fst snd gateways emit with_payments id status].
  destruct (gateways s !! paymentMethodType input) as [gateway|];
    [|reflexivity].
  destruct (process gateway _); reflexivity.
Qed.

(** X13.  A gateway registered under a type serves the payments of that
    type from then on, in place of whatever was registered before: with
    a new payment id, [processPayment] returns the completed payment when
    the handler resolves and throws the handler's error when it rejects,
    never the not-registered error.  Registration changes the entry of no
    other type and writes to no table. *)
Theorem registerGateway_then_processPayment :
  forall (s : Service) (handler : PaymentGatewayHandler)
         (input : ProcessPaymentInput) (newId : string) (now : Z),
    fresh_payment_id newId s ->
    let s1 := snd (registerGateway (paymentMethodType input) handler s) in
    let row := pending_payment input newId now in
    fst (processPayment input newId now s1)
      = match process handler (process_args input) with
        | inr tx => inr (set_completed tx now row)
        | inl error => inl error
        end /\
    sql_first (has_id newId) (payments (snd (processPayment input newId now s1)))
      = Some (match process handler (process_args input) with
              | inr tx => set_completed tx now row
              | inl error => set_failed (message_of error) now row
              end) /\
    (forall type, type <> paymentMethodType input ->
                  gateways s1 !! type = gateways s !! type) /\
    payments s1 = payments s /\ refunds s1 = refunds s /\ trace s1 = trace s.
Proof.
  intros s handler input newId now Hfresh s1 row. subst s1 row.
  unfold registerGateway, modify. cbn [snd].
  rewrite processPayment_eq. cbv zeta. cbn [gateways payments refunds trace].
  rewrite lookup_insert_eq.
  split; [|split; [|split; [|repeat split]]].
  - destruct (process handler (process_args input)); reflexivity.
  - assert (Hself : has_id newId (pending_payment input newId now) = true)
      by (unfold has_id; cbn; apply String.eqb_refl).
    destruct (process handler (process_args input));
      cbn [snd payments with_payments emit];
      rewrite sql_update_fresh
        by (apply fresh_payment_id_spec; exact Hfresh);
      (rewrite sql_first_fresh_app
         by (apply fresh_payment_id_spec; exact Hfresh));
      rewrite Hself; unfold sql_first; cbn [find];
      (match goal with
       | |- context [has_id newId ?r] =>
           replace (has_id newId r) with true
             by (unfold has_id; cbn; symmetry; apply String.eqb_refl)
       end); reflexivity.
  - intros type Hne. apply lookup_insert_ne. intros Heq. apply Hne.
    symmetry. exact Heq.
Qed.

Lemma registerGateway_then_processPayment_witness :
  let s1 := snd (registerGateway stripe accepting_gateway
                   (charge_service declining_gateway)) in
  fst (processPayment (charge_input stripe) "pay_9" 300 s1)
    = inr (set_completed "txn_1" 300
             (pending_payment (charge_input stripe) "pay_9" 300)).
Proof.
  intros s1.
  destruct (registerGateway_then_processPayment
              (charge_service declining_gateway) accepting_gateway
              (charge_input stripe) "pay_9" 300) as (Hresult & _).
  - intros p [].
  - exact Hresult.
Defined.

Lemma sql_update_length {Row} (p : Row -> bool) (f : Row -> Row) table :
  length (sql_update p f table) = length table.
Proof. unfold sql_update. apply length_map. Qed.

Lemma sql_update_after_untouched {Row} (p : Row -> bool) (f : Row -> Row)
    old rest :
  (forall r, In r old -> p r = false) ->
  sql_update p f (old ++ rest) = old ++ sql_update p f rest.
Proof.
  intros Hold. unfold sql_update. rewrite map_app. f_equal.
  apply (sql_update_none p f old Hold).
Qed.

Lemma terminal_after_update newId (g : Payment -> Payment) rows row :
  (forall r, terminal (g r)) ->
  has_id newId row = true ->
  Forall terminal rows ->
  Forall terminal (sql_update (has_id newId) g (rows ++ [row])).
Proof.
  intros Hg Hrow Hrows. rewrite List.Forall_forall in Hrows |- *.
  intros r' Hin. apply In_sql_update in Hin as (r & Hin & ->).
  destruct (has_id newId r) eqn:Hr; [apply Hg|].
  apply in_app_or in Hin as [Hin|[<-|[]]]; [apply Hrows; exact Hin|].
  rewrite Hrow in Hr. discriminate.
Qed.

(** One [processPayment] call, seen from the rows that were there
    before the run began ([old]) and those the run has added so far. *)
Lemma processPayment_adds_one_row input newId now s old added :
  payments s = old ++ added ->
  (forall p, In p old -> id p <> newId) ->
  let s' := snd (processPayment input newId now s) in
  gateways s' = gateways s /\ refunds s' = refunds s /\
  length (payments s') = S (length (payments s)) /\
  exists added',
    payments s' = old ++ added' /\
    (is_Some (gateways s !! paymentMethodType input) ->
     Forall terminal added -> Forall terminal added').
Proof.
  intros Hrows Hfresh s'. subst s'.
  assert (Hold : forall r, In r old -> has_id newId r = false).
  { intros r Hin. unfold has_id. apply String.eqb_neq. apply Hfresh. exact Hin. }
  assert (Hself : has_id newId (pending_payment input newId now) = true)
    by (unfold has_id; cbn; apply String.eqb_refl).
  rewrite processPayment_eq. cbv zeta.
  destruct (gateways s !! paymentMethodType input) as [gateway|] eqn:Hgateway.
  - destruct (process gateway (process_args input)) as [error|tx];
      cbn [snd gateways refunds payments with_payments emit];
      (split; [reflexivity|]); (split; [reflexivity|]);
      (split; [rewrite sql_update_length; unfold sql_insert;
               rewrite length_app; simpl; lia|]);
      unfold sql_insert; rewrite Hrows, <- app_assoc;
      rewrite sql_update_after_untouched by exact Hold;
      eexists; (split; [reflexivity|]); intros _ Hadded;
      (apply terminal_after_update; [|exact Hself|exact Hadded]);
      intros r; [right | left]; reflexivity.
  - cbn [snd gateways refunds payments with_payments emit].
    split; [reflexivity|]. split; [reflexivity|].
    split; [unfold sql_insert; rewrite length_app; simpl; lia|].
    unfold sql_insert. rewrite Hrows, <- app_assoc.
    eexists. split; [reflexivity|]. intros [g Hg]. discriminate.
Qed.

(** A run of [processPayment] calls, seen from the payments table. *)
Lemma processPayment_all_rows :
  forall (calls : list (ProcessPaymentInput * string * Z)) (s : Service),
    let s' := processPayment_all calls s in
    length (payments s') = (length (payments s) + length calls)%nat /\
    refunds s' = refunds s /\ gateways s' = gateways s /\
    ((forall input newId now,
         In (input, newId, now) calls -> fresh_payment_id newId s) ->
     exists added,
       payments s' = payments s ++ added /\
       ((forall input newId now,
            In (input, newId, now) calls ->
            is_Some (gateways s !! paymentMethodType input)) ->
        Forall terminal added)).
Proof.
  intros calls s s'. subst s'.
  assert (Hrun : forall calls s old added,
    payments s = old ++ added ->
    length (payments (processPayment_all calls s))
      = (length (payments s) + length calls)%nat /\
    refunds (processPayment_all calls s) = refunds s /\
    gateways (processPayment_all calls s) = gateways s /\
    ((forall input newId now,
         In (input, newId, now) calls ->
         forall p, In p old -> id p <> newId) ->
     exists added',
       payments (processPayment_all calls s) = old ++ added' /\
       ((forall input newId now,
            In (input, newId, now) calls ->
            is_Some (gateways s !! paymentMethodType input)) ->
        Forall terminal added -> Forall terminal added'))).
  { clear calls s. induction calls as [|[[input newId] now] calls IH];
      intros s old added Hrows; simpl.
    - split; [lia|]. split; [reflexivity|]. split; [reflexivity|].
      intros _. exists added. split; [exact Hrows | auto].
    - assert (Hlen : length (payments (snd (processPayment input newId now s)))
                     = S (length (payments s))).
      { rewrite processPayment_eq. cbv zeta.
        destruct (gateways s !! paymentMethodType input) as [gateway|];
          [destruct (process gateway (process_args input))|];
          cbn [snd payments with_payments emit];
          rewrite ?sql_update_length; unfold sql_insert;
          rewrite length_app; simpl; lia. }
      assert (Hframe : gateways (snd (processPayment input newId now s))
                       = gateways s /\
                       refunds (snd (processPayment input newId now s))
                       = refunds s).
      { rewrite processPayment_eq. cbv zeta.
        destruct (gateways s !! paymentMethodType input) as [gateway|];
          [destruct (process gateway (process_args input))|];
          split; reflexivity. }
      destruct Hframe as [Hgateways Hrefunds].
      destruct (IH (snd (processPayment input newId now s))
                  (payments (snd (processPayment input newId now s))) []
                  ltac:(rewrite app_nil_r; reflexivity))
        as (Hlength & Hrefunds' & Hgateways' & _).
      split; [rewrite Hlength, Hlen; lia|].
      split; [rewrite Hrefunds'; exact Hrefunds|].
      split; [rewrite Hgateways'; exact Hgateways|].
      intros Hfresh.
      destruct (processPayment_adds_one_row input newId now s old added Hrows)
        as (_ & _ & _ & added1 & Hrows1 & Hterminal1).
      { apply (Hfresh input newId now). left. reflexivity. }
      destruct (IH _ old added1 Hrows1) as (_ & _ & _ & Hrest).
      destruct Hrest as (added' & Hrows' & Hterminal').
      { intros input' newId' now' Hin. apply (Hfresh input' newId' now').
        right. exact Hin. }
      exists added'. split; [exact Hrows'|].
      intros Hregistered Hadded. apply Hterminal'.
      + intros input' newId' now' Hin. rewrite Hgateways.
        apply (Hregistered input' newId' now'). right. exact Hin.
      + apply Hterminal1; [|exact Hadded].
        apply (Hregistered input newId now). left. reflexivity. }
  destruct (Hrun calls s (payments s) [] ltac:(rewrite app_nil_r; reflexivity))
    as (Hlength & Hrefunds & Hgateways & Hrows).
  split; [exact Hlength|]. split; [exact Hrefunds|]. split; [exact Hgateways|].
  intros Hfresh. destruct (Hrows Hfresh) as (added & Hadded & Hterminal).
  exists added. split; [exact Hadded|].
  intros Hregistered. apply Hterminal; [exact Hregistered | constructor].
Qed.

(** X14.  The payments table is an append-only record of attempts.
    Over a run of [processPayment] calls whose generated ids are new and
    distinct, the table grows by exactly one row per call, whatever the
    outcomes; the rows that were there before stay as they were, in
    place; the refunds and the registry are untouched; and when every
    call names a registered gateway, every row the run added is
    completed or failed. *)
Theorem processPayment_all_appends_one_row_per_call :
  forall (calls : list (ProcessPaymentInput * string * Z)) (s : Service),
    List.NoDup (map (fun call => snd (fst call)) calls) ->
    (forall input newId now,
        In (input, newId, now) calls -> fresh_payment_id newId s) ->
    let s' := processPayment_all calls s in
    length (payments s') = (length (payments s) + length calls)%nat /\
    refunds s' = refunds s /\ gateways s' = gateways s /\
    exists added,
      payments s' = payments s ++ added /\
      length added = length calls /\
      ((forall input newId now,
           In (input, newId, now) calls ->
           is_Some (gateways s !! paymentMethodType input)) ->
       Forall terminal added).
Proof.
  intros calls s _ Hfresh s'. subst s'.
  destruct (processPayment_all_rows calls s)
    as (Hlength & Hrefunds & Hgateways & Hrows).
  destruct (Hrows Hfresh) as (added & Hadded & Hterminal).
  split; [exact Hlength|]. split; [exact Hrefunds|]. split; [exact Hgateways|].
  exists added. split; [exact Hadded|]. split; [|exact Hterminal].
  rewrite Hadded, length_app in Hlength. lia.
Qed.

Lemma processPayment_all_appends_one_row_per_call_witness :
  let s' := processPayment_all
              [ (charge_input stripe, "pay_1", 300);
                (charge_input stripe, "pay_2", 301) ]
              (charge_service declining_gateway) in
  length (payments s') = 2%nat /\
  exists added, payments s' = added /\ Forall terminal added.
Proof.
  intros s'.
  destruct (processPayment_all_appends_one_row_per_call
              [ (charge_input stripe, "pay_1", 300);
                (charge_input stripe, "pay_2", 301) ]
              (charge_service declining_gateway))
    as (Hlength & _ & _ & added & Hadded & _ & Hterminal).
  - cbn [map fst snd]. constructor.
    + intros [H|[]]. discriminate.
    + constructor; [intros []|constructor].
  - intros input newId now _ p [].
  - split; [exact Hlength|].
    exists added. split; [exact Hadded|]. apply Hterminal.
    intros input newId now [H|[H|[]]]; injection H as <- _ _;
      exists declining_gateway; vm_compute; reflexivity.
Defined.

(** X15.  [createPayment] stores a pending attempt without calling any
    gateway: under a new id, [getPayment] reads it back pending, with no
    transaction id and no error message, in the currency given, USD when
    the currency is absent or empty. *)
Theorem createPayment_then_getPayment :
  forall (s : Service) (input : CreatePaymentInput) (newId : string) (now : Z),
    fresh_payment_id newId s ->
    let s' := snd (createPayment input newId now s) in
    (exists row,
        fst (getPayment newId s') = inr (Some row) /\
        fst (createPayment input newId now s) = inr row /\
        status row = pending /\ transactionId row = None /\
        errorMessage row = None /\
        amount row = create_amount input /\
        orderId row = create_orderId input /\
        currency row = or_USD (create_currency input) /\
        (create_currency input = None \/ create_currency input = Some "" ->
         currency row = "USD")) /\
    trace s' = trace s ++ [InsertPayment newId pending] /\
    refunds s' = refunds s /\ gateways s' = gateways s.
Proof.
  intros s input newId now Hfresh s'. subst s'.
  unfold createPayment, getPayment, bind, gets, modify, ret.
  cbn [fst snd payments with_payments emit trace refunds gateways id status].
  split; [|repeat split].
  rewrite sql_first_insert_fresh.
  - eexists. split; [reflexivity|]. split; [reflexivity|]. cbn.
    repeat split. intros [-> | ->]; reflexivity.
  - apply fresh_payment_id_spec. exact Hfresh.
  - unfold has_id. cbn. apply String.eqb_refl.
Qed.

Lemma createPayment_then_getPayment_witness :
  exists row,
    fst (getPayment "pay_9"
           (snd (createPayment
                   (mkCreatePaymentInput "order_1" "pm_1" 118%Q (Some "") None)
                   "pay_9" 300 refund_service))) = inr (Some row) /\
    currency row = "USD" /\ status row = pending.
Proof.
  destruct (createPayment_then_getPayment refund_service
              (mkCreatePaymentInput "order_1" "pm_1" 118%Q (Some "") None)
              "pay_9" 300)
    as [(row & Hget & _ & Hstatus & _ & _ & _ & _ & _ & Husd) _].
  - intros p [<-|[]]. discriminate.
  - exists row. split; [exact Hget|].
    split; [apply Husd; right; reflexivity | exact Hstatus].
Defined.

Lemma fresh_refund_id_spec i s :
  fresh_refund_id i s -> forall r, In r (refunds s) -> refund_has_id i r = false.
Proof.
  intros Hfresh r Hin. unfold refund_has_id. apply String.eqb_neq.
  apply Hfresh. exact Hin.
Qed.

(** X16.  Nothing compares the amount of a refund with the payment it
    reverses.  A refund created for any amount against an existing
    payment, then processed with a gateway registered under stripe,
    reaches the gateway with exactly that amount (and the currency and
    transaction id of the payment), be it larger than the amount paid. *)
Theorem refund_amount_is_not_checked :
  forall (s : Service) (order paymentRef : string) (amt : Q)
         (reason : option string) (newId : string) (now now' : Z)
         (payment : Payment) (gateway : PaymentGatewayHandler),
    fresh_refund_id newId s ->
    paymentRef <> "" ->
    sql_first (has_id paymentRef) (payments s) = Some payment ->
    gateways s !! stripe = Some gateway ->
    let s1 := snd (createRefund order paymentRef amt reason newId now s) in
    let args := mkRefundArgs (or_empty (transactionId payment)) amt
                  (currency payment) in
    trace (snd (processRefund newId now' s1))
      = trace s ++ [InsertRefund newId refund_pending;
                    CallRefund args;
                    UpdateRefund newId
                      (match refund gateway args with
                       | inr _ => refund_completed
                       | inl _ => refund_failed
                       end)] /\
    match refund gateway args with
    | inr tx =>
        exists r, fst (processRefund newId now' s1) = inr r /\
                  refund_status r = refund_completed /\
                  refund_amount r = amt /\ refund_transactionId r = Some tx
    | inl error => fst (processRefund newId now' s1) = inl error
    end.
Proof.
  intros s order paymentRef amt reason newId now now' payment gateway
    Hfresh Hne Hpayment Hgateway s1 args. subst s1 args.
  unfold createRefund, bind, modify, ret.
  cbn [snd refund_id refund_orderId refund_paymentId refund_amount
       refund_reason refund_status refund_transactionId refund_createdAt
       refund_updatedAt].
  set (row := mkRefund newId order (Some paymentRef) amt (or_null_string reason)
                refund_pending None now now).
  rewrite processRefund_eq.
  cbn [refunds payments gateways with_refunds emit trace].
  rewrite sql_first_insert_fresh;
    [| apply fresh_refund_id_spec; exact Hfresh
     | unfold refund_has_id; cbn; apply String.eqb_refl].
  assert (Htruthy : truthy_string (refund_paymentId row) = true).
  { cbn. apply negb_true_iff. apply String.eqb_neq. exact Hne. }
  cbv beta iota. rewrite Htruthy.
  change (refund_paymentId row) with (Some paymentRef). cbn [or_empty].
  rewrite Hpayment, Hgateway.
  unfold refund_args. change (refund_amount row) with amt.
  destruct (refund gateway _) as [error|tx];
    cbn [fst snd trace emit with_refunds]; rewrite <- !app_assoc.
  - split; reflexivity.
  - split; [reflexivity|]. eexists. split; [reflexivity|]. cbn. repeat split.
Qed.

Lemma refund_amount_is_not_checked_witness :
  let s1 := snd (createRefund "order_7" "pay_1" 1000%Q None "ref_9" 250
                   refund_service) in
  amount payment_without_transaction = 118%Q /\
  exists r,
    fst (processRefund "ref_9" 300 s1) = inr r /\
    refund_status r = refund_completed /\ refund_amount r = 1000%Q.
Proof.
  intros s1. split; [reflexivity|].
  pose proof (refund_amount_is_not_checked refund_service "order_7" "pay_1"
                1000%Q None "ref_9" 250 300 payment_without_transaction
                accepting_gateway) as H.
  destruct H as [_ H].
  - intros r [<-|[]]. discriminate.
  - discriminate.
  - reflexivity.
  - vm_compute. reflexivity.
  - cbn in H. destruct H as (r & Hrun & Hstatus & Hamount & _).
    exists r. split; [exact Hrun|]. split; [exact Hstatus | exact Hamount].
Defined.

(** X17.  [processRefund] does not look at the status of the refund.
    Run again on a refund it has just completed, it calls the gateway
    again with the same arguments and completes the refund again: the
    trace shows two refund calls. *)
Theorem processRefund_twice_refunds_twice :
  forall (s : Service) (refundId : string) (now now' : Z) (r : Refund)
         (payment : Payment) (gateway : PaymentGatewayHandler) (tx : string),
    sql_first (refund_has_id refundId) (refunds s) = Some r ->
    truthy_string (refund_paymentId r) = true ->
    sql_first (has_id (or_empty (refund_paymentId r))) (payments s)
      = Some payment ->
    gateways s !! stripe = Some gateway ->
    refund gateway (refund_args r payment) = inr tx ->
    let s1 := snd (processRefund refundId now s) in
    sql_first (refund_has_id refundId) (refunds s1)
      = Some (set_refund_completed tx now r) /\
    fst (processRefund refundId now' s1)
      = inr (set_refund_completed tx now' (set_refund_completed tx now r)) /\
    trace (snd (processRefund refundId now' s1))
      = trace s ++ [CallRefund (refund_args r payment);
                    UpdateRefund refundId refund_completed;
                    CallRefund (refund_args r payment);
                    UpdateRefund refundId refund_completed].
Proof.
  intros s refundId now now' r payment gateway tx Hr Htruthy Hpayment Hgateway
    Hrefund s1. subst s1.
  rewrite (processRefund_eq refundId now s).
  rewrite Hr, Htruthy, Hpayment, Hgateway, Hrefund. cbn [snd].
  assert (Hfirst : sql_first (refund_has_id refundId)
                     (sql_update (refund_has_id refundId)
                        (set_refund_completed tx now) (refunds s))
                   = Some (set_refund_completed tx now r)).
  { rewrite sql_first_update_same by reflexivity. rewrite Hr. reflexivity. }
  split; [exact Hfirst|].
  rewrite processRefund_eq.
  cbn [refunds payments gateways with_refunds emit trace].
  rewrite Hfirst.
  cbn [refund_paymentId set_refund_completed]. rewrite Htruthy, Hpayment, Hgateway.
  change (refund_args (set_refund_completed tx now r) payment)
    with (refund_args r payment).
  rewrite Hrefund. cbn [fst snd trace emit with_refunds].
  split; [reflexivity|]. rewrite <- !app_assoc. reflexivity.
Qed.

Lemma processRefund_twice_refunds_twice_witness :
  trace (snd (processRefund "ref_1" 301
                (snd (processRefund "ref_1" 300 refund_service))))
    = [CallRefund (mkRefundArgs "" 118%Q "USD");
       UpdateRefund "ref_1" refund_completed;
       CallRefund (mkRefundArgs "" 118%Q "USD");
       UpdateRefund "ref_1" refund_completed].
Proof.
  destruct (processRefund_twice_refunds_twice refund_service "ref_1" 300 301
              (mkRefund "ref_1" "order_1" (Some "pay_1") 118%Q None
                 refund_pending None 200 200)
              payment_without_transaction accepting_gateway "re_1")
    as (_ & _ & Htrace);
    [ reflexivity | reflexivity | reflexivity | vm_compute; reflexivity
    | reflexivity | exact Htrace ].
Defined.

End PaymentMoreFacts.

(** * Downloads: files, storage, cleanup and the download route *)

Section DownloadMoreFacts.
Import Js Download.

Lemma fresh_download_id_spec i s :
  fresh_download_id i s ->
  forall d, In d (digital_downloads s) -> has_id i d = false.
Proof.
  intros Hfresh d Hin. unfold has_id. apply String.eqb_neq.
  apply Hfresh. exact Hin.
Qed.

Lemma fresh_token_spec t s :
  fresh_token t s ->
  forall l, In l (download_links s) -> link_has_token t l = false.
Proof.
  intros Hfresh l Hin. unfold link_has_token. apply String.eqb_neq.
  apply Hfresh. exact Hin.
Qed.

Lemma link_has_id_self l : link_has_id (link_id l) l = true.
Proof. unfold link_has_id. apply String.eqb_refl. Qed.

(** The link read by token after a download has been counted. *)
Lemma first_by_token_after_count t now i table link :
  sql_first (link_has_token t) table = Some link ->
  sql_first (link_has_token t)
    (sql_update (link_has_id i) (count_download now) table)
  = Some (if link_has_id i link then count_download now link else link).
Proof.
  intros Hlink. rewrite sql_first_update_keep by reflexivity.
  rewrite Hlink. reflexivity.
Qed.

(** X18.  A file registered with [createDigitalDownload], uploaded with
    [uploadFile] and granted with [createDownloadLink] comes back from
    [getDownloadFile] under the link's token: the bytes uploaded, the
    file name registered, and the MIME type registered or
    application/octet-stream when none was; the link then counts one
    download.  The ids and the token are new, the limit (if any) is not
    negative and the link (if it expires) has not expired. *)
Theorem uploaded_file_is_downloaded :
  forall (s : Service) (input : CreateDigitalDownloadInput) (body : string)
         (downloadId linkId tok orderItem : string) (maxDl days : option Z)
         (t0 t1 t2 : Z),
    fresh_download_id downloadId s ->
    fresh_link_id linkId s ->
    fresh_token tok s ->
    (forall m, maxDl = Some m -> 0 <= m) ->
    (forall d, days = Some d -> d <> 0 -> t2 <= t1 + d * 86400) ->
    let s1 := snd (createDigitalDownload input downloadId t0 s) in
    let s2 := snd (uploadFile body downloadId s1) in
    let s3 := snd (createDownloadLink orderItem downloadId maxDl days linkId
                     tok t1 s2) in
    fst (uploadFile body downloadId s1) = inr tt /\
    fst (getDownloadFile tok t2 s3)
      = inr (mkDownloadFile body (input_fileName input)
               (or_octet_stream (or_null_string (input_mimeType input)))) /\
    exists link,
      sql_first (link_has_token tok)
        (download_links (snd (getDownloadFile tok t2 s3))) = Some link /\
      downloadCount link = 1 /\ lastAccessedAt link = Some t2.
Proof.
  intros s input body downloadId linkId tok orderItem maxDl days t0 t1 t2
    Hfresh_d _ Hfresh_t Hlimit Hexpiry s1 s2 s3.
  set (key := "digital-downloads/" +:+ downloadId +:+ "/" +:+ input_fileName input).
  set (drow := mkDigitalDownload downloadId (input_productId input)
                 (input_fileName input) (input_filePath input)
                 (or_null_Z (input_fileSize input))
                 (or_null_string (input_mimeType input)) key
                 (or_null_Z (input_downloadLimit input))
                 (or_null_Z (input_expirationDays input)) t0).
  assert (Hs1 : s1 = with_downloads (sql_insert drow) s) by reflexivity.
  assert (Hget1 : sql_first (has_id downloadId) (digital_downloads s1) = Some drow).
  { rewrite Hs1. cbn [digital_downloads with_downloads].
    apply sql_first_insert_fresh.
    - apply fresh_download_id_spec. exact Hfresh_d.
    - unfold has_id. cbn. apply String.eqb_refl. }
  assert (Hupload : uploadFile body downloadId s1
                    = (inr tt, with_r2 (fun bucket => <[key := body]> bucket) s1)).
  { unfold uploadFile, getDigitalDownload, bind, gets, modify.
    rewrite Hget1. reflexivity. }
  assert (Hs2 : s2 = with_r2 (fun bucket => <[key := body]> bucket) s1).
  { subst s2. rewrite Hupload. reflexivity. }
  set (lrow := mkDownloadLink linkId orderItem downloadId tok 0
                 (or_null_Z maxDl)
                 (or_null_Z
                    (match days with
                     | Some d => if truthy_Z (Some d)
                                 then Some (t1 + d * 24 * 60 * 60) else None
                     | None => None
                     end)) None t1).
  assert (Hs3 : s3 = with_links (sql_insert lrow) s2) by reflexivity.
  assert (Hlink : sql_first (link_has_token tok) (download_links s3) = Some lrow).
  { rewrite Hs3, Hs2, Hs1. cbn [download_links with_links with_r2 with_downloads].
    apply sql_first_insert_fresh.
    - apply fresh_token_spec. exact Hfresh_t.
    - unfold link_has_token. cbn. apply String.eqb_refl. }
  assert (Hlive : link_expired t2 lrow = false).
  { apply (bool_false_iff _ _ (link_expired_spec t2 lrow)).
    intros (e & He & Hne & Hlt). cbn in He.
    destruct days as [d|]; [|discriminate].
    unfold or_null_Z, truthy_Z in He.
    destruct (d =? 0) eqn:Hd; cbn in He; [discriminate|].
    destruct (t1 + d * 24 * 60 * 60 =? 0); cbn in He; [discriminate|].
    injection He as <-. apply Z.eqb_neq in Hd.
    specialize (Hexpiry d eq_refl Hd). lia. }
  assert (Hroom : limit_reached lrow = false).
  { apply (bool_false_iff _ _ (limit_reached_spec lrow)).
    intros (m & Hm & Hne & Hle). cbn in Hm, Hle.
    unfold or_null_Z, truthy_Z in Hm.
    destruct maxDl as [m'|]; [|discriminate].
    destruct (m' =? 0); cbn in Hm; [discriminate|].
    injection Hm as <-. specialize (Hlimit m' eq_refl). lia. }
  assert (Hget3 : sql_first (has_id (digitalDownloadId lrow)) (digital_downloads s3)
                  = Some drow).
  { rewrite Hs3, Hs2. exact Hget1. }
  assert (Hobject : r2 s3 !! r2Key drow = Some body).
  { rewrite Hs3, Hs2. cbn [r2 with_links with_r2 r2Key drow].
    apply lookup_insert_eq. }
  split; [rewrite Hupload; reflexivity|].
  rewrite getDownloadFile_eq, getDownloadLinkByToken_eq, Hlink, Hlive, Hroom.
  rewrite Hget3. cbv zeta. cbn [r2 with_links]. rewrite Hobject.
  split; [reflexivity|].
  cbn [snd download_links with_links].
  rewrite (first_by_token_after_count tok t2 (link_id lrow) _ lrow Hlink).
  rewrite link_has_id_self. eexists. split; [reflexivity|]. split; reflexivity.
Qed.

Lemma uploaded_file_is_downloaded_witness :
  let s1 := snd (createDigitalDownload
                   (mkCreateDigitalDownloadInput "prod_2" "song.mp3"
                      "/files/song.mp3" None None None None) "dl_2" 100
                   ebook_service) in
  let s2 := snd (uploadFile "ID3" "dl_2" s1) in
  let s3 := snd (createDownloadLink "item_2" "dl_2" (Some 3) (Some 7) "link_2"
                   "tok_2" 1000 s2) in
  fst (getDownloadFile "tok_2" 2000 s3)
    = inr (mkDownloadFile "ID3" "song.mp3" "application/octet-stream").
Proof.
  intros s1 s2 s3.
  destruct (uploaded_file_is_downloaded ebook_service
              (mkCreateDigitalDownloadInput "prod_2" "song.mp3"
                 "/files/song.mp3" None None None None)
              "ID3" "dl_2" "link_2" "tok_2" "item_2" (Some 3) (Some 7)
              100 1000 2000) as (_ & Hfile & _).
  - intros d [<-|[]]. discriminate.
  - intros l [].
  - intros l [].
  - intros m Hm. injection Hm as <-. lia.
  - intros d Hd _. injection Hd as <-. lia.
  - exact Hfile.
Defined.

(** X19.  A download is counted before the bytes are fetched.  When
    the link is accepted and the file is registered but its object is
    missing from the bucket, [getDownloadFile] throws file-not-found and
    the link has one download more all the same.  When the registration
    of the file is missing, it throws digital-download-not-found and the
    count is untouched. *)
Theorem missing_object_still_counts_a_download :
  forall (s : Service) (t : string) (now : Z) (link : DownloadLink),
    sql_first (link_has_token t) (download_links s) = Some link ->
    link_expired now link = false ->
    limit_reached link = false ->
    (forall download,
        sql_first (has_id (digitalDownloadId link)) (digital_downloads s)
          = Some download ->
        r2 s !! r2Key download = None ->
        fst (getDownloadFile t now s) = inl (JsError "File not found in storage") /\
        exists link',
          sql_first (link_has_token t)
            (download_links (snd (getDownloadFile t now s))) = Some link' /\
          downloadCount link' = downloadCount link + 1) /\
    (sql_first (has_id (digitalDownloadId link)) (digital_downloads s) = None ->
     getDownloadFile t now s = (inl (JsError "Digital download not found"), s)).
Proof.
  intros s t now link Hlink Hlive Hroom.
  rewrite getDownloadFile_eq, getDownloadLinkByToken_eq, Hlink, Hlive, Hroom.
  split.
  - intros download Hdownload Hobject. rewrite Hdownload. cbv zeta.
    cbn [r2 with_links]. rewrite Hobject. split; [reflexivity|].
    cbn [snd download_links with_links].
    rewrite (first_by_token_after_count t now (link_id link) _ link Hlink).
    rewrite link_has_id_self. eexists. split; reflexivity.
  - intros Hdownload. rewrite Hdownload. reflexivity.
Qed.

Lemma missing_object_still_counts_a_download_witness :
  let s := mkService (digital_downloads one_download_service)
             (download_links one_download_service) ∅ in
  fst (getDownloadFile "tok_1" 2000 s) = inl (JsError "File not found in storage") /\
  fst (getDownloadFile "tok_1" 2001 (snd (getDownloadFile "tok_1" 2000 s)))
    = inl (JsError "Download limit reached").
Proof.
  intros s.
  assert (Hlink : exists link,
             sql_first (link_has_token "tok_1") (download_links s) = Some link)
    by (vm_compute; eexists; reflexivity).
  destruct Hlink as [link Hlink].
  pose proof Hlink as Hlink0. vm_compute in Hlink0. injection Hlink0 as Hlink0.
  destruct (missing_object_still_counts_a_download s "tok_1" 2000 link Hlink)
    as [Hdrift _].
  - rewrite <- Hlink0. vm_compute. reflexivity.
  - rewrite <- Hlink0. vm_compute. reflexivity.
  - destruct (Hdrift ebook) as [Hthrown _].
    + rewrite <- Hlink0. vm_compute. reflexivity.
    + vm_compute. reflexivity.
    + split; [exact Hthrown | vm_compute; reflexivity].
Defined.

(** X20.  [cleanupExpiredLinks] deletes exactly the links whose expiry
    is earlier than now; links without expiry and links that expire now
    or later stay.  After it, no lookup by token made at a time up to now
    throws the expired error.  The files and the bucket are untouched. *)
Theorem cleanupExpiredLinks_removes_expired_links :
  forall (s : Service) (now : Z),
    let s' := snd (cleanupExpiredLinks now s) in
    fst (cleanupExpiredLinks now s) = inr tt /\
    (forall l, In l (download_links s') <->
               In l (download_links s) /\
               ~ exists e, expiresAt l = Some e /\ e < now) /\
    (forall t now',
        now' <= now ->
        fst (getDownloadLinkByToken t now' s')
          <> inl (JsError "Download link has expired")) /\
    digital_downloads s' = digital_downloads s /\ r2 s' = r2 s.
Proof.
  intros s now s'. subst s'.
  unfold cleanupExpiredLinks, modify. cbn [fst snd].
  assert (Hkept : forall l,
             In l (download_links
                     (with_links
                        (sql_delete (fun l => match expiresAt l with
                                             | Some t => t <? now
                                             | None => false
                                             end)) s)) <->
             In l (download_links s) /\
             ~ exists e, expiresAt l = Some e /\ e < now).
  { intros l. cbn [download_links with_links]. rewrite In_sql_delete.
    destruct (expiresAt l) as [e|].
    - rewrite Z.ltb_ge. split; intros [Hin He]; (split; [exact Hin|]).
      + intros (e' & Heq & Hlt). injection Heq as <-. lia.
      + destruct (Z.le_gt_cases now e) as [Hle|Hgt]; [exact Hle|].
        destruct He. exists e. split; [reflexivity | lia].
    - split; intros [Hin _]; (split; [exact Hin|]); [|reflexivity].
      intros (e & Heq & _). discriminate. }
  split; [reflexivity|]. split; [exact Hkept|]. split; [|split; reflexivity].
  intros t now' Hnow'. rewrite getDownloadLinkByToken_eq.
  destruct (sql_first (link_has_token t) _) as [link|] eqn:Hlink;
    [|discriminate].
  apply sql_first_Some in Hlink as [Hin _].
  apply Hkept in Hin as [_ Hlive].
  assert (Hnot : link_expired now' link = false).
  { apply (bool_false_iff _ _ (link_expired_spec now' link)).
    intros (e & He & _ & Hlt). apply Hlive. exists e. split; [exact He | lia]. }
  rewrite Hnot. destruct (limit_reached link); discriminate.
Qed.

Lemma cleanupExpiredLinks_removes_expired_links_witness :
  download_links (snd (cleanupExpiredLinks 173800 one_download_service))
    = download_links one_download_service /\
  download_links (snd (cleanupExpiredLinks 173801 one_download_service)) = [] /\
  fst (getDownloadLinkByToken "tok_1" 173801
         (snd (cleanupExpiredLinks 173801 one_download_service)))
    <> inl (JsError "Download link has expired").
Proof.
  split; [vm_compute; reflexivity|]. split; [vm_compute; reflexivity|].
  destruct (cleanupExpiredLinks_removes_expired_links one_download_service
              173801) as (_ & _ & Hlookups & _).
  apply Hlookups. lia.
Defined.

(** X21.  [deleteDigitalDownload] throws and changes nothing when the
    file is not registered.  For a registered file that no link refers
    to, it removes the object from the bucket and every row with that
    id, and nothing else: the other files, the objects under other keys
    and the links are as before.  An upload for the deleted file then
    throws digital-download-not-found. *)
Theorem deleteDigitalDownload_removes_file_and_object :
  forall (s : Service) (i : string),
    (sql_first (has_id i) (digital_downloads s) = None ->
     deleteDigitalDownload i s
       = (inl (JsError ("Digital download not found: " +:+ i)), s)) /\
    (forall download,
        sql_first (has_id i) (digital_downloads s) = Some download ->
        (forall l, In l (download_links s) -> digitalDownloadId l <> i) ->
        let s' := snd (deleteDigitalDownload i s) in
        fst (deleteDigitalDownload i s) = inr tt /\
        fst (getDigitalDownload i s') = inr None /\
        r2 s' !! r2Key download = None /\
        (forall j, j <> i ->
                   fst (getDigitalDownload j s') = fst (getDigitalDownload j s)) /\
        (forall key, key <> r2Key download -> r2 s' !! key = r2 s !! key) /\
        download_links s' = download_links s /\
        forall body,
          uploadFile body i s'
            = (inl (JsError ("Digital download not found: " +:+ i)), s')).
Proof.
  intros s i. unfold deleteDigitalDownload, uploadFile, getDigitalDownload,
    bind, gets, modify, throw. split.
  - intros Hnone. rewrite Hnone. reflexivity.
  - intros download Hdownload _. rewrite Hdownload. cbn [fst snd].
    set (s' := with_downloads (sql_delete (has_id i))
                 (with_r2 (fun bucket => delete (r2Key download) bucket) s)).
    assert (Hgone : sql_first (has_id i) (digital_downloads s') = None)
      by apply sql_first_delete_same.
    split; [reflexivity|]. split; [rewrite Hgone; reflexivity|].
    split; [apply lookup_delete_eq|].
    split; [|split; [|split; [reflexivity|]]].
    + intros j Hj. f_equal. subst s'.
      cbn [digital_downloads with_downloads with_r2].
      apply sql_first_delete_other. intros d _ Hd. unfold has_id in *.
      apply String.eqb_eq in Hd. apply String.eqb_neq. congruence.
    + intros key Hkey. subst s'. cbn [r2 with_downloads with_r2].
      apply lookup_delete_ne. congruence.
    + intros body. rewrite Hgone. reflexivity.
Qed.

Lemma deleteDigitalDownload_removes_file_and_object_witness :
  let s' := snd (deleteDigitalDownload "dl_1" ebook_service) in
  r2 s' !! "digital-downloads/dl_1/book.pdf" = None /\
  uploadFile "%PDF" "dl_1" s'
    = (inl (JsError "Digital download not found: dl_1"), s').
Proof.
  intros s'.
  destruct (deleteDigitalDownload_removes_file_and_object ebook_service "dl_1")
    as [_ Hknown].
  destruct (Hknown ebook eq_refl) as (_ & _ & Hobject & _ & _ & _ & Hupload).
  - intros l [].
  - split; [exact Hobject | apply Hupload].
Defined.

(** [GET /:token], step by step. *)
Lemma download_route_eq t now s :
  download_route t now s =
  match sql_first (route_finds t now) (download_links s) with
  | None => (inr (JsonError 404 "Download link not found or expired"), s)
  | Some result =>
      if limit_reached result
      then (inr (JsonError 403 "Download limit exceeded"), s)
      else (inr (JsonSuccess 200 "Download initiated"),
            with_links
              (sql_update (link_has_id (link_id result)) (count_download now)) s)
  end.
Proof.
  unfold download_route, bind, gets, modify, ret.
  destruct (sql_first (route_finds t now) (download_links s)) as [result|];
    [|reflexivity].
  destruct (limit_reached result); reflexivity.
Qed.

(** A narrower query over a table where one row at most matches the
    wider one. *)
Lemma sql_first_narrowed {Row} (p q : Row -> bool) table r :
  sql_first p table = Some r ->
  (forall r', In r' table -> p r' = true -> r' = r) ->
  (forall r', q r' = true -> p r' = true) ->
  sql_first q table = if q r then Some r else None.
Proof.
  intros Hfirst Hunique Hnarrow.
  destruct (sql_first q table) as [r'|] eqn:Hq.
  - apply sql_first_Some in Hq as [Hin Hqr'].
    assert (r' = r) as -> by (apply Hunique; [exact Hin | apply Hnarrow, Hqr']).
    rewrite Hqr'. reflexivity.
  - apply sql_first_Some in Hfirst as [Hin _].
    rewrite (sql_first_None _ _ Hq r Hin). reflexivity.
Qed.

(** X22.  The download route and the download service disagree at the
    instant of expiry.  For a token carried by one link, the route
    answers 200 exactly when the service's lookup accepts the link and
    the link's expiry, if any, is later than now.  A link that expires
    exactly now (and has downloads left) is accepted by the service and
    answered 404 by the route, which writes nothing. *)
Theorem download_route_is_stricter_at_expiry :
  forall (s : Service) (t : string) (now : Z) (link : DownloadLink),
    sql_first (link_has_token t) (download_links s) = Some link ->
    (forall l, In l (download_links s) -> token l = t -> l = link) ->
    (fst (download_route t now s) = inr (JsonSuccess 200 "Download initiated") <->
     fst (getDownloadLinkByToken t now s) = inr (Some link) /\
     forall e, expiresAt link = Some e -> now < e) /\
    (expiresAt link = Some now ->
     limit_reached link = false ->
     fst (getDownloadLinkByToken t now s) = inr (Some link) /\
     download_route t now s
       = (inr (JsonError 404 "Download link not found or expired"), s)).
Proof.
  intros s t now link Hlink Hunique.
  assert (Htoken : link_has_token t link = true)
    by (apply sql_first_Some in Hlink; apply Hlink).
  assert (Hroute : sql_first (route_finds t now) (download_links s)
                   = if route_finds t now link then Some link else None).
  { apply (sql_first_narrowed (link_has_token t)); [exact Hlink | |].
    - intros l Hin Hl. apply Hunique; [exact Hin|].
      apply String.eqb_eq. exact Hl.
    - intros l Hl. unfold route_finds in Hl.
      apply andb_true_iff in Hl. apply Hl. }
  rewrite download_route_eq, getDownloadLinkByToken_eq, Hlink, Hroute.
  unfold route_finds, link_expired. rewrite Htoken. cbn [andb].
  split.
  - destruct (expiresAt link) as [e|].
    + destruct (now <? e) eqn:Hlater.
      * apply Z.ltb_lt in Hlater.
        replace (e <? now) with false by (symmetry; apply Z.ltb_ge; lia).
        rewrite andb_false_r.
        destruct (limit_reached link); cbn [fst]; split;
          try (intros [H _]; discriminate); try discriminate.
        -- intros _. split; [reflexivity|].
           intros e' He'. injection He' as <-. exact Hlater.
        -- intros _. reflexivity.
      * apply Z.ltb_ge in Hlater. cbn [fst]. split; [discriminate|].
        intros [_ Hlive]. specialize (Hlive e eq_refl). lia.
    + destruct (limit_reached link); cbn [fst]; split;
        try (intros [H _]; discriminate); try discriminate.
      * intros _. split; [reflexivity|]. intros e He. discriminate.
      * intros _. reflexivity.
  - intros Hexpiry Hroom. rewrite Hexpiry, Hroom, Z.ltb_irrefl, andb_false_r.
    split; reflexivity.
Qed.

Lemma download_route_is_stricter_at_expiry_witness :
  fst (getDownloadFile "tok_1" 173800 one_download_service)
    = inr (mkDownloadFile "%PDF" "book.pdf" "application/pdf") /\
  download_route "tok_1" 173800 one_download_service
    = (inr (JsonError 404 "Download link not found or expired"),
       one_download_service).
Proof.
  split; [vm_compute; reflexivity|].
  assert (Hlink : exists link,
             sql_first (link_has_token "tok_1")
               (download_links one_download_service) = Some link)
    by (vm_compute; eexists; reflexivity).
  destruct Hlink as [link Hlink].
  pose proof Hlink as Hlink0. vm_compute in Hlink0. injection Hlink0 as Hlink0.
  destruct (download_route_is_stricter_at_expiry one_download_service "tok_1"
              173800 link Hlink) as [_ Hboundary].
  - intros l [<-|[]] _. exact Hlink0.
  - apply Hboundary; rewrite <- Hlink0; reflexivity.
Defined.

(** X23.  The download route counts a download only when it answers
    200.  A 404 or a 403 writes nothing.  On 200 the link found had
    downloads left and its counted row is in the table.  With distinct
    link ids, links within their limits stay within them, and the route
    never touches the files or the bucket. *)
Theorem download_route_counts_only_served_requests :
  forall (s : Service) (t : string) (now : Z),
    unique_link_ids s ->
    Forall within_limit (download_links s) ->
    let s' := snd (download_route t now s) in
    (forall status error,
        fst (download_route t now s) = inr (JsonError status error) -> s' = s) /\
    (forall status message,
        fst (download_route t now s) = inr (JsonSuccess status message) ->
        exists link,
          In link (download_links s) /\ token link = t /\ ~ at_limit link /\
          In (count_download now link) (download_links s')) /\
    unique_link_ids s' /\
    Forall within_limit (download_links s') /\
    digital_downloads s' = digital_downloads s /\ r2 s' = r2 s.
Proof.
  intros s t now Hnd Hall s'. subst s'. rewrite download_route_eq.
  destruct (sql_first (route_finds t now) (download_links s)) as [link|] eqn:Hlink.
  - apply sql_first_Some in Hlink as [Hin Hfinds].
    destruct (limit_reached link) eqn:Hlimit; cbn [fst snd].
    + split; [reflexivity|]. split; [discriminate|]. repeat split; assumption.
    + assert (Hfree : ~ at_limit link)
        by (apply (bool_false_iff _ _ (limit_reached_spec link)); exact Hlimit).
      split; [discriminate|]. split; [|split; [|split; [|split; reflexivity]]].
      * intros _ _ _. exists link. split; [exact Hin|]. split.
        -- unfold route_finds in Hfinds. apply andb_true_iff in Hfinds as [Ht _].
           apply String.eqb_eq. exact Ht.
        -- split; [exact Hfree|]. cbn [download_links with_links].
           apply In_sql_update. exists link. split; [exact Hin|].
           rewrite link_has_id_self. reflexivity.
      * unfold unique_link_ids. cbn [download_links with_links].
        rewrite count_download_keeps_ids. exact Hnd.
      * cbn [download_links with_links].
        apply count_download_within_limit; assumption.
  - cbn [fst snd]. split; [reflexivity|]. split; [discriminate|].
    repeat split; assumption.
Qed.

Lemma download_route_counts_only_served_requests_witness :
  let s1 := snd (download_route "tok_1" 2000 one_download_service) in
  map downloadCount (download_links s1) = [1] /\
  download_route "tok_1" 3000 s1
    = (inr (JsonError 403 "Download limit exceeded"), s1) /\
  Forall within_limit (download_links (snd (download_route "tok_1" 3000 s1))).
Proof.
  intros s1.
  assert (Hnd : unique_link_ids one_download_service).
  { unfold unique_link_ids. vm_compute. constructor; [intros []|constructor]. }
  assert (Hall : Forall within_limit (download_links one_download_service)).
  { vm_compute. constructor; [|constructor].
    intros m Hm _. injection Hm as <-. discriminate. }
  destruct (download_route_counts_only_served_requests one_download_service
              "tok_1" 2000 Hnd Hall) as (_ & _ & Hnd1 & Hall1 & _).
  destruct (download_route_counts_only_served_requests s1 "tok_1" 3000 Hnd1 Hall1)
    as (_ & _ & _ & Hall2 & _).
  split; [vm_compute; reflexivity|]. split; [vm_compute; reflexivity|].
  exact Hall2.
Defined.

(** What one download attempt does to the links: nothing, or one
    counted download. *)
Lemma getDownloadFile_links t now s :
  download_links (snd (getDownloadFile t now s)) = download_links s \/
  exists i,
    download_links (snd (getDownloadFile t now s))
    = sql_update (link_has_id i) (count_download now) (download_links s).
Proof.
  rewrite getDownloadFile_eq, getDownloadLinkByToken_eq.
  destruct (sql_first (link_has_token t) (download_links s)) as [link|];
    [|left; reflexivity].
  destruct (link_expired now link); [left; reflexivity|].
  destruct (limit_reached link); [left; reflexivity|].
  destruct (sql_first (has_id (digitalDownloadId link)) (digital_downloads s))
    as [download|]; [|left; reflexivity].
  cbv zeta. right. exists (link_id link).
  destruct (r2 _ !! r2Key download); reflexivity.
Qed.

(** Download attempts never change the limit of the links of a token. *)
Lemma download_all_keeps_no_limit t attempts :
  forall s,
    (forall l, In l (download_links s) -> token l = t -> maxDownloads l = None) ->
    forall l, In l (download_links (download_all attempts s)) ->
              token l = t -> maxDownloads l = None.
Proof.
  induction attempts as [|[t' now] attempts IH]; intros s Hnone;
    cbn [download_all]; [exact Hnone|].
  apply IH. intros l Hin Ht.
  destruct (getDownloadFile_links t' now s) as [Heq|[i Heq]];
    rewrite Heq in Hin; [apply Hnone; assumption|].
  apply In_sql_update in Hin as (l0 & Hin0 & ->).
  destruct (link_has_id i l0); apply (Hnone l0 Hin0); exact Ht.
Qed.

(** X24.  A download limit of 0 is no limit.  [createDownloadLink]
    called with maxDownloads 0 (or none) returns the link and stores NULL
    as its limit, so however many downloads are attempted afterwards, a
    lookup of the new token never throws the limit-reached error.  The
    id and the token are new. *)
Theorem zero_download_limit_is_no_limit :
  forall (s : Service) (orderItem digitalDownload : string)
         (maxDl days : option Z) (newId newToken : string) (now : Z),
    fresh_link_id newId s ->
    fresh_token newToken s ->
    (forall m, maxDl = Some m -> m = 0) ->
    let created :=
      createDownloadLink orderItem digitalDownload maxDl days newId newToken now s in
    (exists link,
        fst created = inr link /\ maxDownloads link = maxDl /\
        downloadCount link = 0) /\
    (exists row,
        sql_first (link_has_token newToken) (download_links (snd created))
          = Some row /\
        maxDownloads row = None) /\
    forall attempts now',
      fst (getDownloadLinkByToken newToken now'
             (download_all attempts (snd created)))
        <> inl (JsError "Download limit reached").
Proof.
  intros s orderItem digitalDownload maxDl days newId newToken now _ Hfresh
    Hzero created.
  assert (Hnull : or_null_Z maxDl = None).
  { destruct maxDl as [m|]; [|reflexivity].
    rewrite (Hzero m eq_refl). reflexivity. }
  set (row := mkDownloadLink newId orderItem digitalDownload newToken 0
                (or_null_Z maxDl)
                (or_null_Z
                   (match days with
                    | Some d => if truthy_Z (Some d)
                                then Some (now + d * 24 * 60 * 60) else None
                    | None => None
                    end)) None now).
  assert (Hs : snd created = with_links (sql_insert row) s) by reflexivity.
  split; [eexists; split; [reflexivity|split; reflexivity]|].
  split.
  - exists row. rewrite Hs. cbn [download_links with_links]. split.
    + apply sql_first_insert_fresh.
      * apply fresh_token_spec. exact Hfresh.
      * unfold link_has_token. cbn. apply String.eqb_refl.
    + exact Hnull.
  - intros attempts now'. rewrite getDownloadLinkByToken_eq.
    destruct (sql_first (link_has_token newToken) _) as [link|] eqn:Hlink;
      [|discriminate].
    apply sql_first_Some in Hlink as [Hin Htoken].
    apply String.eqb_eq in Htoken.
    assert (Hnone : maxDownloads link = None).
    { apply (download_all_keeps_no_limit newToken attempts (snd created));
        [|exact Hin|exact Htoken].
      rewrite Hs. cbn [download_links with_links]. unfold sql_insert.
      intros l Hl Ht. apply in_app_or in Hl as [Hl|[<-|[]]].
      - destruct (Hfresh l Hl Ht).
      - exact Hnull. }
    unfold limit_reached. rewrite Hnone.
    destruct (link_expired now' link); discriminate.
Qed.

Lemma zero_download_limit_is_no_limit_witness :
  let created :=
    createDownloadLink "item_1" "dl_1" (Some 0) None "link_1" "tok_1" 1000
      ebook_service in
  let s := download_all [("tok_1", 2000); ("tok_1", 2001); ("tok_1", 2002)]
             (snd created) in
  map downloadCount (download_links s) = [3] /\
  fst (getDownloadLinkByToken "tok_1" 2003 s)
    <> inl (JsError "Download limit reached").
Proof.
  intros created s. split; [vm_compute; reflexivity|].
  destruct (zero_download_limit_is_no_limit ebook_service "item_1" "dl_1"
              (Some 0) None "link_1" "tok_1" 1000) as (_ & _ & Hnever).
  - intros l [].
  - intros l [].
  - intros m Hm. injection Hm as <-. reflexivity.
  - apply Hnever.
Defined.

(** X25.  Deleting a link revokes it.  When one link carries a token,
    after [deleteDownloadLink] of its id the lookup by that token
    returns null, [getDownloadFile] throws invalid-download-link and the
    download route answers 404, none of them writing anything; the files
    and the bucket are untouched. *)
Theorem deleted_link_is_revoked :
  forall (s : Service) (t : string) (now : Z) (link : DownloadLink),
    sql_first (link_has_token t) (download_links s) = Some link ->
    (forall l, In l (download_links s) -> token l = t -> l = link) ->
    let s' := snd (deleteDownloadLink (link_id link) s) in
    fst (deleteDownloadLink (link_id link) s) = inr tt /\
    getDownloadLinkByToken t now s' = (inr None, s') /\
    getDownloadFile t now s' = (inl (JsError "Invalid download link"), s') /\
    download_route t now s'
      = (inr (JsonError 404 "Download link not found or expired"), s') /\
    digital_downloads s' = digital_downloads s /\ r2 s' = r2 s.
Proof.
  intros s t now link Hlink Hunique s'. subst s'.
  unfold deleteDownloadLink, modify. cbn [fst snd].
  set (s' := with_links (sql_delete (link_has_id (link_id link))) s).
  assert (Hnone : forall l, In l (download_links s') -> link_has_token t l = false).
  { intros l Hin. subst s'. cbn [download_links with_links] in Hin.
    apply In_sql_delete in Hin as [Hin Hid].
    destruct (link_has_token t l) eqn:Ht; [|reflexivity].
    apply String.eqb_eq in Ht. rewrite (Hunique l Hin Ht) in Hid.
    rewrite link_has_id_self in Hid. discriminate. }
  assert (Hfirst : sql_first (link_has_token t) (download_links s') = None).
  { destruct (sql_first (link_has_token t) (download_links s')) as [l|] eqn:Hl;
      [|reflexivity].
    apply sql_first_Some in Hl as [Hin Ht]. rewrite (Hnone l Hin) in Ht.
    discriminate. }
  assert (Hroute : sql_first (route_finds t now) (download_links s') = None).
  { destruct (sql_first (route_finds t now) (download_links s')) as [l|] eqn:Hl;
      [|reflexivity].
    apply sql_first_Some in Hl as [Hin Ht]. unfold route_finds in Ht.
    rewrite (Hnone l Hin) in Ht. discriminate. }
  split; [reflexivity|].
  assert (Hlookup : getDownloadLinkByToken t now s' = (inr None, s'))
    by (rewrite getDownloadLinkByToken_eq, Hfirst; reflexivity).
  split; [exact Hlookup|].
  split; [rewrite getDownloadFile_eq, Hlookup; reflexivity|].
  split; [rewrite download_route_eq, Hroute; reflexivity|].
  split; reflexivity.
Qed.

Lemma deleted_link_is_revoked_witness :
  let s' := snd (deleteDownloadLink "link_1" one_download_service) in
  getDownloadFile "tok_1" 2000 s' = (inl (JsError "Invalid download link"), s').
Proof.
  intros s'.
  assert (Hlink : exists link,
             sql_first (link_has_token "tok_1")
               (download_links one_download_service) = Some link)
    by (vm_compute; eexists; reflexivity).
  destruct Hlink as [link Hlink].
  pose proof Hlink as Hlink0. vm_compute in Hlink0. injection Hlink0 as Hlink0.
  destruct (deleted_link_is_revoked one_download_service "tok_1" 2000 link Hlink)
    as (_ & _ & Hfile & _).
  - intros l [<-|[]] _. exact Hlink0.
  - rewrite <- Hlink0 in Hfile. exact Hfile.
Defined.

End DownloadMoreFacts.

(** * More about the product service *)

Section ProductMoreFacts.
Import Js Product.

Lemma In_sql_order_by {Row} (key : Row -> Z) rows r :
  In r (sql_order_by key rows) <-> In r rows.
Proof.
  split; apply Permutation_in;
    [apply sql_order_by_perm | apply Permutation_sym, sql_order_by_perm].
Qed.

Lemma sql_update_update {Row} (p : Row -> bool) f g table :
  (forall r, p (g r) = p r) ->
  sql_update p f (sql_update p g table)
  = sql_update p (fun r => f (g r)) table.
Proof.
  intros Hp. unfold sql_update. rewrite map_map. apply map_ext.
  intros r. destruct (p r) eqn:Hr; [rewrite Hp, Hr | rewrite Hr]; reflexivity.
Qed.

(** X26.  A deactivated product leaves the shop window and comes back
    when activated.  After [deactivateProduct id], the active products
    listed for a store are those listed before whose id is not [id];
    [getProduct] still finds the product, inactive and with its stock.
    After [activateProduct id] on top, every product of the store with
    that id is listed again. *)
Theorem deactivated_product_is_not_listed :
  forall (db : Product.DB) (i store : string) (now now' : Z)
         (before after : list Product),
    fst (getStoreProducts store true db) = inr before ->
    fst (getStoreProducts store true (snd (deactivateProduct i now db)))
      = inr after ->
    (forall p, In p after <-> In p before /\ id p <> i) /\
    (forall p, fst (getProduct i db) = inr (Some p) ->
               fst (getProduct i (snd (deactivateProduct i now db)))
               = inr (Some (set_active false now p))) /\
    (forall p, In p db -> id p = i -> storeId p = store ->
       exists again,
         fst (getStoreProducts store true
                (snd (activateProduct i now'
                        (snd (deactivateProduct i now db))))) = inr again /\
         In (set_active true now' p) again).
Proof.
  intros db i store now now' before after Hbefore Hafter.
  unfold getStoreProducts, deactivateProduct, activateProduct, getProduct,
    gets, modify in *. cbn [fst snd] in *.
  injection Hbefore as <-. injection Hafter as <-.
  split; [|split].
  - intros p. rewrite !In_sql_order_by, !In_sql_all, In_sql_update. split.
    + intros [(r & Hin & ->) Hlisted].
      destruct (has_id i r) eqn:Hid.
      * cbn [storeId isActive set_active] in Hlisted.
        rewrite andb_false_r in Hlisted. discriminate.
      * split; [split; assumption|].
        unfold has_id in Hid. apply String.eqb_neq. exact Hid.
    + intros [[Hin Hlisted] Hid]. split; [|exact Hlisted].
      exists p. split; [exact Hin|].
      replace (has_id i p) with false; [reflexivity|].
      symmetry. apply String.eqb_neq. exact Hid.
  - intros p Hp. injection Hp as Hp.
    rewrite sql_first_update_same by reflexivity. rewrite Hp. reflexivity.
  - intros p Hin Hid Hstore. eexists. split; [reflexivity|].
    rewrite In_sql_order_by, In_sql_all.
    rewrite sql_update_update by reflexivity. split.
    + apply In_sql_update. exists p. split; [exact Hin|].
      replace (has_id i p) with true; [reflexivity|].
      symmetry. apply String.eqb_eq. exact Hid.
    + cbn [storeId isActive set_active]. rewrite Hstore, String.eqb_refl.
      reflexivity.
Qed.

Lemma deactivated_product_is_not_listed_witness :
  fst (getProduct "prod_1" (snd (deactivateProduct "prod_1" 200 [widget])))
    = inr (Some (set_active false 200 widget)) /\
  exists again,
    fst (getStoreProducts "store_1" true
           (snd (activateProduct "prod_1" 300
                   (snd (deactivateProduct "prod_1" 200 [widget]))))) = inr again /\
    In (set_active true 300 widget) again.
Proof.
  destruct (deactivated_product_is_not_listed [widget] "prod_1" "store_1" 200
              300 [widget] [] eq_refl eq_refl) as (_ & Hfound & Hback).
  split; [apply Hfound; reflexivity|].
  apply Hback; [left; reflexivity | reflexivity | reflexivity].
Defined.

(** X27.  Stock decreases add up.  Two [decreaseStock] calls for the
    same product, the second by a quantity that is not negative, leave
    the table as one call by the sum of the quantities made at the time
    of the second: the clamp at zero loses nothing in between. *)
Theorem decreaseStock_twice_is_one_decrease :
  forall (db : Product.DB) (i : string) (q1 q2 t1 t2 : Z),
    0 <= q2 ->
    snd (decreaseStock i q2 t2 (snd (decreaseStock i q1 t1 db)))
    = snd (decreaseStock i (q1 + q2) t2 db).
Proof.
  intros db i q1 q2 t1 t2 Hq2. unfold decreaseStock, modify. cbn [snd].
  rewrite sql_update_update by reflexivity.
  unfold sql_update. apply map_ext. intros p.
  destruct (has_id i p); [|reflexivity].
  unfold set_stock. cbn [id storeId name slug description type sku price cost
    stockQuantity weight dimensions imageUrl galleryUrls isActive isFeatured
    metadata createdAt updatedAt].
  f_equal. lia.
Qed.

Lemma decreaseStock_twice_is_one_decrease_witness :
  map stockQuantity
    (snd (decreaseStock "prod_1" 2 300
            (snd (decreaseStock "prod_1" 4 200 [widget])))) = [0] /\
  snd (decreaseStock "prod_1" 2 300 (snd (decreaseStock "prod_1" 4 200 [widget])))
  = snd (decreaseStock "prod_1" 6 300 [widget]).
Proof.
  split; [vm_compute; reflexivity|].
  apply (decreaseStock_twice_is_one_decrease [widget] "prod_1" 4 2 200 300). lia.
Defined.

End ProductMoreFacts.

(** * The store service *)

Section StoreFacts.
Import Js Stores.

Lemma fresh_store_id_spec i db :
  fresh_store_id i db -> forall st, In st db -> has_id i st = false.
Proof.
  intros Hfresh st Hin. unfold has_id. apply String.eqb_neq.
  apply Hfresh. exact Hin.
Qed.

Lemma fresh_slug_spec sl db :
  fresh_slug sl db -> forall st, In st db -> has_slug sl st = false.
Proof.
  intros Hfresh st Hin. unfold has_slug. apply String.eqb_neq.
  apply Hfresh. exact Hin.
Qed.

(** A lookup by another id does not see an update of the rows of [i]. *)
Lemma first_other_after_update i j f (db : Stores.DB) :
  j <> i ->
  (forall st, id (f st) = id st) ->
  sql_first (has_id j) (sql_update (has_id i) f db) = sql_first (has_id j) db.
Proof.
  intros Hji Hid. rewrite sql_first_update_keep
    by (intros st; unfold has_id; rewrite Hid; reflexivity).
  destruct (sql_first (has_id j) db) as [st|] eqn:Hfirst; [|reflexivity].
  apply sql_first_Some in Hfirst as [_ Hj]. cbn [option_map].
  replace (has_id i st) with false; [reflexivity|].
  symmetry. unfold has_id in *. apply String.eqb_eq in Hj.
  apply String.eqb_neq. congruence.
Qed.

(** X28.  [updateStoreSettings] merges, it does not replace.  For a
    store that is missing it throws store-not-found and writes nothing.
    Otherwise [getStoreSettings] afterwards returns every property given,
    with the value given, and every other property as it was; sending
    the same settings again changes no setting. *)
Theorem updateStoreSettings_merges_settings :
  forall (db : Stores.DB) (i : string) (sett : gmap string string)
         (now now' : Z),
    (sql_first (has_id i) db = None ->
     updateStoreSettings i sett now db
       = (inl (JsError ("Store not found: " +:+ i)), db)) /\
    (forall store,
        sql_first (has_id i) db = Some store ->
        let db' := snd (updateStoreSettings i sett now db) in
        fst (updateStoreSettings i sett now db) = inr tt /\
        exists merged,
          fst (getStoreSettings i db') = inr merged /\
          (forall k v, sett !! k = Some v -> merged !! k = Some v) /\
          (forall k, sett !! k = None -> merged !! k = settings store !! k) /\
          fst (getStoreSettings i (snd (updateStoreSettings i sett now' db')))
            = inr merged).
Proof.
  intros db i sett now now'.
  unfold updateStoreSettings, getStoreSettings, getStore, bind, gets, modify,
    throw, ret.
  split.
  - intros Hnone. rewrite Hnone. reflexivity.
  - intros store Hstore. rewrite Hstore. cbn [fst snd].
    split; [reflexivity|].
    rewrite sql_first_update_same by reflexivity. rewrite Hstore.
    cbn [option_map fst snd].
    rewrite sql_first_update_same by reflexivity.
    rewrite sql_first_update_same by reflexivity. rewrite Hstore.
    cbn [option_map settings set_settings].
    exists (sett ∪ settings store). split; [reflexivity|]. split; [|split].
    + intros k v Hk. apply lookup_union_Some_l. exact Hk.
    + intros k Hk. apply lookup_union_r. exact Hk.
    + f_equal. rewrite (assoc_L (∪)), (idemp_L (∪)). reflexivity.
Qed.

Lemma updateStoreSettings_merges_settings_witness :
  let db1 := snd (updateStoreSettings "store_1"
                    {[ "theme" := "dark"; "locale" := "en" ]} 200 books_db) in
  let db2 := snd (updateStoreSettings "store_1" {[ "theme" := "light" ]} 300 db1) in
  exists merged,
    fst (getStoreSettings "store_1" db2) = inr merged /\
    merged !! "theme" = Some "light" /\ merged !! "locale" = Some "en".
Proof.
  intros db1 db2.
  assert (Hstore : exists store,
             sql_first (has_id "store_1") db1 = Some store /\
             settings store !! "locale" = Some "en")
    by (vm_compute; eexists; split; reflexivity).
  destruct Hstore as (store & Hstore & Hlocale).
  destruct (updateStoreSettings_merges_settings db1 "store_1"
              {[ "theme" := "light" ]} 300 400) as [_ Hmerge].
  destruct (Hmerge store Hstore) as (_ & merged & Hget & Hnew & Hold & _).
  exists merged. split; [exact Hget|]. split.
  - apply Hnew. apply lookup_singleton_eq.
  - rewrite Hold; [exact Hlocale|]. apply lookup_singleton_ne. discriminate.
Defined.

(** X29.  Stores are isolated from one another: no request that names
    store [i] ([updateStore], [updateStoreSettings], [activateStore],
    [deactivateStore], [deleteStore]) changes what [getStore] returns
    for another id. *)
Theorem store_requests_touch_one_store :
  forall (db : Stores.DB) (i j : string) (input : UpdateStoreInput)
         (sett : gmap string string) (now : Z),
    j <> i ->
    fst (getStore j (snd (updateStore i input now db))) = fst (getStore j db) /\
    fst (getStore j (snd (updateStoreSettings i sett now db)))
      = fst (getStore j db) /\
    fst (getStore j (snd (activateStore i now db))) = fst (getStore j db) /\
    fst (getStore j (snd (deactivateStore i now db))) = fst (getStore j db) /\
    fst (getStore j (snd (deleteStore i db))) = fst (getStore j db).
Proof.
  intros db i j input sett now Hji.
  unfold updateStore, updateStoreSettings, activateStore, deactivateStore,
    deleteStore, getStore, bind, gets, modify, throw, ret.
  repeat split.
  - destruct (sql_first (has_id i) db) as [store|]; [|reflexivity].
    cbn [fst snd]. rewrite first_other_after_update by (exact Hji || reflexivity).
    reflexivity.
  - destruct (sql_first (has_id i) db) as [store|]; [|reflexivity].
    cbn [fst snd]. rewrite first_other_after_update by (exact Hji || reflexivity).
    reflexivity.
  - cbn [fst snd]. rewrite first_other_after_update by (exact Hji || reflexivity).
    reflexivity.
  - cbn [fst snd]. rewrite first_other_after_update by (exact Hji || reflexivity).
    reflexivity.
  - cbn [fst snd]. rewrite sql_first_delete_other; [reflexivity|].
    intros st _ Hi. unfold has_id in *. apply String.eqb_eq in Hi.
    apply String.eqb_neq. congruence.
Qed.

Lemma store_requests_touch_one_store_witness :
  fst (getStore "store_1" (snd (deleteStore "store_2" books_db)))
  = fst (getStore "store_1" books_db).
Proof.
  apply (store_requests_touch_one_store books_db "store_2" "store_1"
           (mkUpdateStoreInput None None None None None None None) ∅ 200).
  discriminate.
Defined.

(** X30.  The life of a store.  Created under a new id and a new slug,
    it is found by id and by slug as the same row, active, and listed
    among the active stores.  Deactivated, it is no longer listed among
    the active stores but still found by id and listed among all.
    Deleted, it is found neither by id nor by slug. *)
Theorem created_store_is_found_until_deleted :
  forall (db : Stores.DB) (input : CreateStoreInput) (newId : string)
         (t0 t1 : Z),
    fresh_store_id newId db ->
    fresh_slug (input_slug input) db ->
    let db1 := snd (createStore input newId t0 db) in
    let db2 := snd (deactivateStore newId t1 db1) in
    let db3 := snd (deleteStore newId db2) in
    exists row,
      fst (getStore newId db1) = inr (Some row) /\
      fst (getStoreBySlug (input_slug input) db1) = inr (Some row) /\
      isActive row = true /\
      (exists listed, fst (getAllStores true db1) = inr listed /\ In row listed) /\
      fst (getStore newId db2) = inr (Some (set_active false t1 row)) /\
      (exists listed, fst (getAllStores true db2) = inr listed /\
                      forall st, In st listed -> id st <> newId) /\
      (exists listed, fst (getAllStores false db2) = inr listed /\
                      In (set_active false t1 row) listed) /\
      fst (getStore newId db3) = inr None /\
      fst (getStoreBySlug (input_slug input) db3) = inr None.
Proof.
  intros db input newId t0 t1 Hid Hslug db1 db2 db3.
  set (row := mkStore newId (input_name input) (input_slug input)
                (or_null_string (input_description input))
                (or_null_string (input_logoUrl input))
                (or_USD (input_currency input)) (or_zero (input_taxRate input))
                (not_false (input_shippingEnabled input)) true
                (or_empty_object (input_settings input)) t0 t0).
  assert (Hdb1 : db1 = sql_insert row db) by reflexivity.
  assert (Hdb2 : db2 = sql_update (has_id newId) (set_active false t1) db1)
    by reflexivity.
  assert (Hdb3 : db3 = sql_delete (has_id newId) db2) by reflexivity.
  assert (Hself : has_id newId row = true) by apply String.eqb_refl.
  assert (Hget1 : sql_first (has_id newId) db1 = Some row).
  { rewrite Hdb1. apply sql_first_insert_fresh; [|exact Hself].
    apply fresh_store_id_spec. exact Hid. }
  exists row. unfold getStore, getStoreBySlug, getAllStores, gets. cbn [fst].
  split; [rewrite Hget1; reflexivity|].
  split.
  { rewrite Hdb1. f_equal. apply sql_first_insert_fresh.
    - apply fresh_slug_spec. exact Hslug.
    - apply String.eqb_refl. }
  split; [reflexivity|].
  split.
  { eexists. split; [reflexivity|].
    rewrite In_sql_order_by, In_sql_all. split; [|reflexivity].
    rewrite Hdb1. unfold sql_insert. apply in_or_app. right. left. reflexivity. }
  split.
  { rewrite Hdb2, sql_first_update_same by reflexivity.
    rewrite Hget1. reflexivity. }
  split.
  { eexists. split; [reflexivity|].
    intros st. rewrite In_sql_order_by, In_sql_all, Hdb2, In_sql_update.
    intros [(r & _ & ->) Hactive].
    destruct (has_id newId r) eqn:Hr; [discriminate|].
    unfold has_id in Hr. apply String.eqb_neq. exact Hr. }
  split.
  { eexists. split; [reflexivity|].
    rewrite In_sql_order_by, In_sql_all. split; [|reflexivity].
    rewrite Hdb2. apply In_sql_update. exists row. split.
    - rewrite Hdb1. unfold sql_insert. apply in_or_app. right. left. reflexivity.
    - rewrite Hself. reflexivity. }
  split.
  { rewrite Hdb3, sql_first_delete_same. reflexivity. }
  f_equal. destruct (sql_first (has_slug (input_slug input)) db3) as [st|] eqn:Hst;
    [|reflexivity].
  apply sql_first_Some in Hst as [Hin Hst].
  rewrite Hdb3 in Hin. apply In_sql_delete in Hin as [Hin Hnot].
  rewrite Hdb2 in Hin. apply In_sql_update in Hin as (r & Hin & ->).
  rewrite Hdb1 in Hin. unfold sql_insert in Hin.
  apply in_app_or in Hin as [Hin|[<-|[]]].
  - rewrite (fresh_store_id_spec _ _ Hid r Hin) in Hst.
    rewrite (fresh_slug_spec _ _ Hslug r Hin) in Hst. discriminate.
  - rewrite Hself in Hnot. unfold has_id in Hnot. cbn in Hnot.
    rewrite String.eqb_refl in Hnot. discriminate.
Qed.

Lemma created_store_is_found_until_deleted_witness :
  exists row,
    fst (getStoreBySlug "books" books_db) = inr (Some row) /\
    fst (getStore "store_1"
           (snd (deleteStore "store_1"
                   (snd (deactivateStore "store_1" 200 books_db))))) = inr None.
Proof.
  destruct (created_store_is_found_until_deleted [] books_input "store_1" 100 200)
    as (row & _ & Hslug & _ & _ & _ & _ & _ & Hgone & _).
  - intros st [].
  - intros st [].
  - exists row. split; [exact Hslug | exact Hgone].
Defined.

End StoreFacts.
